(* ===== verification/_CoqProject ===== *)
-Q . S2P
Prelude.v
Pointer.v
Buttons.v
PyText.v
PyInt.v
Utf8.v
Utf8Spec.v
Decoder.v
Transport.v
PyFloat.v
Motion.v
MainLoop.v
Program.v
Interrupt.v
Runtime.v
