(* ===== verification/Prelude.v ===== *)
(** * A verified model of MouseTracking/python_code.py

    The program (src/MouseTracking/python_code.py, 77 lines) bridges an
    Arduino that prints lines "dx,dy,L,R" on a serial port to the host
    pointer.  Its [main] function keeps two integers [prevL] and [prevR]
    and runs a loop: read a line of bytes ([ser.readline()]), decode it
    as UTF-8 dropping invalid bytes ([.decode(errors="ignore")]), strip
    white space ([.strip()]), skip it when empty, split it at commas
    ([.split(",")]), skip it unless there are four fields, convert them
    with [int()] (skipping the line on [ValueError]), move the pointer by
    [(int(dx * SCALE), int(dy * SCALE))] unless [dx] and [dy] are both
    zero, emit clicks (policy [EDGE_CLICK]) or press/release events
    (press/hold policy) from the level changes of the two buttons, and
    store the new levels.

    ** Files, in dependency order

    The development models every step of that loop, including the parts
    of CPython that decide which lines are accepted and what the pointer
    receives, since they are where the program's behaviour is decided:

    - [Prelude] (this file): the [result] error type ([Ok]/[Err]) and its
      bind notation [x <- c ;; k] in [mb_scope], the boolean-to-Prop
      tactics ([zify_bool], [case_test], [zcases], [split_ifs]), the hint
      databases [mb] and [mb_rw], and the list lemmas the components share.
    - [Pointer]: the calls the program makes on pynput's [Controller]
      (lines 55, 61, 63, 67, 69) as data ([button], [call]); the library
      itself as the type class [PointerService] with its laws
      [PointerLaws] (the interface the loop's theorems are proved
      against), the interpretation [perform_all] of a call sequence, and
      the model instance [Screen].
    - [Buttons] (Module [Buttons]): lines 20-21, 27-28 and 57-71, the
      click handling of one frame ([edge_click], [press_hold],
      [click_handling]) and the update [next_levels]; an abstract
      per-button specification of the two trigger policies
      ([spec_button], [spec_frame]) and the held-button invariant
      [held_matches].
    - [PyText] (Module [PyText]): [Py_UNICODE_ISSPACE], [str.strip()] and
      [str.split(",")] on texts as lists of code points (lines 36, 41).
    - [PyInt] (Module [PyInt]): [int(str)] in base 10 as CPython computes
      it ([_PyUnicode_TransformDecimalAndSpaceToASCII] with the Unicode
      decimal-digit table, [PyLong_FromString] with signs, underscores
      and the 4300-digit limit of Python 3.11+) for lines 46-49, and the
      printer [str_of_Z] of the device's numbers.
    - [Utf8] (Module [Utf8]): [bytes.decode("utf-8", errors="ignore")]
      (line 36): CPython's decoder step [utf8_step], which drops the
      maximal valid prefix of a bad sequence and restarts at the next
      byte, iterated by [utf8_decode_fuel]; the encoder [utf8_encode].
    - [Utf8Spec] (Module [Utf8Spec]): the decoding the Unicode standard
      prescribes (3.9, maximal subparts), as a relation [ref_decode]
      defined from the encoder alone, against which the decoder is
      proved.
    - [Decoder] (Module [Decoder]): the line decoder [decode_line], lines
      36-51 composed from the above, returning a [frame] or the
      [skip_reason] of the [continue]; the device's output [render_frame].
    - [Transport] (Module [Transport]): the serial port's [readline]
      (line 36), modelled from the spec's transport contract (section 6)
      with pyserial's semantics, since pyserial is not part of the
      repository: the input is a finite sequence of [arrival]s (a byte,
      a silence of one read timeout, the user's Ctrl+C); [readline]
      returns the bytes up to the newline or up to a timeout, or raises
      [KeyboardInterrupt]; [read_lines] is the sequence of reads, by
      well-founded recursion with Equations.
    - [PyFloat] (Module [PyFloat]): the IEEE binary64 operations of
      [int(dx * SCALE)] on the Standard Library's [SpecFloat]:
      [float_of_int] (round to nearest even, [OverflowError] at
      [2^1024]), [float_mul], [int_of_float] (truncation), [SCALE = 1.0]
      and the power-of-two scales [pow2_scale k], the double [2.0 ** k].
    - [Motion] (Module [Motion]): lines 53-55, [scaled] and [motion].
    - [MainLoop] (Module [MainLoop]): one iteration [loop_body] (a
      [Continue] with the new levels and the calls, or the [Crash] of an
      exception that leaves [main]), the run [run] over a finite prefix of
      the [readline] results, [main_run] with the program's settings, the
      transition relation [reach] of the loop driving a [PointerService],
      and the abstract machine [spec_run] of the spec.
    - [Program] (Module [Program]): [main] and the [__main__] guard
      (lines 6-9, 26-33, 73-77): the port settings, [SerialException]
      when the port does not open, the two messages printed, the loop
      [serve] as the code runs it (one read, one iteration; Equations),
      [KeyboardInterrupt] caught, other exceptions uncaught; the result
      is an [outcome]: console lines, pointer calls, exit status.
    - [Interrupt] (Module [Interrupt]): Ctrl+C wherever it lands: in the
      sleep of line 32, or once the program has made [n] pointer calls
      (between two calls of one iteration, before line 71, or in the
      next read); [serve_cc] and [main_program_cc] (model only).
    - [Runtime] (Module [Runtime]): lines 24 and 53-71 in direct style:
      the global [mouse = Controller()] is the state of a state and
      exception monad [io] (notation in [io_scope]), the four methods
      act on it where the code calls them, and [loop_body_io] and
      [run_io] run the loop statement by statement.

    ** What the theorems show

    - UTF-8: the decoder computes exactly the standard's decoding with
      the maximal subparts dropped ([Utf8Spec.utf8_decode_reference]);
      it round-trips the encoder and yields only scalar values.
    - Decoding: a line the device prints decodes to its four numbers
      ([Decoder.decode_render]); the exact acceptance condition
      ([decode_line_ok_iff]); the field-count skip, which the guard of
      line 42 alone decides; [int(str(z)) = z] up to the digit limit,
      the bound on what [int()] returns, and the white space it accepts
      around a field ([PyInt.py_int_padded]).
    - The state machine: the click handling refines the per-policy
      specification on 0/1 levels ([Buttons.click_handling_refines]);
      the stored levels after a run are those of the last accepted frame
      ([MainLoop.run_final_levels]); by rule induction on [reach], under
      press/hold the held buttons are exactly those whose level is
      nonzero, and under edge click no button is ever held, for any
      pointer satisfying [PointerLaws].
    - The whole loop: on well-formed input the run refines [spec_run]
      ([MainLoop.run_refines]); rejected lines change nothing; a delta of
      [2^1024] or more ends [main] with [OverflowError].
    - Motion: with [SCALE] the deltas below [2^53] arrive exactly;
      above, they are rounded to nearest, ties to even, to 53
      significant bits ([Motion.scaled_SCALE_rounding]); the conversion
      overflows exactly from [2^1024 - 2^970] on
      ([Motion.scaled_SCALE_overflow_iff]).  With a power-of-two scale
      [2^k] a delta below [2^53] moves by [d * 2^k] truncated toward
      zero, with [OverflowError] exactly from [2^1024] on
      ([Motion.scaled_pow2_exact]).
    - Transport and program: no byte is lost or reordered by the reads;
      the device's stream is read back line by line; a silence inside a
      line splits it; the whole program on the device's stream ended by
      Ctrl+C prints its two messages and makes the calls of [run]; from
      any state the line "0,0,0,0" releases both buttons (liveness).
    - Where the code departs from the spec, each as a general theorem:
      the edge-click and press/hold policies on levels other than 0 and
      1 ([Buttons.edge_click_vs_truthy], [press_hold_vs_truthy]); a line
      cut by a read timeout inside its first field, whose second
      fragment is accepted with a wrong [dx]
      ([Decoder.split_line_fragment_accepted]); the zero test on the
      unscaled deltas, which makes [move(0, 0)] calls under a scale
      below one ([Motion.motion_zero_move]); the uncaught
      [OverflowError] ([MainLoop.run_crash]); and Ctrl+C under
      press/hold, after which the buttons the device last reported
      pressed stay held ([Program.interrupt_keeps_held]).

    [Runtime.run_io_trace] and [Program.serve_read_lines] are lemmas
    that relate two translations of the same lines (effects performed
    as they happen and recorded calls; the loop reading lazily and
    reading first); they check the model, not the program.

    ** Bounds and fuel

    [utf8_decode_ignore] runs [utf8_decode_fuel] with fuel the length of
    the input; every step consumes at least one byte
    ([utf8_step_length]), so this is enough ([utf8_decode_fuel_stable]).
    The printer [str_of_nonneg] uses [Z.log2 n + 1] digits of fuel, proved
    enough by [str_of_nonneg_fuel].  The integer limits are the code's:
    [max_str_digits = 4300], the binary64 precision [2^53] and range
    [2^1024]; integers are unbounded [Z] as in Python.

    ** Not modelled

    The operating system's side of the serial port (opening it is an
    input of [Program.main_program]; the baud rate has no effect on what
    the loop computes) and of the pointer beyond the position and the
    held state of the buttons: pyserial and pynput are libraries the
    program calls, not code of the repository, so they are modelled
    from the spec's contracts ([Transport.readline], the class
    [Pointer.PointerService] with its laws), which is why those two
    components are only partly modelled.  In particular a pointer call
    is atomic in the model, as the spec's [click(button)] is: pynput's
    [click] is a press then a release in Python, and a Ctrl+C between
    the two would leave the button held, so no theorem is stated about
    an interrupt between two pointer calls ([Interrupt] models where it
    lands).  The input is a finite prefix of
    what the port receives, so the program is observed up to a point
    rather than forever.  Scales that are not powers of two are covered
    by the overflow theorem only: their product with a delta is
    rounded, and is not characterised in general. *)

From Stdlib Require Import ZArith List Bool Lia.
Import ListNotations.

(** ** Results of fallible code: Python exceptions as values *)

Inductive result (A E : Type) : Type :=
| Ok (a : A)
| Err (e : E).
Arguments Ok {A E} a.
Arguments Err {A E} e.

Definition bind_result {A B E} (r : result A E) (k : A -> result B E)
  : result B E :=
  match r with
  | Ok a => k a
  | Err e => Err e
  end.

Declare Scope mb_scope.
Delimit Scope mb_scope with mb.
Notation "x <- c ;; k" := (bind_result c (fun x => k))
  (at level 61, c at next level, right associativity) : mb_scope.

Definition is_ok {A E} (r : result A E) : bool :=
  match r with Ok _ => true | Err _ => false end.

(** [inspect] keeps the equation of a matched value, for the loops
    defined by well-founded recursion with Equations (the inspect
    method): [f x with inspect (g x) := { | exist _ v E => ... }]. *)
Definition inspect {A} (a : A) : {b | a = b} := exist _ a eq_refl.

(** ** Hint databases of the development *)

Create HintDb mb discriminated.
Create Rewrite HintDb mb_rw.

(** ** Boolean tests of the code as propositions *)

(** [zify_bool] replaces every [Z.eqb], [Z.ltb], [Z.leb] and [Nat.eqb]
    test of the goal and the context by the proposition it decides, so
    that [lia] and [congruence] finish the case. *)
Ltac zify_bool :=
  repeat match goal with
  | H : (_ =? _)%Z = true |- _ => apply Z.eqb_eq in H
  | H : (_ =? _)%Z = false |- _ => apply Z.eqb_neq in H
  | H : (_ <? _)%Z = true |- _ => apply Z.ltb_lt in H
  | H : (_ <? _)%Z = false |- _ => apply Z.ltb_ge in H
  | H : (_ <=? _)%Z = true |- _ => apply Z.leb_le in H
  | H : (_ <=? _)%Z = false |- _ => apply Z.leb_gt in H
  | H : (_ =? _)%nat = true |- _ => apply Nat.eqb_eq in H
  | H : (_ =? _)%nat = false |- _ => apply Nat.eqb_neq in H
  | H : (_ && _)%bool = true |- _ => apply andb_true_iff in H; destruct H
  | H : (_ || _)%bool = false |- _ => apply orb_false_iff in H; destruct H
  end.

(** [case_test] splits on the first boolean test of the goal. *)
Ltac case_test :=
  match goal with
  | |- context [if ?b then _ else _] =>
      let E := fresh "E" in destruct b eqn:E; zify_bool
  end.

(** [zcases] splits on the integer comparisons that guard the [if]s of
    the hypotheses, one hypothesis at a time, keeping the arithmetic
    folded. *)
Ltac zcases :=
  repeat (first
    [ match goal with
      | H : context [if ((?a <=? ?b) && (?b' <=? ?c))%Z then _ else _] |- _ =>
          destruct (Z.leb_spec a b); destruct (Z.leb_spec b' c); cbn [andb] in H
      | H : context [if (?a =? ?b)%Z then _ else _] |- _ =>
          destruct (Z.eqb_spec a b); cbn [andb] in H
      end
    | progress subst ]).

(** [zgoal] splits on the integer comparisons of the [if]s of the goal,
    outermost first, and drops the branches whose comparisons
    contradict each other. *)
Ltac zgoal :=
  repeat (match goal with
    | |- context [if ((?a <=? ?b) && (?b' <=? ?c))%Z then _ else _] =>
        destruct (Z.leb_spec a b); destruct (Z.leb_spec b' c); cbn [andb]
    | |- context [if (?a =? ?b)%Z then _ else _] => destruct (Z.eqb_spec a b)
    | |- context [if (?a <? ?b)%Z then _ else _] => destruct (Z.ltb_spec a b)
    end; try (exfalso; lia)).

(** [split_ifs] splits on every [if] of the goal, whatever its test. *)
Ltac split_ifs :=
  repeat match goal with
  | |- context [if ?c then _ else _] => destruct c
  end.

(** ** Generic lemmas *)

Lemma bind_result_ok {A B E} (a : A) (k : A -> result B E) :
  bind_result (Ok a) k = k a.
Proof. reflexivity. Qed.

Lemma bind_result_err {A B E} (e : E) (k : A -> result B E) :
  bind_result (Err e) k = Err e.
Proof. reflexivity. Qed.

#[export] Hint Rewrite @bind_result_ok @bind_result_err : mb_rw.

Lemma bind_result_eq_ok {A B E} (r : result A E) (k : A -> result B E) b :
  bind_result r k = Ok b -> exists a, r = Ok a /\ k a = Ok b.
Proof. destruct r; simpl; [eauto | discriminate]. Qed.

Lemma forallb_rev {A} (f : A -> bool) (l : list A) :
  forallb f (rev l) = forallb f l.
Proof.
  induction l as [|x l IH]; simpl; [reflexivity|].
  rewrite forallb_app, IH; simpl. now rewrite andb_true_r, andb_comm.
Qed.

#[export] Hint Rewrite @forallb_app @forallb_rev : mb_rw.

Lemma last_in {A} (l : list A) d : l <> [] -> In (last l d) l.
Proof.
  induction l as [|x l IH]; intros Hne; [contradiction|].
  destruct l as [|y l]; [now left|]. right. apply IH. discriminate.
Qed.

Lemma last_app_nonempty {A} (l1 l2 : list A) d :
  l2 <> [] -> last (l1 ++ l2) d = last l2 d.
Proof.
  intros Hne. induction l1 as [|x l1 IH]; [reflexivity|].
  rewrite <- app_comm_cons. simpl. rewrite IH.
  destruct (l1 ++ l2) eqn:E; [|reflexivity].
  apply app_eq_nil in E as [_ ->]. contradiction.
Qed.

Lemma in_firstn {A} (x : A) n l : In x (firstn n l) -> In x l.
Proof. intros H. rewrite <- (firstn_skipn n l). apply in_or_app. now left. Qed.

Lemma in_skipn {A} (x : A) n l : In x (skipn n l) -> In x l.
Proof. intros H. rewrite <- (firstn_skipn n l). apply in_or_app. now right. Qed.


Lemma prefix_longer {A} (q r p rest : list A) :
  q ++ r = p ++ rest -> (length p < length q)%nat ->
  exists x u, q = p ++ x :: u /\ rest = x :: u ++ r.
Proof.
  intros E Hl. apply app_eq_app in E as (l & [[-> ->]|[-> ->]]).
  - destruct l as [|x u]; [rewrite app_nil_r in Hl; lia|]. now exists x, u.
  - rewrite length_app in Hl. lia.
Qed.

Lemma prefix_same_length {A} (p p' r r' : list A) :
  p ++ r = p' ++ r' -> length p = length p' -> p = p'.
Proof.
  intros E Hl. apply app_eq_app in E as (l & [[-> ->]|[-> ->]]);
    rewrite length_app in Hl; (destruct l; [now rewrite app_nil_r|cbn in Hl; lia]).
Qed.

Lemma forallb_firstn {A} (f : A -> bool) n l :
  forallb f l = true -> forallb f (firstn n l) = true.
Proof.
  revert l; induction n as [|n IH]; intros [|x l] H; try reflexivity.
  cbn in *. apply andb_true_iff in H as [Hx Hl]. now rewrite Hx, IH.
Qed.
#[export] Hint Resolve in_firstn in_skipn : mb.
