(* ===== verification/Pointer.v ===== *)
(** * The pointer-injection service the program drives

    Line 3 and 24 of src/MouseTracking/python_code.py create a pynput
    [Controller]; the loop calls [mouse.move(x, y)] (line 55),
    [mouse.click(Button.left, 1)] and [mouse.click(Button.right, 1)]
    (lines 61, 63), [mouse.press(b)] and [mouse.release(b)] (lines 67,
    69).  This file holds the data of those calls ([button], [call]) and
    the interface the loop's theorems rely on: the type class
    [PointerService] of the four operations with the observation
    [ps_held] (is the button held down), and the class [PointerLaws] of
    the laws pynput documents for them.  [Screen] is a model instance:
    a pointer position and the two button states. *)

From Stdlib Require Import ZArith List Bool Lia.
From S2P Require Import Prelude.
Import ListNotations.

(** pynput's [Button.left] and [Button.right]. *)
Inductive button : Type :=
| Left
| Right.

(** One call of the program on [mouse]; [Click b n] is
    [mouse.click(b, n)]. *)
Inductive call : Type :=
| Move (dx dy : Z)
| Click (b : button) (count : Z)
| Press (b : button)
| Release (b : button).

Definition button_eq_dec (a b : button) : {a = b} + {a <> b}.
Proof. decide equality. Defined.

Definition call_eq_dec (a b : call) : {a = b} + {a <> b}.
Proof. decide equality; first [apply Z.eq_dec | apply button_eq_dec]. Defined.

(** ** The interface *)

Class PointerService (W : Type) := {
  ps_move : Z -> Z -> W -> W;
  ps_click : button -> Z -> W -> W;
  ps_press : button -> W -> W;
  ps_release : button -> W -> W;
  ps_held : button -> W -> bool
}.

(** [click(b, n)] is [n] times [press(b)] then [release(b)], so with
    [n >= 1] the button ends up released; a call on one button leaves
    the other one as it was, and moving leaves both. *)
Class PointerLaws (W : Type) `{PointerService W} := {
  held_press : forall b w, ps_held b (ps_press b w) = true;
  held_release : forall b w, ps_held b (ps_release b w) = false;
  held_click : forall b n w, (1 <= n)%Z -> ps_held b (ps_click b n w) = false;
  held_press_other : forall b b' w, b <> b' -> ps_held b' (ps_press b w) = ps_held b' w;
  held_release_other : forall b b' w, b <> b' -> ps_held b' (ps_release b w) = ps_held b' w;
  held_click_other : forall b b' n w, b <> b' -> ps_held b' (ps_click b n w) = ps_held b' w;
  held_move : forall b x y w, ps_held b (ps_move x y w) = ps_held b w
}.

Section Interp.
Context {W : Type} `{PointerService W}.

(** Performing one call, and a sequence of calls in order. *)
Definition perform (c : call) (w : W) : W :=
  match c with
  | Move x y => ps_move x y w
  | Click b n => ps_click b n w
  | Press b => ps_press b w
  | Release b => ps_release b w
  end.

Definition perform_all (cs : list call) (w : W) : W :=
  fold_left (fun w c => perform c w) cs w.

Lemma perform_all_app cs1 cs2 w :
  perform_all (cs1 ++ cs2) w = perform_all cs2 (perform_all cs1 w).
Proof. unfold perform_all. apply fold_left_app. Qed.

(** A call that is not about button [b] (and is not a [click] with a
    count below one) leaves [b]'s state unchanged. *)
Definition touches (b : button) (c : call) : bool :=
  match c with
  | Move _ _ => false
  | Click b' _ | Press b' | Release b' =>
      if button_eq_dec b b' then true else false
  end.

Context `{!PointerLaws W}.

Lemma held_perform_untouched b c w :
  touches b c = false -> ps_held b (perform c w) = ps_held b w.
Proof.
  destruct c as [x y|b' n|b'|b']; simpl; intros Ht;
    [apply held_move|..];
    destruct (button_eq_dec b b'); try discriminate;
    [apply held_click_other | apply held_press_other | apply held_release_other];
    congruence.
Qed.

Lemma held_perform_all_untouched b cs w :
  forallb (fun c => negb (touches b c)) cs = true ->
  ps_held b (perform_all cs w) = ps_held b w.
Proof.
  revert w; induction cs as [|c cs IH]; intros w Hall; simpl in *; [reflexivity|].
  apply andb_true_iff in Hall as [Hc Hcs]. apply negb_true_iff in Hc.
  rewrite (IH _ Hcs). now apply held_perform_untouched.
Qed.
End Interp.

#[export] Hint Rewrite @perform_all_app : mb_rw.

(** ** A model instance: the pointer position and the two buttons *)

Record Screen : Type := mk_screen {
  pos_x : Z;
  pos_y : Z;
  left_down : bool;
  right_down : bool
}.

Definition set_down (b : button) (v : bool) (s : Screen) : Screen :=
  match b with
  | Left => mk_screen (pos_x s) (pos_y s) v (right_down s)
  | Right => mk_screen (pos_x s) (pos_y s) (left_down s) v
  end.

Definition down (b : button) (s : Screen) : bool :=
  match b with Left => left_down s | Right => right_down s end.

#[export] Instance screen_service : PointerService Screen := {
  ps_move := fun x y s => mk_screen (pos_x s + x) (pos_y s + y) (left_down s) (right_down s);
  ps_click := fun b n s => if (1 <=? n)%Z then set_down b false s else s;
  ps_press := fun b s => set_down b true s;
  ps_release := fun b s => set_down b false s;
  ps_held := down
}.

#[export] Instance screen_laws : PointerLaws Screen.
Proof.
  split; simpl.
  all: intros; repeat match goal with b : button |- _ => destruct b end;
    simpl; try reflexivity; try congruence.
  all: match goal with |- context [(1 <=? ?n)%Z] =>
         destruct (Z.leb_spec 1 n); simpl; try reflexivity; lia end.
Qed.
