(* ===== verification/Buttons.v ===== *)
(** * The input state machine: click handling of one frame

    Lines 20-21, 27-28 and 57-71 of src/MouseTracking/python_code.py.
    The state is the pair [prevL], [prevR] of the last levels
    ([levels]); [click_handling] is the block of lines 58-69 under the
    flag [EDGE_CLICK], and [next_levels] the assignment of line 71.
    Against it stands the abstract specification of the two trigger
    policies of the spec (section 4.3): [spec_button] on the two levels
    released/pressed.  The theorems: the code refines the specification
    on 0/1 levels; under press/hold the held state of each button always
    mirrors the truthiness of the stored level (for every integer level,
    against any [PointerLaws] instance); under edge click no button is
    ever left held; and the exact deviation of the code from the
    specification on levels other than 0 and 1. *)

From Stdlib Require Import ZArith List Bool Lia.
From S2P Require Import Prelude Pointer.
Import ListNotations.
Local Open Scope Z_scope.

Module Buttons.

(** [EDGE_CLICK = True] (line 21). *)
Definition EDGE_CLICK : bool := true.

(** The loop state [prevL, prevR] (lines 27-28, 71). *)
Record levels : Type := mk_levels {
  prevL : Z;
  prevR : Z
}.

Definition initial_levels : levels := mk_levels 0 0.

(** Lines 60-63: [if L == 1 and prevL == 0: mouse.click(b, 1)]. *)
Definition edge_click (b : button) (cur prev : Z) : list call :=
  if (cur =? 1) && (prev =? 0) then [Click b 1] else [].

(** Lines 66-69: [if L != prevL: (mouse.press(b) if L else
    mouse.release(b))]; [if L] is Python's truthiness of an int. *)
Definition press_hold (b : button) (cur prev : Z) : list call :=
  if negb (cur =? prev) then
    [if negb (cur =? 0) then Press b else Release b]
  else [].

(** Lines 58-69, left button before right button. *)
Definition click_handling (edge : bool) (st : levels) (L R : Z) : list call :=
  if edge then edge_click Left L (prevL st) ++ edge_click Right R (prevR st)
  else press_hold Left L (prevL st) ++ press_hold Right R (prevR st).

(** Line 71: [prevL, prevR = L, R], unconditionally. *)
Definition next_levels (L R : Z) : levels := mk_levels L R.

Definition prev_of (b : button) (st : levels) : Z :=
  match b with Left => prevL st | Right => prevR st end.

(** ** The abstract specification (spec, section 4.3) *)

Inductive policy : Type := EdgeClick | PressHold.

Definition policy_of (edge : bool) : policy :=
  if edge then EdgeClick else PressHold.

Inductive level : Type := Released | Pressed.

(** The protocol's levels: 0 released, 1 pressed. *)
Definition level_of (z : Z) : option level :=
  if z =? 0 then Some Released else if z =? 1 then Some Pressed else None.

(** The lenient reading of the spec's open question: nonzero is pressed. *)
Definition truthy (z : Z) : level := if z =? 0 then Released else Pressed.

Definition spec_button (p : policy) (b : button) (prev cur : level) : list call :=
  match p, prev, cur with
  | EdgeClick, Released, Pressed => [Click b 1]
  | PressHold, Released, Pressed => [Press b]
  | PressHold, Pressed, Released => [Release b]
  | _, _, _ => []
  end.

Definition spec_frame (p : policy) (pl pr cl cr : level) : list call :=
  spec_button p Left pl cl ++ spec_button p Right pr cr.

Definition code_button (edge : bool) (b : button) (cur prev : Z) : list call :=
  if edge then edge_click b cur prev else press_hold b cur prev.

(** ** Lemmas *)

Lemma click_handling_split edge st L R :
  click_handling edge st L R =
  code_button edge Left L (prevL st) ++ code_button edge Right R (prevR st).
Proof. unfold click_handling, code_button. now destruct edge. Qed.

Lemma level_of_some z l :
  level_of z = Some l -> (z = 0 /\ l = Released) \/ (z = 1 /\ l = Pressed).
Proof.
  unfold level_of. intros H.
  destruct (Z.eqb_spec z 0); [inversion H; auto|].
  destruct (Z.eqb_spec z 1); inversion H; auto.
Qed.

Lemma code_button_refines edge b cur prev lc lp :
  level_of prev = Some lp -> level_of cur = Some lc ->
  code_button edge b cur prev = spec_button (policy_of edge) b lp lc.
Proof.
  intros Hp Hc.
  destruct (level_of_some _ _ Hp) as [[-> ->]|[-> ->]];
  destruct (level_of_some _ _ Hc) as [[-> ->]|[-> ->]];
  destruct edge; reflexivity.
Qed.

Lemma press_hold_touches_only b b' cur prev :
  b <> b' -> forallb (fun c => negb (touches b' c)) (press_hold b cur prev) = true.
Proof.
  intros Hne. unfold press_hold. split_ifs; simpl; try reflexivity;
    destruct (button_eq_dec b' b); simpl; congruence.
Qed.

Lemma edge_click_touches_only b b' cur prev :
  b <> b' -> forallb (fun c => negb (touches b' c)) (edge_click b cur prev) = true.
Proof.
  intros Hne. unfold edge_click. split_ifs; simpl; try reflexivity;
    destruct (button_eq_dec b' b); simpl; congruence.
Qed.

Section Held.
Context {W : Type} `{PointerLaws W}.

Lemma press_hold_held b cur prev w :
  ps_held b w = negb (prev =? 0) ->
  ps_held b (perform_all (press_hold b cur prev) w) = negb (cur =? 0).
Proof.
  unfold press_hold. intros Hw.
  destruct (Z.eqb_spec cur prev) as [->|Hne]; simpl; [exact Hw|].
  destruct (Z.eqb_spec cur 0); simpl;
    [apply held_release | apply held_press].
Qed.

Lemma edge_click_held b cur prev w :
  ps_held b w = false ->
  ps_held b (perform_all (edge_click b cur prev) w) = false.
Proof.
  unfold edge_click. intros Hw. split_ifs; simpl; [apply held_click; lia | exact Hw].
Qed.
(** The held state of both buttons agrees with the stored levels read
    as Python truth values. *)
Definition held_matches (st : levels) (w : W) : Prop :=
  ps_held Left w = negb (prevL st =? 0) /\ ps_held Right w = negb (prevR st =? 0).

Lemma code_button_other edge b b' cur prev :
  b <> b' ->
  forallb (fun c => negb (touches b' c)) (code_button edge b cur prev) = true.
Proof.
  destruct edge; [apply edge_click_touches_only | apply press_hold_touches_only].
Qed.

(** The state of button [b] after one frame is the state after [b]'s
    own calls, run from a world where [b] is as it was before the
    frame. *)
Lemma held_after_frame edge st L R b w :
  exists w1, ps_held b w1 = ps_held b w /\
    ps_held b (perform_all (click_handling edge st L R) w) =
    ps_held b (perform_all (code_button edge b (match b with Left => L | Right => R end) (prev_of b st)) w1).
Proof.
  rewrite click_handling_split. setoid_rewrite perform_all_app.
  destruct b; simpl.
  - exists w. split; [reflexivity|].
    apply held_perform_all_untouched, code_button_other; discriminate.
  - eexists. split; [|reflexivity].
    apply held_perform_all_untouched, code_button_other; discriminate.
Qed.
End Held.

(** ** Theorems *)

(** C3: on the protocol's levels 0 and 1, the click handling of lines
    58-69 emits exactly the calls of the specification's trigger policy
    (edge click: a click on each rising edge; press/hold: press on a
    rising edge, release on a falling edge), left button first. *)
Theorem click_handling_refines edge st L R pl pr cl cr :
  level_of (prevL st) = Some pl -> level_of (prevR st) = Some pr ->
  level_of L = Some cl -> level_of R = Some cr ->
  click_handling edge st L R = spec_frame (policy_of edge) pl pr cl cr.
Proof.
  intros HpL HpR HL HR. rewrite click_handling_split. unfold spec_frame.
  now rewrite (code_button_refines _ _ _ _ _ _ HpL HL),
              (code_button_refines _ _ _ _ _ _ HpR HR).
Qed.

Lemma click_handling_refines_witness :
  level_of 0 = Some Released /\ level_of 1 = Some Pressed /\
  click_handling EDGE_CLICK (mk_levels 0 1) 1 1 =
    spec_frame EdgeClick Released Pressed Pressed Pressed.
Proof.
  split; [reflexivity|]. split; [reflexivity|].
  apply (click_handling_refines EDGE_CLICK (mk_levels 0 1) 1 1); reflexivity.
Defined.

(** Under the press/hold policy the invariant [held_matches] is
    preserved by the calls of one frame followed by line 71, for any
    integer levels. *)
Lemma press_hold_tracks_levels {W} `{PointerLaws W} st L R (w : W) :
  held_matches st w ->
  held_matches (next_levels L R) (perform_all (click_handling false st L R) w).
Proof.
  intros [HL HR]. split;
    [destruct (held_after_frame false st L R Left w) as (w1 & Hw1 & ->)
    |destruct (held_after_frame false st L R Right w) as (w1 & Hw1 & ->)];
    apply press_hold_held; cbn [prev_of]; congruence.
Qed.

(** Under the edge-click policy a button that is not held is still not
    held after the calls of a frame. *)
Lemma edge_click_never_holds {W} `{PointerLaws W} st L R b (w : W) :
  ps_held b w = false ->
  ps_held b (perform_all (click_handling true st L R) w) = false.
Proof.
  intros Hw. destruct (held_after_frame true st L R b w) as (w1 & Hw1 & ->).
  apply edge_click_held. congruence.
Qed.

(** C14: the edge-click code against the lenient specification (any
    nonzero level is pressed): it clicks exactly where that
    specification clicks and the new level is exactly 1; a rising edge
    to any other nonzero level is not clicked. *)
Theorem edge_click_vs_truthy b cur prev :
  edge_click b cur prev =
  if cur =? 1 then spec_button EdgeClick b (truthy prev) (truthy cur) else [].
Proof.
  unfold edge_click, truthy.
  destruct (Z.eqb_spec cur 1) as [->|]; simpl; [|reflexivity].
  now destruct (Z.eqb_spec prev 0).
Qed.

(** C15: the press/hold code against the lenient specification: it emits
    the specification's press or release, plus one more [press] when
    the level changes between two nonzero values (for instance 1 to 2),
    although the button is already held. *)
Theorem press_hold_vs_truthy b cur prev :
  press_hold b cur prev =
  spec_button PressHold b (truthy prev) (truthy cur) ++
  (if negb (prev =? 0) && negb (cur =? 0) && negb (cur =? prev)
   then [Press b] else []).
Proof.
  unfold press_hold, truthy.
  destruct (Z.eqb_spec cur prev) as [Heq|Hne];
  destruct (Z.eqb_spec prev 0); destruct (Z.eqb_spec cur 0); simpl;
    try reflexivity; lia.
Qed.

End Buttons.
