(* ===== verification/PyText.v ===== *)
(** * Python text operations used by the line decoder

    A Python [str] is a sequence of code points, here [text := list Z].
    Line 36 of src/MouseTracking/python_code.py strips the decoded line
    with [str.strip()] and line 41 splits it with [str.split(",")].
    [py_isspace] is CPython's [Py_UNICODE_ISSPACE] (the code points
    [str.isspace] and [strip] treat as white space), [py_strip] is
    [do_strip] with no argument (drop white space at both ends), and
    [py_split] is [split_char]: a piece between each two separators,
    empty pieces kept.  The lemmas, used by [Decoder], give the number
    of pieces, the round trip between [py_split] and joining with the
    separator, and what [py_strip] removes. *)

From Stdlib Require Import ZArith List Bool Lia.
From S2P Require Import Prelude.
Import ListNotations.
Local Open Scope Z_scope.

Module PyText.

Definition text := list Z.

(** [Py_UNICODE_ISSPACE]: ASCII 9-13 and 28-32, and the Unicode white
    space of [_PyUnicode_IsWhitespace]. *)
Definition py_isspace (c : Z) : bool :=
  ((9 <=? c) && (c <=? 13)) || ((28 <=? c) && (c <=? 32)) ||
  (c =? 133) || (c =? 160) || (c =? 5760) ||
  ((8192 <=? c) && (c <=? 8202)) || (c =? 8232) || (c =? 8233) ||
  (c =? 8239) || (c =? 8287) || (c =? 12288).

(** [do_strip]: first the index of the first non-space, then the last. *)
Fixpoint lstrip (s : text) : text :=
  match s with
  | [] => []
  | c :: s' => if py_isspace c then lstrip s' else s
  end.

Definition rstrip (s : text) : text := rev (lstrip (rev s)).

Definition py_strip (s : text) : text := rstrip (lstrip s).

(** [str.split(sep)] for a one-character [sep] ([split_char]). *)
Fixpoint py_split (sep : Z) (s : text) : list text :=
  match s with
  | [] => [[]]
  | c :: s' =>
      let parts := py_split sep s' in
      if c =? sep then [] :: parts
      else match parts with
           | p :: ps => (c :: p) :: ps
           | [] => [[c]]
           end
  end.

(** [sep.join(parts)], the inverse of [py_split]. *)
Fixpoint py_join (sep : Z) (parts : list text) : text :=
  match parts with
  | [] => []
  | [p] => p
  | p :: ps => p ++ sep :: py_join sep ps
  end.

Definition COMMA : Z := 44.

(** ** Lemmas *)

Lemma py_split_nonempty sep s : py_split sep s <> [].
Proof.
  destruct s as [|c s]; simpl; [discriminate|].
  destruct (c =? sep); [discriminate|]. destruct (py_split sep s); discriminate.
Qed.

Lemma py_split_cons sep c s :
  c <> sep ->
  exists p ps, py_split sep s = p :: ps /\ py_split sep (c :: s) = (c :: p) :: ps.
Proof.
  intros Hc. simpl. destruct (Z.eqb_spec c sep); [contradiction|].
  destruct (py_split sep s) as [|p ps] eqn:E; [now apply py_split_nonempty in E|].
  eauto.
Qed.

Lemma py_join_cons sep p ps :
  ps <> [] -> py_join sep (p :: ps) = p ++ sep :: py_join sep ps.
Proof. destruct ps; [contradiction|reflexivity]. Qed.

Lemma py_split_join sep s : py_join sep (py_split sep s) = s.
Proof.
  induction s as [|c s IH]; [reflexivity|].
  destruct (Z.eqb_spec c sep) as [->|Hc].
  - simpl. rewrite Z.eqb_refl, py_join_cons by apply py_split_nonempty.
    now rewrite IH.
  - destruct (py_split_cons sep c s Hc) as (p & ps & E & ->).
    rewrite E in IH. destruct ps; simpl in *; now rewrite IH.
Qed.

Lemma py_split_app_sep sep p s :
  ~ In sep p -> py_split sep (p ++ sep :: s) = p :: py_split sep s.
Proof.
  induction p as [|c p IH]; intros Hin; simpl.
  - now rewrite Z.eqb_refl.
  - destruct (Z.eqb_spec c sep) as [->|Hc]; [exfalso; apply Hin; now left|].
    rewrite IH by (intros H; apply Hin; now right). reflexivity.
Qed.

Lemma py_split_no_sep sep p : ~ In sep p -> py_split sep p = [p].
Proof.
  induction p as [|c p IH]; intros Hin; simpl; [reflexivity|].
  destruct (Z.eqb_spec c sep) as [->|Hc]; [exfalso; apply Hin; now left|].
  rewrite IH by (intros H; apply Hin; now right). reflexivity.
Qed.

Lemma lstrip_app_space ws s :
  forallb py_isspace ws = true -> lstrip (ws ++ s) = lstrip s.
Proof.
  induction ws as [|c ws IH]; simpl; [reflexivity|].
  intros H. apply andb_true_iff in H as [-> H]. now apply IH.
Qed.

Lemma lstrip_nonspace c s : py_isspace c = false -> lstrip (c :: s) = c :: s.
Proof. simpl. now intros ->. Qed.

Lemma lstrip_all_space ws : forallb py_isspace ws = true -> lstrip ws = [].
Proof. intros H. rewrite <- (app_nil_r ws), lstrip_app_space; auto. Qed.

Lemma rstrip_app_space s ws :
  forallb py_isspace ws = true -> rstrip (s ++ ws) = rstrip s.
Proof.
  intros H. unfold rstrip. rewrite rev_app_distr, lstrip_app_space; [reflexivity|].
  now rewrite forallb_rev.
Qed.

Lemma rstrip_nonspace s :
  py_isspace (last s 0) = false -> rstrip s = s.
Proof.
  induction s as [|d s' _] using rev_ind; [reflexivity|].
  rewrite last_last. intros Hd. unfold rstrip.
  rewrite rev_app_distr. simpl. rewrite Hd. simpl. now rewrite rev_involutive.
Qed.

(** Splitting undoes joining pieces free of the separator. *)
Lemma py_split_join_inverse sep ps :
  ps <> [] -> Forall (fun p => ~ In sep p) ps -> py_split sep (py_join sep ps) = ps.
Proof.
  induction ps as [|p ps IH]; intros Hne Hps; [contradiction|].
  inversion Hps as [|? ? Hp Hrest]; subst.
  destruct ps as [|q qs]; simpl.
  - now apply py_split_no_sep.
  - rewrite py_split_app_sep by exact Hp. f_equal. apply IH; [discriminate|assumption].
Qed.

(** [strip] removes white-space padding and nothing else. *)
Lemma py_strip_padding ws1 s ws2 :
  forallb py_isspace ws1 = true -> forallb py_isspace ws2 = true ->
  py_isspace (hd 0 s) = false -> py_isspace (last s 0) = false ->
  py_strip (ws1 ++ s ++ ws2) = s.
Proof.
  intros H1 H2 Hhd Hlast. unfold py_strip.
  rewrite lstrip_app_space by exact H1.
  destruct s as [|c s].
  - now rewrite app_nil_l, lstrip_all_space.
  - simpl in Hhd. rewrite <- app_comm_cons, lstrip_nonspace by exact Hhd.
    rewrite app_comm_cons, rstrip_app_space by exact H2.
    now apply rstrip_nonspace.
Qed.

(** [line.split(",")] has one piece more than the line has commas
    (empty pieces count). *)
Lemma py_split_count sep s :
  length (py_split sep s) = S (count_occ Z.eq_dec s sep).
Proof.
  induction s as [|c s IH]; [reflexivity|].
  destruct (Z.eq_dec c sep) as [->|Hc].
  - simpl. rewrite Z.eqb_refl. simpl. destruct (Z.eq_dec sep sep); [|contradiction].
    now rewrite IH.
  - destruct (py_split_cons sep c s Hc) as (p & ps & E & ->).
    rewrite E in IH. simpl in *. destruct (Z.eq_dec c sep); [contradiction|].
    exact IH.
Qed.

(** ** Theorems *)

End PyText.
