(* ===== verification/PyInt.v ===== *)
(** * [int(str)]: CPython's conversion of a text to an integer

    Lines 46-49 of src/MouseTracking/python_code.py convert each field
    with [int(parts[i])] and skip the line on [ValueError].  For a [str]
    argument CPython runs [PyLong_FromUnicodeObject(s, 10)]:
    [_PyUnicode_TransformDecimalAndSpaceToASCII] maps Unicode white space
    to ' ' and Unicode decimal digits (category Nd, here Unicode 15.0 as
    in Python 3.12) to ASCII digits and stops at the first other
    non-ASCII code point with '?'; [PyLong_FromString] skips leading
    ASCII white space, reads a sign, and [long_from_string_base] accepts
    digits with single underscores between them, then only trailing
    white space; a literal with more than [max_str_digits] = 4300 digits
    is refused (Python 3.11 and later).  Every failure is a [ValueError],
    here [Err] of an [int_error].

    [str_of_Z] prints an integer as the device does ("-" and decimal
    digits); the theorems are the round trip [int(str(z)) = z] below the
    digit limit, the refusal above it, the bound on every accepted
    value, and the white space [int()] accepts around a field. *)

From Stdlib Require Import ZArith List Bool Lia.
From S2P Require Import Prelude PyText.
Import ListNotations.
Import PyText.
Local Open Scope Z_scope.
Local Open Scope mb_scope.

Module PyInt.

(** ** [_PyUnicode_TransformDecimalAndSpaceToASCII] *)

(** The zero of each run of ten decimal digits of Unicode 15.0. *)
Definition nd_zeros : list Z :=
  [0x30; 0x660; 0x6F0; 0x7C0; 0x966; 0x9E6; 0xA66; 0xAE6; 0xB66; 0xBE6;
   0xC66; 0xCE6; 0xD66; 0xDE6; 0xE50; 0xED0; 0xF20; 0x1040; 0x1090; 0x17E0;
   0x1810; 0x1946; 0x19D0; 0x1A80; 0x1A90; 0x1B50; 0x1BB0; 0x1C40; 0x1C50; 0xA620;
   0xA8D0; 0xA900; 0xA9D0; 0xA9F0; 0xAA50; 0xABF0; 0xFF10; 0x104A0; 0x10D30; 0x11066;
   0x110F0; 0x11136; 0x111D0; 0x112F0; 0x11450; 0x114D0; 0x11650; 0x116C0; 0x11730; 0x118E0;
   0x11950; 0x11C50; 0x11D50; 0x11DA0; 0x11F50; 0x16A60; 0x16AC0; 0x16B50; 0x1D7CE; 0x1D7D8;
   0x1D7E2; 0x1D7EC; 0x1D7F6; 0x1E140; 0x1E2F0; 0x1E4F0; 0x1E950; 0x1FBF0].

(** [Py_UNICODE_TODECIMAL]: the digit value of a decimal digit. *)
Fixpoint to_decimal_in (zeros : list Z) (c : Z) : option Z :=
  match zeros with
  | [] => None
  | z :: zs => if (z <=? c) && (c <? z + 10) then Some (c - z) else to_decimal_in zs c
  end.

Definition to_decimal (c : Z) : option Z := to_decimal_in nd_zeros c.

Fixpoint transform_loop (s : text) : text :=
  match s with
  | [] => []
  | c :: s' =>
      if c <? 127 then c :: transform_loop s'
      else if py_isspace c then 32 :: transform_loop s'
      else match to_decimal c with
           | Some d => (48 + d) :: transform_loop s'
           | None => [63]
           end
  end.

Definition is_ascii (s : text) : bool := forallb (fun c => c <? 128) s.

Definition transform_decimal_and_space (s : text) : text :=
  if is_ascii s then s else transform_loop s.

(** ** [PyLong_FromString] in base 10 *)

(** [Py_ISSPACE] on a [char]: ' ', \t, \n, \v, \f, \r. *)
Definition c_isspace (c : Z) : bool := (c =? 32) || ((9 <=? c) && (c <=? 13)).

(** [_PyLong_DigitValue[c] < 10]. *)
Definition c_isdigit (c : Z) : bool := (48 <=? c) && (c <=? 57).

Fixpoint skip_space (s : text) : text :=
  match s with
  | c :: s' => if c_isspace c then skip_space s' else s
  | [] => []
  end.

(** A leading '+' is skipped; a leading '-' is skipped and negates. *)
Definition take_sign (s : text) : Z * text :=
  match s with
  | c :: s' => if c =? 43 then (1, s') else if c =? 45 then (-1, s') else (1, s)
  | [] => (1, s)
  end.

(** The validation loop of [long_from_string_base]: digits and
    underscores, the value of the digits read so far, their count, and
    whether the last character was '_'; [None] on a double underscore. *)
Fixpoint scan (s : text) (prev_us : bool) (acc nd : Z) : option (Z * Z * bool * text) :=
  match s with
  | [] => Some (acc, nd, prev_us, [])
  | c :: s' =>
      if c_isdigit c then scan s' false (acc * 10 + (c - 48)) (nd + 1)
      else if c =? 95 then (if prev_us then None else scan s' true acc nd)
      else Some (acc, nd, prev_us, s)
  end.

Inductive int_error : Type :=
| InvalidLiteral
| ExceedsDigitLimit (digits : Z).

Definition PY_LONG_MAX_STR_DIGITS_THRESHOLD : Z := 640.
Definition max_str_digits : Z := 4300.

Definition long_from_string_base (s : text) : result Z int_error :=
  if hd 0 s =? 95 then Err InvalidLiteral
  else
    match scan s false 0 0 with
    | None => Err InvalidLiteral
    | Some (v, nd, last_us, rest) =>
        if last_us then Err InvalidLiteral
        else if Nat.eqb (length rest) (length s) then Err InvalidLiteral
        else if negb (forallb c_isspace rest) then Err InvalidLiteral
        else if (PY_LONG_MAX_STR_DIGITS_THRESHOLD <? nd) && (0 <? max_str_digits)
                && (max_str_digits <? nd)
        then Err (ExceedsDigitLimit nd)
        else Ok v
    end.

Definition PyLong_FromString (s : text) : result Z int_error :=
  let '(sign, s') := take_sign (skip_space s) in
  v <- long_from_string_base s' ;; Ok (sign * v).

(** [int(s)] for a [str] [s]. *)
Definition py_int (s : text) : result Z int_error :=
  PyLong_FromString (transform_decimal_and_space s).

(** ** The device's printer of integers *)

Fixpoint digits_aux (fuel : nat) (n : Z) (acc : text) : text :=
  match fuel with
  | O => acc
  | S f =>
      let acc' := (48 + n mod 10) :: acc in
      if n <? 10 then acc' else digits_aux f (n / 10) acc'
  end.

Definition str_of_nonneg (n : Z) : text := digits_aux (S (Z.to_nat (Z.log2 n))) n [].

Definition str_of_Z (z : Z) : text :=
  if z <? 0 then 45 :: str_of_nonneg (- z) else str_of_nonneg z.

Definition horner (acc : Z) (ds : text) : Z :=
  fold_left (fun a d => a * 10 + (d - 48)) ds acc.

(** ** Lemmas *)

Lemma c_isdigit_range c : c_isdigit c = true -> 48 <= c <= 57.
Proof. unfold c_isdigit. intros H. zify_bool. lia. Qed.

Lemma digit_of_mod n : c_isdigit (48 + n mod 10) = true.
Proof.
  unfold c_isdigit. pose proof (Z.mod_pos_bound n 10 ltac:(lia)).
  apply andb_true_iff; split; apply Z.leb_le; lia.
Qed.

Lemma digits_aux_digits fuel n acc :
  forallb c_isdigit acc = true -> forallb c_isdigit (digits_aux fuel n acc) = true.
Proof.
  revert n acc; induction fuel as [|f IH]; intros n acc Hacc; simpl; [exact Hacc|].
  assert (Hd : forallb c_isdigit ((48 + n mod 10) :: acc) = true)
    by (cbn [forallb]; now rewrite digit_of_mod, Hacc).
  destruct (n <? 10); [exact Hd | now apply IH].
Qed.

Lemma digits_aux_horner fuel n acc :
  0 <= n < 10 ^ Z.of_nat fuel ->
  horner 0 (digits_aux fuel n acc) = horner n acc.
Proof.
  revert n acc; induction fuel as [|f IH]; intros n acc Hn.
  { simpl in Hn. now replace n with 0 by lia. }
  rewrite Nat2Z.inj_succ, Z.pow_succ_r in Hn by lia.
  pose proof (Z.mod_pos_bound n 10 ltac:(lia)).
  pose proof (Z.div_mod n 10 ltac:(lia)).
  cbn [digits_aux]. destruct (Z.ltb_spec n 10).
  - unfold horner; cbn [fold_left]. rewrite Z.mod_small by lia. f_equal. lia.
  - rewrite IH by (split; [apply Z.div_pos|apply Z.div_lt_upper_bound]; lia).
    unfold horner; cbn [fold_left]. f_equal. lia.
Qed.

Lemma digits_aux_length_ge fuel n acc :
  (length acc <= length (digits_aux fuel n acc))%nat.
Proof.
  revert n acc; induction fuel as [|f IH]; intros n acc; simpl; [lia|].
  destruct (n <? 10); simpl; [lia|]. specialize (IH (n / 10) ((48 + n mod 10) :: acc)).
  simpl in IH. lia.
Qed.

Lemma digits_aux_length_gt fuel n acc :
  (1 <= fuel)%nat -> (length acc < length (digits_aux fuel n acc))%nat.
Proof.
  destruct fuel as [|f]; intros Hf; [lia|]. cbn [digits_aux].
  pose proof (digits_aux_length_ge f (n / 10) ((48 + n mod 10) :: acc)).
  destruct (n <? 10); simpl in *; lia.
Qed.

Lemma digits_aux_length fuel n acc m :
  (1 <= m)%nat -> 0 <= n < 10 ^ Z.of_nat fuel ->
  ((length (digits_aux fuel n acc) <= length acc + m)%nat <-> n < 10 ^ Z.of_nat m).
Proof.
  assert (Hpow : forall k, (1 <= k)%nat -> 10 <= 10 ^ Z.of_nat k).
  { intros k Hk. replace 10 with (10 ^ 1) at 1 by reflexivity. apply Z.pow_le_mono_r; lia. }
  revert n acc m; induction fuel as [|f IH]; intros n acc m Hm Hn;
    pose proof (Hpow m Hm) as H10; [simpl in *; lia|].
  rewrite Nat2Z.inj_succ, Z.pow_succ_r in Hn by lia.
  cbn [digits_aux]. destruct (Z.ltb_spec n 10); simpl; [lia|].
  destruct m as [|[|m]]; [lia| |].
  - destruct f as [|f]; [simpl in Hn; lia|].
    pose proof (digits_aux_length_gt (S f) (n / 10) ((48 + n mod 10) :: acc)).
    simpl length in *. lia.
  - rewrite Nat2Z.inj_succ, Z.pow_succ_r by lia.
    specialize (IH (n / 10) ((48 + n mod 10) :: acc) (S m) ltac:(lia)).
    cbn [length] in IH. rewrite <- Nat.add_succ_comm.
    rewrite IH by (split; [apply Z.div_pos|apply Z.div_lt_upper_bound]; lia).
    rewrite Nat2Z.inj_succ, Z.pow_succ_r by lia.
    pose proof (Z.mod_pos_bound n 10 ltac:(lia)).
    pose proof (Z.div_mod n 10 ltac:(lia)). lia.
Qed.

Lemma str_of_nonneg_fuel n : 0 <= n -> n < 10 ^ Z.of_nat (S (Z.to_nat (Z.log2 n))).
Proof.
  intros Hn. rewrite Nat2Z.inj_succ, Z2Nat.id by apply Z.log2_nonneg.
  destruct (Z.eq_dec n 0) as [->|Hn0]; [reflexivity|].
  destruct (Z.log2_spec n) as [_ Hlt]; [lia|].
  eapply Z.lt_le_trans; [exact Hlt|].
  apply Z.pow_le_mono_l. split; [lia|]. lia.
Qed.

Lemma str_of_nonneg_shape n :
  0 <= n ->
  forallb c_isdigit (str_of_nonneg n) = true /\
  horner 0 (str_of_nonneg n) = n /\
  str_of_nonneg n <> [].
Proof.
  intros Hn. unfold str_of_nonneg. repeat split.
  - now apply digits_aux_digits.
  - rewrite digits_aux_horner by (split; [lia|apply str_of_nonneg_fuel; lia]). reflexivity.
  - intros E. pose proof (digits_aux_length_gt (S (Z.to_nat (Z.log2 n))) n [] ltac:(lia)).
    rewrite E in H. simpl in H. lia.
Qed.

Lemma str_of_nonneg_length n m :
  0 <= n -> (1 <= m)%nat ->
  ((length (str_of_nonneg n) <= m)%nat <-> n < 10 ^ Z.of_nat m).
Proof.
  intros Hn Hm. unfold str_of_nonneg.
  apply (digits_aux_length _ _ [] m Hm). split; [lia|]. now apply str_of_nonneg_fuel.
Qed.

Lemma scan_digits ds acc nd :
  forallb c_isdigit ds = true ->
  scan ds false acc nd = Some (horner acc ds, nd + Z.of_nat (length ds), false, []).
Proof.
  revert acc nd; induction ds as [|c ds IH]; intros acc nd Hds; cbn [scan forallb] in *.
  - now rewrite Z.add_0_r.
  - apply andb_true_iff in Hds as [Hc Hds]. rewrite Hc, IH by exact Hds.
    cbn [length]. rewrite Nat2Z.inj_succ.
    replace (nd + Z.succ (Z.of_nat (length ds))) with (nd + 1 + Z.of_nat (length ds)) by lia.
    reflexivity.
Qed.

Lemma long_from_string_base_digits ds :
  forallb c_isdigit ds = true -> ds <> [] ->
  long_from_string_base ds =
  if max_str_digits <? Z.of_nat (length ds)
  then Err (ExceedsDigitLimit (Z.of_nat (length ds))) else Ok (horner 0 ds).
Proof.
  intros Hds Hne. unfold long_from_string_base.
  destruct ds as [|c ds']; [contradiction|].
  pose proof (c_isdigit_range c (proj1 (proj1 (andb_true_iff _ _) Hds))).
  simpl hd. replace (c =? 95) with false by (symmetry; apply Z.eqb_neq; lia).
  rewrite scan_digits by exact Hds. rewrite Z.add_0_l.
  remember (Z.of_nat (length (c :: ds'))) as nd eqn:Hnd.
  cbn [length forallb negb Nat.eqb] in *.
  unfold max_str_digits, PY_LONG_MAX_STR_DIGITS_THRESHOLD.
  destruct (Z.ltb_spec 4300 nd); destruct (Z.ltb_spec 640 nd); simpl;
    try reflexivity; lia.
Qed.

Lemma digits_ascii ds : forallb c_isdigit ds = true -> is_ascii ds = true.
Proof.
  induction ds as [|c ds IH]; simpl; [reflexivity|].
  intros H. apply andb_true_iff in H as [Hc H].
  apply c_isdigit_range in Hc. rewrite IH by exact H.
  now replace (c <? 128) with true by (symmetry; apply Z.ltb_lt; lia).
Qed.

Lemma skip_space_take_sign_digits ds :
  forallb c_isdigit ds = true -> ds <> [] ->
  take_sign (skip_space ds) = (1, ds).
Proof.
  destruct ds as [|c ds]; intros Hds Hne; [contradiction|].
  pose proof (c_isdigit_range c (proj1 (proj1 (andb_true_iff _ _) Hds))).
  unfold skip_space, c_isspace.
  replace (c =? 32) with false by (symmetry; apply Z.eqb_neq; lia).
  replace (9 <=? c) with true by (symmetry; apply Z.leb_le; lia).
  replace (c <=? 13) with false by (symmetry; apply Z.leb_gt; lia).
  simpl. replace (c =? 43) with false by (symmetry; apply Z.eqb_neq; lia).
  now replace (c =? 45) with false by (symmetry; apply Z.eqb_neq; lia).
Qed.

Lemma scan_bound s prev acc nd v nd' us rest :
  0 <= acc < 10 ^ nd -> 0 <= nd ->
  scan s prev acc nd = Some (v, nd', us, rest) -> 0 <= v < 10 ^ nd' /\ nd <= nd'.
Proof.
  revert prev acc nd; induction s as [|c s IH]; intros prev acc nd Hacc Hnd; simpl.
  - intros [= <- <- _ _]. lia.
  - destruct (c_isdigit c) eqn:Hc.
    + apply c_isdigit_range in Hc. intros Hs.
      enough (0 <= v < 10 ^ nd' /\ nd + 1 <= nd') by lia.
      apply (IH false (acc * 10 + (c - 48)) (nd + 1)); [|lia|exact Hs].
      rewrite Z.pow_add_r, Z.pow_1_r by lia. lia.
    + destruct (c =? 95); [destruct prev; [discriminate|exact (IH true acc nd Hacc Hnd)]|].
      intros [= <- <- _ _]. lia.
Qed.

Lemma long_from_string_base_bound s v :
  long_from_string_base s = Ok v -> 0 <= v < 10 ^ max_str_digits.
Proof.
  unfold long_from_string_base. destruct (hd 0 s =? 95); [discriminate|].
  destruct (scan s false 0 0) as [[[[v' nd] us] rest]|] eqn:Hs; [|discriminate].
  destruct (scan_bound s false 0 0 v' nd us rest ltac:(simpl; lia) ltac:(lia) Hs)
    as [Hv Hnd].
  destruct us; [discriminate|].
  destruct (Nat.eqb _ _); [discriminate|]. destruct (negb _); [discriminate|].
  replace (0 <? max_str_digits) with true by reflexivity.
  destruct (Z.ltb_spec max_str_digits nd).
  - rewrite !andb_true_r. destruct (Z.ltb_spec PY_LONG_MAX_STR_DIGITS_THRESHOLD nd);
      [discriminate|]. unfold PY_LONG_MAX_STR_DIGITS_THRESHOLD, max_str_digits in *; lia.
  - rewrite andb_false_r. intros [= <-]. split; [lia|].
    eapply Z.lt_le_trans; [apply Hv|]. apply Z.pow_le_mono_r; lia.
Qed.

Lemma lt_max_str_digits z : Z.abs z < 10000 -> Z.abs z < 10 ^ max_str_digits.
Proof.
  intros H. eapply Z.lt_le_trans; [exact H|].
  change 10000 with (10 ^ 4). apply Z.pow_le_mono_r; unfold max_str_digits; lia.
Qed.

Lemma take_sign_sign s : fst (take_sign s) = 1 \/ fst (take_sign s) = -1.
Proof.
  destruct s as [|c s]; simpl; [now left|].
  destruct (c =? 43); [now left|]. destruct (c =? 45); [now right|now left].
Qed.

Lemma py_int_unsigned_digits ds :
  forallb c_isdigit ds = true -> ds <> [] ->
  py_int ds = (v <- long_from_string_base ds ;; Ok (1 * v)).
Proof.
  intros Hds Hne. unfold py_int, transform_decimal_and_space, PyLong_FromString.
  rewrite digits_ascii by exact Hds. now rewrite skip_space_take_sign_digits.
Qed.

Lemma py_int_negative_digits ds :
  forallb c_isdigit ds = true -> ds <> [] ->
  py_int (45 :: ds) = (v <- long_from_string_base ds ;; Ok (-1 * v)).
Proof.
  intros Hds Hne. unfold py_int, transform_decimal_and_space, PyLong_FromString.
  unfold is_ascii. cbn [forallb]. fold (is_ascii ds). rewrite digits_ascii by exact Hds.
  reflexivity.
Qed.

(** The digit count of a nonnegative number against a digit limit. *)
Lemma str_of_nonneg_limit_gen n m :
  0 <= n -> (1 <= m)%nat ->
  (Z.of_nat m <? Z.of_nat (length (str_of_nonneg n))) = negb (n <? 10 ^ Z.of_nat m).
Proof.
  intros Hn Hm. pose proof (str_of_nonneg_length n m Hn Hm) as Hl.
  destruct (Z.ltb_spec (Z.of_nat m) (Z.of_nat (length (str_of_nonneg n))));
  destruct (Z.ltb_spec n (10 ^ Z.of_nat m)); cbn [negb]; try reflexivity; exfalso;
    [apply Hl in H0|]; lia.
Qed.

Lemma str_of_nonneg_limit n :
  0 <= n ->
  (max_str_digits <? Z.of_nat (length (str_of_nonneg n))) = negb (n <? 10 ^ max_str_digits).
Proof. intros Hn. exact (str_of_nonneg_limit_gen n 4300 Hn ltac:(lia)). Qed.

(** A digit string of length [n] read from [acc] stays within the
    decades of [acc]. *)
Lemma horner_bound ds acc :
  forallb c_isdigit ds = true -> 0 <= acc ->
  acc * 10 ^ Z.of_nat (length ds) <= horner acc ds < (acc + 1) * 10 ^ Z.of_nat (length ds).
Proof.
  unfold horner. revert acc. induction ds as [|d ds IH]; intros acc Hds Hacc; [cbn; lia|].
  cbn [forallb] in Hds. apply andb_true_iff in Hds as [Hd Hds]. apply c_isdigit_range in Hd.
  cbn [fold_left length]. rewrite Nat2Z.inj_succ, Z.pow_succ_r by lia.
  assert (P : 0 < 10 ^ Z.of_nat (length ds)) by (apply Z.pow_pos_nonneg; lia).
  destruct (IH (acc * 10 + (d - 48)) Hds ltac:(lia)) as [Hlo Hhi]. nia.
Qed.

(** Cutting the first [k] characters off the text of [z] leaves a
    nonempty string of digits, no longer than the digits of [|z|], whose
    value is not [z]: below [0] it is nonnegative, and otherwise it has
    fewer digits than [z]. *)
Lemma str_of_Z_suffix z k :
  (0 < k < length (str_of_Z z))%nat ->
  skipn k (str_of_Z z) <> [] /\ forallb c_isdigit (skipn k (str_of_Z z)) = true /\
  (length (skipn k (str_of_Z z)) <= length (str_of_nonneg (Z.abs z)))%nat /\
  horner 0 (skipn k (str_of_Z z)) <> z.
Proof.
  intros Hk. assert (Hne : skipn k (str_of_Z z) <> [])
    by (intros E; apply (f_equal (@length Z)) in E; rewrite length_skipn in E; cbn in E; lia).
  unfold str_of_Z in *. destruct (Z.ltb_spec z 0) as [Hz|Hz].
  - destruct k as [|k]; [lia|]. cbn [skipn length] in *.
    destruct (str_of_nonneg_shape (- z) ltac:(lia)) as (Hds & _ & _).
    assert (Hq : forallb c_isdigit (skipn k (str_of_nonneg (- z))) = true)
      by (apply forallb_forall; intros c Hc; rewrite forallb_forall in Hds; apply Hds;
          exact (in_skipn _ _ _ Hc)).
    pose proof (horner_bound _ 0 Hq ltac:(lia)).
    replace (Z.abs z) with (- z) by lia. rewrite length_skipn.
    refine (conj Hne (conj Hq (conj _ _))); lia.
  - destruct (str_of_nonneg_shape z Hz) as (Hds & _ & _).
    assert (Hq : forallb c_isdigit (skipn k (str_of_nonneg z)) = true)
      by (apply forallb_forall; intros c Hc; rewrite forallb_forall in Hds; apply Hds;
          exact (in_skipn _ _ _ Hc)).
    pose proof (horner_bound _ 0 Hq ltac:(lia)) as [_ Hv].
    set (len := length (str_of_nonneg z)) in *.
    assert (Hge : 10 ^ Z.of_nat (len - 1) <= z).
    { destruct (Z.lt_ge_cases z (10 ^ Z.of_nat (len - 1))) as [Hlt|]; [|assumption].
      apply (str_of_nonneg_length z (len - 1) Hz ltac:(lia)) in Hlt. unfold len in Hlt. lia. }
    assert (Hp : 10 ^ Z.of_nat (length (skipn k (str_of_nonneg z))) <= 10 ^ Z.of_nat (len - 1))
      by (apply Z.pow_le_mono_r; [lia|]; rewrite length_skipn; unfold len; lia).
    replace (Z.abs z) with z by lia. rewrite length_skipn.
    refine (conj Hne (conj Hq (conj _ _))); [lia|]. lia.
Qed.

(** [int()] on the decimal text of an integer. *)
Lemma py_int_reads_str_of_Z z :
  py_int (str_of_Z z) =
  if Z.abs z <? 10 ^ max_str_digits then Ok z
  else Err (ExceedsDigitLimit (Z.of_nat (length (str_of_nonneg (Z.abs z))))).
Proof.
  pose proof (Z.abs_nonneg z) as Hn.
  destruct (str_of_nonneg_shape (Z.abs z) Hn) as (Hds & Hh & Hne).
  pose proof (str_of_nonneg_limit (Z.abs z) Hn) as Hlim.
  unfold str_of_Z. destruct (Z.ltb_spec z 0).
  - replace (- z) with (Z.abs z) by lia.
    rewrite py_int_negative_digits, long_from_string_base_digits, Hlim, Hh by assumption.
    destruct (Z.abs z <? 10 ^ max_str_digits); cbn [negb bind_result];
      [f_equal; lia|reflexivity].
  - replace z with (Z.abs z) at 1 by lia.
    rewrite py_int_unsigned_digits, long_from_string_base_digits, Hlim, Hh by assumption.
    destruct (Z.abs z <? 10 ^ max_str_digits); cbn [negb bind_result];
      [f_equal; lia|reflexivity].
Qed.

(** Leading white space is skipped by [PyLong_FromString]. *)
Lemma skip_space_app ws t :
  forallb c_isspace ws = true -> skip_space (ws ++ t) = skip_space t.
Proof.
  induction ws as [|c ws IH]; intros Hws; [reflexivity|].
  cbn [forallb] in Hws. apply andb_true_iff in Hws as [Hc Hws].
  cbn [app skip_space]. rewrite Hc. now apply IH.
Qed.

Lemma scan_digits_app ds t acc nd :
  forallb c_isdigit ds = true ->
  scan (ds ++ t) false acc nd = scan t false (horner acc ds) (nd + Z.of_nat (length ds)).
Proof.
  revert acc nd; induction ds as [|c ds IH]; intros acc nd Hds; cbn [scan forallb app] in *.
  - now rewrite Z.add_0_r.
  - apply andb_true_iff in Hds as [Hc Hds]. rewrite Hc, IH by exact Hds.
    cbn [length]. rewrite Nat2Z.inj_succ.
    now replace (nd + Z.succ (Z.of_nat (length ds))) with (nd + 1 + Z.of_nat (length ds)) by lia.
Qed.

(** The scan stops at white space, keeping it as the rest. *)
Lemma scan_space ws acc nd :
  forallb c_isspace ws = true -> scan ws false acc nd = Some (acc, nd, false, ws).
Proof.
  destruct ws as [|c ws]; intros Hws; [reflexivity|].
  cbn [forallb] in Hws. apply andb_true_iff in Hws as [Hc _].
  unfold c_isspace in Hc. cbn [scan]. unfold c_isdigit.
  replace ((48 <=? c) && (c <=? 57)) with false by (symmetry; zify_bool; lia).
  replace (c =? 95) with false by (symmetry; zify_bool; lia). reflexivity.
Qed.

Lemma space_ascii c : c_isspace c = true -> (c <? 128) = true.
Proof. unfold c_isspace. intros H. zify_bool. lia. Qed.

(** ** Theorems *)

(** C16: [int()] reads back every integer the device prints: the text of
    [z] ("-" and decimal digits) converts to [z] when it has at most 4300
    digits, and fails with the digit-limit [ValueError] otherwise, so the
    loop skips such a line. *)
Theorem py_int_str_of_Z z :
  py_int (str_of_Z z) =
  if Z.abs z <? 10 ^ max_str_digits then Ok z
  else Err (ExceedsDigitLimit (Z.of_nat (length (str_of_nonneg (Z.abs z))))).
Proof. exact (py_int_reads_str_of_Z z). Qed.

(** C17: every integer [int()] returns on a text has fewer than 4300
    decimal digits: the fields of an accepted frame are bounded. *)
Theorem py_int_bound s z :
  py_int s = Ok z -> Z.abs z < 10 ^ max_str_digits.
Proof.
  unfold py_int, PyLong_FromString.
  pose proof (take_sign_sign (skip_space (transform_decimal_and_space s))) as Hsg.
  destruct (take_sign _) as [sign s']. simpl in Hsg.
  intros H. apply bind_result_eq_ok in H as (v & Hv & [= <-]).
  apply long_from_string_base_bound in Hv.
  destruct Hsg as [-> | ->]; lia.
Qed.

Lemma py_int_bound_witness :
  py_int [32; 45; 49; 95; 48] = Ok (-10) /\ Z.abs (-10) < 10 ^ max_str_digits.
Proof.
  split; [reflexivity|]. apply (py_int_bound [32; 45; 49; 95; 48]). reflexivity.
Defined.

(** C22: [int()] is more lenient than the spec's "signed base-10
    integers" (4.1): any ASCII white space before and after the digits of
    a field is accepted and ignored, so a field such as " 12\t" converts
    to 12 and the line is not skipped. *)
Theorem py_int_padded ws1 ds ws2 :
  forallb c_isspace ws1 = true -> forallb c_isspace ws2 = true ->
  forallb c_isdigit ds = true -> ds <> [] -> Z.of_nat (length ds) <= max_str_digits ->
  py_int (ws1 ++ ds ++ ws2) = Ok (horner 0 ds).
Proof.
  intros H1 H2 Hds Hne Hlen. unfold py_int, transform_decimal_and_space, PyLong_FromString.
  replace (is_ascii (ws1 ++ ds ++ ws2)) with true.
  2: { symmetry. unfold is_ascii. apply forallb_forall. intros c Hc.
       rewrite forallb_forall in H1, H2, Hds.
       apply in_app_or in Hc as [Hc|Hc]; [now apply space_ascii, H1|].
       apply in_app_or in Hc as [Hc|Hc]; [|now apply space_ascii, H2].
       apply Hds, c_isdigit_range in Hc. apply Z.ltb_lt. lia. }
  rewrite skip_space_app by exact H1.
  destruct ds as [|c ds']; [contradiction|].
  pose proof (c_isdigit_range c (proj1 (proj1 (andb_true_iff _ _) Hds))) as Hc.
  assert (Hsk : skip_space ((c :: ds') ++ ws2) = (c :: ds') ++ ws2).
  { cbn [app skip_space]. unfold c_isspace.
    now replace ((c =? 32) || ((9 <=? c) && (c <=? 13))) with false by (symmetry; zify_bool; lia). }
  rewrite Hsk. cbn [app take_sign].
  replace (c =? 43) with false by (symmetry; apply Z.eqb_neq; lia).
  replace (c =? 45) with false by (symmetry; apply Z.eqb_neq; lia).
  unfold long_from_string_base. cbn [hd].
  replace (c =? 95) with false by (symmetry; apply Z.eqb_neq; lia).
  change (c :: ds' ++ ws2) with ((c :: ds') ++ ws2).
  rewrite scan_digits_app, scan_space by assumption.
  rewrite length_app. cbn [length negb].
  replace (Nat.eqb (length ws2) (S (length ds') + length ws2)) with false
    by (symmetry; apply Nat.eqb_neq; lia).
  rewrite H2. cbn [negb]. rewrite Z.add_0_l.
  replace (max_str_digits <? Z.of_nat (S (length ds'))) with false
    by (symmetry; apply Z.ltb_ge; exact Hlen).
  rewrite !andb_false_r. cbn [bind_result]. now rewrite Z.mul_1_l.
Qed.

Lemma py_int_padded_witness :
  forallb c_isspace [32] = true /\ forallb c_isspace [9; 32] = true /\
  forallb c_isdigit [49; 50] = true /\ [49; 50] <> [] /\
  Z.of_nat (length [49; 50]) <= max_str_digits /\
  py_int ([32] ++ [49; 50] ++ [9; 32]) = Ok 12.
Proof.
  assert (Hl : Z.of_nat (length [49; 50]) <= max_str_digits) by (unfold max_str_digits; cbn; lia).
  refine (conj eq_refl (conj eq_refl (conj eq_refl (conj _ (conj Hl _))))); [discriminate|].
  exact (py_int_padded [32] [49; 50] [9; 32] eq_refl eq_refl eq_refl ltac:(discriminate) Hl).
Defined.

End PyInt.
