(* ===== verification/Utf8.v ===== *)
(** * [bytes.decode(errors="ignore")]: UTF-8 decoding that drops errors

    Line 36 of src/MouseTracking/python_code.py decodes the bytes
    [ser.readline()] returns with [.decode(errors="ignore")] (UTF-8, the
    default codec).  CPython's decoder ([unicode_decode_utf8] with the
    [stringlib] [utf8_decode] loop) reads a lead byte, then the
    continuation bytes the lead byte allows (Table 3-7 of the Unicode
    standard: after E0 only A0-BF, after ED only 80-9F, after F0 only
    90-BF, after F4 only 80-8F); on an invalid start byte it drops that
    byte, on an invalid continuation byte it drops the lead byte and the
    valid continuation bytes before it and starts again at the offending
    byte, and a truncated sequence at the end is dropped whole.  With
    [errors="ignore"] the dropped bytes simply produce nothing.

    Bytes and code points are [Z].  [utf8_step] is one iteration of the
    loop and [utf8_decode_fuel] the loop with a fuel bound; the length
    of the input is always enough fuel ([utf8_decode_fuel_stable]).
    [utf8_encode] is the encoder of a Unicode scalar value, for the
    round trip. *)

From Stdlib Require Import ZArith List Bool Lia.
From S2P Require Import Prelude.
Import ListNotations.
Local Open Scope Z_scope.

Module Utf8.

(** What a lead byte of a multi-byte sequence contributes to the code
    point, and the ranges of the continuation bytes that must follow. *)
Definition lead_info (b : Z) : option (Z * list (Z * Z)) :=
  if (0xC2 <=? b) && (b <=? 0xDF) then Some (b - 0xC0, [(0x80, 0xBF)])
  else if b =? 0xE0 then Some (0, [(0xA0, 0xBF); (0x80, 0xBF)])
  else if b =? 0xED then Some (0xD, [(0x80, 0x9F); (0x80, 0xBF)])
  else if (0xE1 <=? b) && (b <=? 0xEF) then Some (b - 0xE0, [(0x80, 0xBF); (0x80, 0xBF)])
  else if b =? 0xF0 then Some (0, [(0x90, 0xBF); (0x80, 0xBF); (0x80, 0xBF)])
  else if b =? 0xF4 then Some (4, [(0x80, 0x8F); (0x80, 0xBF); (0x80, 0xBF)])
  else if (0xF1 <=? b) && (b <=? 0xF3) then
    Some (b - 0xF0, [(0x80, 0xBF); (0x80, 0xBF); (0x80, 0xBF)])
  else None.

(** Reads the continuation bytes; [None] with the bytes from the first
    offending one on (nothing at the end of the input) on an error. *)
Fixpoint take_cont (ranges : list (Z * Z)) (acc : Z) (bs : list Z) : option Z * list Z :=
  match ranges with
  | [] => (Some acc, bs)
  | (lo, hi) :: rs =>
      match bs with
      | [] => (None, [])
      | b :: bs' =>
          if (lo <=? b) && (b <=? hi) then take_cont rs (acc * 64 + (b - 0x80)) bs'
          else (None, bs)
      end
  end.

(** One iteration: the decoded code point, if any, and the rest. *)
Definition utf8_step (bs : list Z) : option (option Z * list Z) :=
  match bs with
  | [] => None
  | b :: bs' =>
      if b <? 0x80 then Some (Some b, bs')
      else match lead_info b with
           | None => Some (None, bs')
           | Some (p, rs) => Some (take_cont rs p bs')
           end
  end.

Fixpoint utf8_decode_fuel (fuel : nat) (bs : list Z) : list Z :=
  match fuel with
  | O => []
  | S f =>
      match utf8_step bs with
      | None => []
      | Some (Some c, rest) => c :: utf8_decode_fuel f rest
      | Some (None, rest) => utf8_decode_fuel f rest
      end
  end.

Definition utf8_decode_ignore (bs : list Z) : list Z :=
  utf8_decode_fuel (length bs) bs.

(** ** Encoding, for the round trip *)

Definition is_scalar (c : Z) : bool :=
  (0 <=? c) && (c <? 0x110000) && negb ((0xD800 <=? c) && (c <=? 0xDFFF)).

Definition utf8_encode (c : Z) : list Z :=
  if c <? 0x80 then [c]
  else if c <? 0x800 then [0xC0 + c / 64; 0x80 + c mod 64]
  else if c <? 0x10000 then
    [0xE0 + c / 4096; 0x80 + (c / 64) mod 64; 0x80 + c mod 64]
  else [0xF0 + c / 262144; 0x80 + (c / 4096) mod 64; 0x80 + (c / 64) mod 64;
        0x80 + c mod 64].

Definition utf8_encode_all (cs : list Z) : list Z := flat_map utf8_encode cs.

Definition is_byte (b : Z) : bool := (0 <=? b) && (b <? 256).

(** ** Lemmas *)

Lemma take_cont_length rs acc bs :
  (length (snd (take_cont rs acc bs)) <= length bs)%nat.
Proof.
  revert acc bs; induction rs as [|[lo hi] rs IH]; intros acc bs; simpl; [lia|].
  destruct bs as [|b bs]; simpl; [lia|].
  destruct ((lo <=? b) && (b <=? hi)); simpl; [specialize (IH (acc * 64 + (b - 128)) bs)|]; lia.
Qed.

Lemma utf8_step_length bs o rest :
  utf8_step bs = Some (o, rest) -> (length rest < length bs)%nat.
Proof.
  destruct bs as [|b bs]; simpl; [discriminate|].
  destruct (b <? 128); [intros [= _ <-]; lia|].
  destruct (lead_info b) as [[p rs]|]; [|intros [= _ <-]; lia].
  intros [= H]. pose proof (take_cont_length rs p bs) as Hl. rewrite H in Hl. simpl in Hl. lia.
Qed.

Lemma utf8_step_none bs : utf8_step bs = None -> bs = [].
Proof.
  destruct bs as [|b bs]; simpl; [reflexivity|].
  destruct (b <? 128); [discriminate|]. destruct (lead_info b) as [[p rs]|]; discriminate.
Qed.

(** Any fuel at least the length of the input gives the same text. *)
Lemma utf8_decode_fuel_stable f1 f2 bs :
  (length bs <= f1)%nat -> (length bs <= f2)%nat ->
  utf8_decode_fuel f1 bs = utf8_decode_fuel f2 bs.
Proof.
  revert f2 bs; induction f1 as [|f1 IH]; intros f2 bs H1 H2.
  - destruct bs; [|simpl in H1; lia]. destruct f2; reflexivity.
  - destruct f2 as [|f2].
    + destruct bs; [reflexivity|simpl in H2; lia].
    + simpl. destruct (utf8_step bs) as [[o rest]|] eqn:E; [|reflexivity].
      pose proof (utf8_step_length _ _ _ E).
      rewrite (IH f2 rest) by lia. reflexivity.
Qed.

Lemma utf8_decode_fuel_length f bs :
  (length (utf8_decode_fuel f bs) <= length bs)%nat.
Proof.
  revert bs; induction f as [|f IH]; intros bs; simpl; [lia|].
  destruct (utf8_step bs) as [[[c|] rest]|] eqn:E; simpl; try lia;
    pose proof (utf8_step_length _ _ _ E); specialize (IH rest); lia.
Qed.

Lemma utf8_decode_fuel_step f bs c rest :
  utf8_step bs = Some (Some c, rest) ->
  utf8_decode_fuel (S f) bs = c :: utf8_decode_fuel f rest.
Proof. simpl. now intros ->. Qed.

(** Bounds on the code point a lead byte and its continuation bytes give. *)
Lemma is_scalar_intro c :
  (0 <= c < 0xD800) \/ (0xDFFF < c < 0x110000) -> is_scalar c = true.
Proof.
  intros H. unfold is_scalar.
  destruct (Z.leb_spec 0 c); destruct (Z.ltb_spec c 0x110000);
  destruct (Z.leb_spec 0xD800 c); destruct (Z.leb_spec c 0xDFFF); simpl; lia.
Qed.

Lemma some_pair_inv (x v : Z) (r r' : list Z) : (Some x, r) = (Some v, r') -> v = x.
Proof. congruence. Qed.

Lemma take_cont_scalar b p rs bs v rest :
  lead_info b = Some (p, rs) -> take_cont rs p bs = (Some v, rest) -> is_scalar v = true.
Proof.
  unfold lead_info. intros Hl Ht. apply is_scalar_intro.
  zcases; try discriminate; injection Hl as <- <-;
    destruct bs as [|b1 [|b2 [|b3 bs]]]; cbn [take_cont] in Ht; try discriminate;
    zcases; try discriminate; apply some_pair_inv in Ht; subst v; lia.
Qed.

Lemma utf8_step_encode c rest :
  is_scalar c = true -> utf8_step (utf8_encode c ++ rest) = Some (Some c, rest).
Proof.
  unfold is_scalar. intros Hc.
  apply andb_true_iff in Hc as [Hc Hsur]. apply andb_true_iff in Hc as [H0 H1].
  apply Z.leb_le in H0. apply Z.ltb_lt in H1. apply negb_true_iff in Hsur.
  assert (~ (0xD800 <= c <= 0xDFFF)) as Hs.
  { intros [H2 H3]. apply Z.leb_le in H2. apply Z.leb_le in H3. rewrite H2, H3 in Hsur.
    discriminate. }
  clear Hsur. unfold utf8_encode.
  pose proof (Z.mod_pos_bound c 64 ltac:(lia)).
  pose proof (Z.mod_pos_bound (c / 64) 64 ltac:(lia)).
  pose proof (Z.mod_pos_bound (c / 4096) 64 ltac:(lia)).
  pose proof (Z.div_mod c 64 ltac:(lia)).
  pose proof (Z.div_mod (c / 64) 64 ltac:(lia)).
  pose proof (Z.div_mod (c / 4096) 64 ltac:(lia)).
  assert (c / 64 / 64 = c / 4096) by (rewrite Z.div_div by lia; reflexivity).
  assert (c / 4096 / 64 = c / 262144) by (rewrite Z.div_div by lia; reflexivity).
  zgoal; unfold utf8_step, lead_info; cbn [app]; zgoal; cbn [take_cont]; zgoal;
    do 3 f_equal; lia.
Qed.

Lemma take_cont_suffix rs acc bs :
  exists pre, bs = pre ++ snd (take_cont rs acc bs).
Proof.
  revert acc bs; induction rs as [|[lo hi] rs IH]; intros acc bs; simpl.
  - now exists [].
  - destruct bs as [|b bs]; [now exists []|].
    destruct ((lo <=? b) && (b <=? hi)); [|now exists []].
    destruct (IH (acc * 64 + (b - 128)) bs) as [pre Hpre].
    exists (b :: pre). simpl. now f_equal.
Qed.

Lemma utf8_step_suffix bs o rest :
  utf8_step bs = Some (o, rest) -> exists pre, bs = pre ++ rest.
Proof.
  destruct bs as [|b bs]; simpl; [discriminate|].
  destruct (b <? 128); [intros [= _ <-]; now exists [b]|].
  destruct (lead_info b) as [[p rs]|]; [|intros [= _ <-]; now exists [b]].
  intros [= H]. destruct (take_cont_suffix rs p bs) as [pre Hpre].
  rewrite H in Hpre. simpl in Hpre. exists (b :: pre). simpl. now f_equal.
Qed.

Lemma utf8_step_scalar bs c rest :
  Forall (fun b => is_byte b = true) bs ->
  utf8_step bs = Some (Some c, rest) -> is_scalar c = true.
Proof.
  destruct bs as [|b bs]; simpl; [discriminate|]. intros Hb.
  inversion Hb as [|? ? Hb0 _]; subst. unfold is_byte in Hb0.
  destruct (Z.ltb_spec b 128) as [Hlt|Hge].
  - intros [= <- _]. apply is_scalar_intro. zify_bool. lia.
  - destruct (lead_info b) as [[p rs]|] eqn:Hl; [|discriminate].
    intros [= Ht]. eapply take_cont_scalar; eassumption.
Qed.

Lemma utf8_encode_all_ascii bs :
  Forall (fun b => 0 <= b < 128) bs -> utf8_encode_all bs = bs.
Proof.
  induction 1 as [|b bs Hb _ IH]; [reflexivity|].
  simpl. unfold utf8_encode at 1. destruct (Z.ltb_spec b 128); [|lia].
  simpl. now rewrite IH.
Qed.

(** With fuel for every byte, the decoder undoes the encoder. *)
Lemma utf8_decode_fuel_encode_all f cs :
  Forall (fun c => is_scalar c = true) cs ->
  (length (utf8_encode_all cs) <= f)%nat ->
  utf8_decode_fuel f (utf8_encode_all cs) = cs.
Proof.
  revert f. induction cs as [|c cs IH]; intros f Hcs Hf; [destruct f; reflexivity|].
  inversion Hcs as [|? ? Hc Hcs']; subst.
  simpl utf8_encode_all in *. rewrite length_app in Hf.
  assert (Hlen : (1 <= length (utf8_encode c))%nat)
    by (unfold utf8_encode; zgoal; simpl; lia).
  destruct f as [|f]; [lia|].
  rewrite (utf8_decode_fuel_step f _ c _ (utf8_step_encode c _ Hc)).
  f_equal. apply IH; [exact Hcs'|lia].
Qed.

(** Bytes below 0x80 decode to themselves: a line of ASCII text, as
    the device prints, reaches [strip] unchanged. *)
Lemma utf8_decode_ascii bs :
  Forall (fun b => 0 <= b < 128) bs -> utf8_decode_ignore bs = bs.
Proof.
  intros H. rewrite <- (utf8_encode_all_ascii bs H) at 1. unfold utf8_decode_ignore.
  apply utf8_decode_fuel_encode_all; [|lia].
  eapply Forall_impl; [|exact H]. intros b Hb. apply is_scalar_intro. cbv beta in Hb. lia.
Qed.

(** ** Theorems *)

(** C18: decoding is the inverse of encoding: the UTF-8 bytes of any
    sequence of Unicode scalar values decode to that sequence. *)
Theorem utf8_roundtrip cs :
  Forall (fun c => is_scalar c = true) cs ->
  utf8_decode_ignore (utf8_encode_all cs) = cs.
Proof.
  intros Hcs. unfold utf8_decode_ignore. apply utf8_decode_fuel_encode_all; [exact Hcs|lia].
Qed.

Lemma utf8_roundtrip_witness :
  Forall (fun c => is_scalar c = true) [0x41; 0xE9; 0x20AC; 0x1F600] /\
  utf8_decode_ignore (utf8_encode_all [0x41; 0xE9; 0x20AC; 0x1F600]) =
    [0x41; 0xE9; 0x20AC; 0x1F600].
Proof.
  assert (H : Forall (fun c => is_scalar c = true) [0x41; 0xE9; 0x20AC; 0x1F600])
    by (repeat constructor).
  split; [exact H|]. apply utf8_roundtrip. exact H.
Defined.

(** C19: whatever bytes arrive, the decoded text consists of Unicode
    scalar values (no surrogates, nothing above U+10FFFF) and is no
    longer than the input: [errors="ignore"] never makes text up. *)
Theorem utf8_decode_valid bs :
  Forall (fun b => is_byte b = true) bs ->
  Forall (fun c => is_scalar c = true) (utf8_decode_ignore bs) /\
  (length (utf8_decode_ignore bs) <= length bs)%nat.
Proof.
  intros Hbs. split; [|apply utf8_decode_fuel_length].
  unfold utf8_decode_ignore. generalize (length bs) as f.
  intros f; revert bs Hbs; induction f as [|f IH]; intros bs Hbs; simpl; [constructor|].
  destruct (utf8_step bs) as [[[c|] rest]|] eqn:E; [| |constructor];
    destruct (utf8_step_suffix _ _ _ E) as [pre Hpre];
    assert (Hrest : Forall (fun b => is_byte b = true) rest)
      by (rewrite Hpre in Hbs; apply Forall_app in Hbs; tauto).
  - constructor; [exact (utf8_step_scalar _ _ _ Hbs E)|exact (IH _ Hrest)].
  - exact (IH _ Hrest).
Qed.


Lemma utf8_decode_valid_witness :
  Forall (fun b => is_byte b = true) [0xE2; 0x82; 0x41; 0xED; 0xA0; 0x80]%Z /\
  Forall (fun c => is_scalar c = true) (utf8_decode_ignore [0xE2; 0x82; 0x41; 0xED; 0xA0; 0x80]%Z) /\
  (length (utf8_decode_ignore [0xE2; 0x82; 0x41; 0xED; 0xA0; 0x80]%Z) <= 6)%nat.
Proof.
  assert (H : Forall (fun b => is_byte b = true) [0xE2; 0x82; 0x41; 0xED; 0xA0; 0x80]%Z)
    by (repeat constructor).
  split; [exact H|]. exact (utf8_decode_valid _ H).
Defined.

End Utf8.
