(* ===== verification/Utf8Spec.v ===== *)
(** * The UTF-8 decoder against the Unicode standard

    [Utf8.utf8_decode_ignore] follows CPython's decoding loop; this file
    states what the Unicode standard prescribes (version 15, section
    3.9: the well-formed byte sequences are the encodings of the scalar
    values, and an ill-formed sequence is replaced maximal subpart by
    maximal subpart, "U+FFFD Substitution of Maximal Subparts", which
    CPython follows and [errors="ignore"] leaves out) as a relation
    [ref_decode] built on the encoder [Utf8.utf8_encode] alone, and
    proves that the decoder computes exactly it.

    [wf_prefix] says that bytes start an encoding, [maximal_subpart]
    that bytes are the maximal subpart at the start of the input, and
    [ref_decode bs out] that [out] is the standard's decoding of [bs]
    with the maximal subparts dropped.  The lemmas relate them to the
    table of lead bytes and continuation ranges of [Utf8.lead_info]:
    what a step decodes is an encoding ([utf8_step_decode]), what it
    drops is the maximal subpart ([utf8_step_skip]), which is unique. *)

From Stdlib Require Import ZArith List Bool Lia Wf_nat.
From S2P Require Import Prelude Utf8.
Import ListNotations Utf8.
Local Open Scope Z_scope.

Module Utf8Spec.

(** ** The reference: Unicode's maximal subparts *)

(** [p] starts the UTF-8 encoding of a Unicode scalar value. *)
Definition wf_prefix (p : list Z) : Prop :=
  exists c t, is_scalar c = true /\ utf8_encode c = p ++ t.

(** [p] is the maximal subpart at the start of [bs] (Unicode 15, 3.9,
    D93b and "U+FFFD Substitution of Maximal Subparts"): no character is
    encoded at the start of [bs], and [p] is the longest start of [bs]
    that starts an encoding, or the first byte when none does. *)
Definition maximal_subpart (p bs : list Z) : Prop :=
  p <> [] /\ (exists r, bs = p ++ r) /\
  (~ wf_prefix p -> length p = 1%nat) /\
  (forall q r, bs = q ++ r -> wf_prefix q -> (length q <= length p)%nat) /\
  (forall c r, is_scalar c = true -> bs <> utf8_encode c ++ r).

(** Decoding with errors ignored, as the standard describes it: a
    character where one is encoded, otherwise the maximal subpart is
    dropped. *)
Inductive ref_decode : list Z -> list Z -> Prop :=
| ref_nil : ref_decode [] []
| ref_char c rest out :
    is_scalar c = true -> ref_decode rest out -> ref_decode (utf8_encode c ++ rest) (c :: out)
| ref_skip p rest out :
    maximal_subpart p (p ++ rest) -> ref_decode rest out -> ref_decode (p ++ rest) out.

(** Continuation bytes within the first ranges of a lead byte. *)
Fixpoint fits (rs : list (Z * Z)) (xs : list Z) : bool :=
  match rs, xs with
  | _, [] => true
  | (lo, hi) :: rs', x :: xs' => (lo <=? x) && (x <=? hi) && fits rs' xs'
  | [], _ :: _ => false
  end.

(** ** Lemmas *)

Lemma div64 q r : 0 <= r < 64 -> (q * 64 + r) / 64 = q.
Proof. intros Hr. rewrite Z.div_add_l by lia. rewrite Z.div_small by lia. lia. Qed.

Lemma mod64 q r : 0 <= r < 64 -> (q * 64 + r) mod 64 = r.
Proof. intros Hr. rewrite Z.add_comm, Z.mod_add by lia. apply Z.mod_small. lia. Qed.

(** The seven classes of lead bytes of Table 3-7. *)
Lemma lead_info_cases b p rs :
  lead_info b = Some (p, rs) ->
  (0xC2 <= b <= 0xDF /\ p = b - 0xC0 /\ rs = [(0x80, 0xBF)]) \/
  (b = 0xE0 /\ p = 0 /\ rs = [(0xA0, 0xBF); (0x80, 0xBF)]) \/
  (b = 0xED /\ p = 0xD /\ rs = [(0x80, 0x9F); (0x80, 0xBF)]) \/
  (0xE1 <= b <= 0xEF /\ b <> 0xED /\ p = b - 0xE0 /\ rs = [(0x80, 0xBF); (0x80, 0xBF)]) \/
  (b = 0xF0 /\ p = 0 /\ rs = [(0x90, 0xBF); (0x80, 0xBF); (0x80, 0xBF)]) \/
  (b = 0xF4 /\ p = 4 /\ rs = [(0x80, 0x8F); (0x80, 0xBF); (0x80, 0xBF)]) \/
  (0xF1 <= b <= 0xF3 /\ p = b - 0xF0 /\ rs = [(0x80, 0xBF); (0x80, 0xBF); (0x80, 0xBF)]).
Proof.
  unfold lead_info.
  destruct (Z.leb_spec 0xC2 b), (Z.leb_spec b 0xDF); cbn [andb];
    [intros [= <- <-]; left; repeat split; try reflexivity; lia|..];
  (destruct (Z.eqb_spec b 0xE0); [intros [= <- <-]; right; left; repeat split; try reflexivity; lia|]);
  (destruct (Z.eqb_spec b 0xED); [intros [= <- <-]; do 2 right; left; repeat split; try reflexivity; lia|]);
  (destruct (Z.leb_spec 0xE1 b), (Z.leb_spec b 0xEF); cbn [andb];
     [intros [= <- <-]; do 3 right; left; repeat split; try reflexivity; lia|..]);
  (destruct (Z.eqb_spec b 0xF0); [intros [= <- <-]; do 4 right; left; repeat split; try reflexivity; lia|]);
  (destruct (Z.eqb_spec b 0xF4); [intros [= <- <-]; do 5 right; left; repeat split; try reflexivity; lia|]);
  (destruct (Z.leb_spec 0xF1 b), (Z.leb_spec b 0xF3); cbn [andb];
     [intros [= <- <-]; do 6 right; repeat split; try reflexivity; lia|..]); discriminate.
Qed.

Lemma take_cont_cons_ok lo hi rs acc bs v rest :
  take_cont ((lo, hi) :: rs) acc bs = (Some v, rest) ->
  exists x bs', bs = x :: bs' /\ lo <= x <= hi /\ take_cont rs (acc * 64 + (x - 0x80)) bs' = (Some v, rest).
Proof.
  cbn [take_cont]. destruct bs as [|x bs']; [discriminate|].
  destruct (Z.leb_spec lo x), (Z.leb_spec x hi); cbn [andb]; try discriminate.
  intros Hr. exists x, bs'. auto.
Qed.

Lemma take_cont_nil_ok acc bs v rest :
  take_cont [] acc bs = (Some v, rest) -> v = acc /\ rest = bs.
Proof. cbn [take_cont]. intros [= <- <-]. auto. Qed.

Lemma utf8_encode_2 p y :
  0x80 <= p * 64 + y < 0x800 -> 0 <= y < 64 -> utf8_encode (p * 64 + y) = [0xC0 + p; 0x80 + y].
Proof.
  intros Hc Hy. unfold utf8_encode. rewrite div64, mod64 by lia.
  destruct (Z.ltb_spec (p * 64 + y) 0x80); [lia|].
  destruct (Z.ltb_spec (p * 64 + y) 0x800); [reflexivity|lia].
Qed.

Lemma utf8_encode_3 p y1 y2 :
  0x800 <= (p * 64 + y1) * 64 + y2 < 0x10000 -> 0 <= y1 < 64 -> 0 <= y2 < 64 ->
  utf8_encode ((p * 64 + y1) * 64 + y2) = [0xE0 + p; 0x80 + y1; 0x80 + y2].
Proof.
  intros Hc Hy1 Hy2. unfold utf8_encode. change 4096 with (64 * 64).
  rewrite <- Z.div_div by lia. rewrite !div64, !mod64 by lia.
  destruct (Z.ltb_spec ((p * 64 + y1) * 64 + y2) 0x80); [lia|].
  destruct (Z.ltb_spec ((p * 64 + y1) * 64 + y2) 0x800); [lia|].
  destruct (Z.ltb_spec ((p * 64 + y1) * 64 + y2) 0x10000); [reflexivity|lia].
Qed.

Lemma utf8_encode_4 p y1 y2 y3 :
  0x10000 <= ((p * 64 + y1) * 64 + y2) * 64 + y3 -> 0 <= y1 < 64 -> 0 <= y2 < 64 -> 0 <= y3 < 64 ->
  utf8_encode (((p * 64 + y1) * 64 + y2) * 64 + y3) = [0xF0 + p; 0x80 + y1; 0x80 + y2; 0x80 + y3].
Proof.
  intros Hc Hy1 Hy2 Hy3. unfold utf8_encode.
  change 4096 with (64 * 64). change 262144 with (64 * 64 * 64).
  rewrite <- !Z.div_div by lia. rewrite !div64, !mod64 by lia.
  destruct (Z.ltb_spec (((p * 64 + y1) * 64 + y2) * 64 + y3) 0x80); [lia|].
  destruct (Z.ltb_spec (((p * 64 + y1) * 64 + y2) * 64 + y3) 0x800); [lia|].
  destruct (Z.ltb_spec (((p * 64 + y1) * 64 + y2) * 64 + y3) 0x10000); [lia|reflexivity].
Qed.

(** A step that decodes a character consumed exactly its encoding. *)
Lemma utf8_step_decode b bs c rest :
  0 <= b -> utf8_step (b :: bs) = Some (Some c, rest) -> b :: bs = utf8_encode c ++ rest.
Proof.
  cbn [utf8_step]. intros Hb0.
  destruct (Z.ltb_spec b 128) as [Hlt|Hge].
  - intros [= <- <-]. unfold utf8_encode. destruct (Z.ltb_spec b 0x80); [reflexivity|lia].
  - destruct (lead_info b) as [[p rs]|] eqn:Hl; [|discriminate]. intros [= Ht].
    apply lead_info_cases in Hl.
    destruct Hl as [(Hb1 & -> & ->)|[(-> & -> & ->)|[(-> & -> & ->)|[(Hb1 & Hne & -> & ->)|
                    [(-> & -> & ->)|[(-> & -> & ->)|(Hb1 & -> & ->)]]]]]];
      repeat (apply take_cont_cons_ok in Ht as (? & ? & -> & ? & Ht));
      apply take_cont_nil_ok in Ht as [-> ->];
      [rewrite utf8_encode_2 by lia
      |rewrite utf8_encode_3 by lia|rewrite utf8_encode_3 by lia|rewrite utf8_encode_3 by lia
      |rewrite utf8_encode_4 by lia|rewrite utf8_encode_4 by lia|rewrite utf8_encode_4 by lia];
      cbn [app]; repeat f_equal; lia.
Qed.

Lemma fits_nil rs : fits rs [] = true.
Proof. destruct rs as [|[]]; reflexivity. Qed.

Lemma wf_prefix_app p q : wf_prefix (p ++ q) -> wf_prefix p.
Proof. intros (c & t & Hc & E). exists c, (q ++ t). rewrite app_assoc. auto. Qed.

Lemma fits_app_l rs xs ys : fits rs (xs ++ ys) = true -> fits rs xs = true.
Proof.
  revert rs; induction xs as [|x xs IH]; intros [|[lo hi] rs] H; try reflexivity; [discriminate|].
  cbn [app fits] in *. apply andb_true_iff in H as [H1 H2]. now rewrite H1, (IH _ H2).
Qed.

Lemma take_cont_ok_fits rs acc bs v rest :
  take_cont rs acc bs = (Some v, rest) ->
  exists xs, bs = xs ++ rest /\ length xs = length rs /\ fits rs xs = true.
Proof.
  revert acc bs; induction rs as [|[lo hi] rs IH]; intros acc bs Ht.
  - apply take_cont_nil_ok in Ht as [_ ->]. now exists [].
  - apply take_cont_cons_ok in Ht as (x & bs' & -> & Hx & Ht).
    destruct (IH _ _ Ht) as (xs & -> & Hl & Hf). exists (x :: xs).
    split; [reflexivity|]. split; [cbn; lia|]. cbn [fits].
    rewrite Hf. destruct (Z.leb_spec lo x), (Z.leb_spec x hi); reflexivity || lia.
Qed.

Lemma take_cont_fail rs acc bs rest :
  take_cont rs acc bs = (None, rest) ->
  exists xs, bs = xs ++ rest /\ fits rs xs = true /\ (length xs < length rs)%nat /\
    (forall x r, rest = x :: r -> fits rs (xs ++ [x]) = false).
Proof.
  revert acc bs; induction rs as [|[lo hi] rs IH]; intros acc bs Ht; [discriminate|].
  cbn [take_cont] in Ht. destruct bs as [|x bs'].
  - injection Ht as <-. exists []. repeat split; cbn; try lia. intros ? ? H; discriminate.
  - destruct ((lo <=? x) && (x <=? hi)) eqn:Ex.
    + destruct (IH _ _ Ht) as (xs & -> & Hf & Hl & Hx). exists (x :: xs).
      split; [reflexivity|]. cbn [fits app length]. rewrite Ex, Hf.
      split; [reflexivity|]. split; [lia|]. intros y r Hr. rewrite (Hx y r Hr). now rewrite andb_false_r.
    + injection Ht as <-. exists []. split; [reflexivity|]. split; [reflexivity|].
      split; [cbn; lia|]. intros y r [= <- <-]. cbn [app fits]. now rewrite Ex.
Qed.

Lemma lead_info_range b p rs :
  lead_info b = Some (p, rs) ->
  0xC2 <= b <= 0xF4 /\ forallb (fun r => fst r <=? snd r) rs = true.
Proof.
  intros Hl. apply lead_info_cases in Hl.
  destruct Hl as [(Hb1 & -> & ->)|[(-> & -> & ->)|[(-> & -> & ->)|[(Hb1 & Hne & -> & ->)|
                  [(-> & -> & ->)|[(-> & -> & ->)|(Hb1 & -> & ->)]]]]]];
    (split; [lia|reflexivity]).
Qed.

Lemma take_cont_full rs acc xs r :
  fits rs xs = true -> length xs = length rs ->
  exists v, take_cont rs acc (xs ++ r) = (Some v, r).
Proof.
  revert acc xs; induction rs as [|[lo hi] rs IH]; intros acc [|x xs] Hf Hl; try discriminate.
  - now exists acc.
  - cbn [fits] in Hf. apply andb_true_iff in Hf as [Hx Hf].
    cbn [app take_cont]. rewrite Hx. apply IH; [exact Hf|cbn in Hl; lia].
Qed.

Lemma fits_pad rs xs :
  forallb (fun r => fst r <=? snd r) rs = true -> fits rs xs = true ->
  exists pad, fits rs (xs ++ pad) = true /\ length (xs ++ pad) = length rs.
Proof.
  revert xs; induction rs as [|[lo hi] rs IH]; intros xs Hr Hf.
  - destruct xs; [|discriminate]. now exists [].
  - cbn [forallb fst snd] in Hr. apply andb_true_iff in Hr as [Hlh Hr].
    destruct xs as [|x xs].
    + destruct (IH [] Hr (fits_nil rs)) as (pad & Hp & Hl).
      exists (lo :: pad). cbn [app fits length] in *. rewrite Hp, Hlh, Z.leb_refl.
      split; [reflexivity|lia].
    + cbn [fits] in Hf. apply andb_true_iff in Hf as [Hx Hf].
      destruct (IH xs Hr Hf) as (pad & Hp & Hl). exists pad.
      cbn [app fits length]. rewrite Hx, Hp. split; [reflexivity|cbn in Hl; lia].
Qed.

(** What follows a lead byte in an encoding fits its ranges, and
    whatever fits them starts an encoding. *)
Lemma wf_lead_fits b p rs conts :
  lead_info b = Some (p, rs) -> wf_prefix (b :: conts) -> fits rs conts = true.
Proof.
  intros Hl (c & t & Hc & E).
  pose proof (utf8_step_encode c [] Hc) as Hs. rewrite E in Hs. cbn [app utf8_step] in Hs.
  destruct (lead_info_range _ _ _ Hl) as [Hb _].
  replace (b <? 128) with false in Hs by (symmetry; apply Z.ltb_ge; lia).
  rewrite Hl in Hs. injection Hs as Ht.
  destruct (take_cont_ok_fits _ _ _ _ _ Ht) as (xs & Hxs & _ & Hf).
  rewrite ?app_nil_r, <- ?app_assoc in Hxs. apply (fits_app_l _ _ t). rewrite Hxs. exact Hf.
Qed.

Lemma wf_lead_intro b p rs conts :
  lead_info b = Some (p, rs) -> fits rs conts = true -> wf_prefix (b :: conts).
Proof.
  intros Hl Hf. destruct (lead_info_range _ _ _ Hl) as [Hb Hr].
  destruct (fits_pad _ _ Hr Hf) as (pad & Hp & Hlen).
  destruct (take_cont_full rs p _ [] Hp Hlen) as [v Hv].
  assert (Hs : utf8_step (b :: (conts ++ pad) ++ []) = Some (Some v, [])).
  { cbn [utf8_step]. replace (b <? 128) with false by (symmetry; apply Z.ltb_ge; lia).
    now rewrite Hl, Hv. }
  rewrite app_nil_r in Hs.
  exists v, pad. split; [|].
  - cbn [utf8_step] in Hs. replace (b <? 128) with false in Hs by (symmetry; apply Z.ltb_ge; lia).
    rewrite Hl in Hs. injection Hs as Ht. eapply take_cont_scalar; eassumption.
  - pose proof (utf8_step_decode b _ _ _ ltac:(lia) Hs) as E. rewrite app_nil_r in E.
    rewrite <- E. reflexivity.
Qed.

(** The first byte of an encoding is ASCII, then alone, or a lead byte. *)
Lemma wf_head b t :
  wf_prefix (b :: t) ->
  (0 <= b < 128 /\ t = []) \/ (128 <= b /\ exists p rs, lead_info b = Some (p, rs)).
Proof.
  intros (c & t' & Hc & E).
  pose proof (utf8_step_encode c [] Hc) as Hs. rewrite E in Hs. cbn [app utf8_step] in Hs.
  destruct (Z.ltb_spec b 128) as [Hlt|Hge].
  - injection Hs as <- Ht. left. unfold is_scalar in Hc. zify_bool.
    split; [lia|]. now destruct t.
  - right. split; [exact Hge|]. destruct (lead_info b) as [[p rs]|]; [now exists p, rs|discriminate].
Qed.

(** Where a character is encoded, the decoder's step decodes it. *)
Lemma step_none_no_char bs rest :
  utf8_step bs = Some (None, rest) -> forall c r, is_scalar c = true -> bs <> utf8_encode c ++ r.
Proof. intros Hs c r Hc E. rewrite E, utf8_step_encode in Hs by exact Hc. discriminate. Qed.

(** A step that drops bytes drops the maximal subpart. *)
Lemma utf8_step_skip b bs rest :
  0 <= b -> utf8_step (b :: bs) = Some (None, rest) ->
  exists p, b :: bs = p ++ rest /\ maximal_subpart p (b :: bs).
Proof.
  intros Hb0 Hs. pose proof (step_none_no_char _ _ Hs) as Hno. cbn [utf8_step] in Hs.
  destruct (Z.ltb_spec b 128) as [Hlt|Hge]; [discriminate|].
  destruct (lead_info b) as [[p0 rs]|] eqn:Hl.
  - injection Hs as Ht. destruct (take_cont_fail _ _ _ _ Ht) as (xs & -> & Hf & Hlen & Hx).
    exists (b :: xs). split; [reflexivity|].
    assert (Hwf : wf_prefix (b :: xs)) by (eapply wf_lead_intro; eassumption).
    refine (conj _ (conj _ (conj _ (conj _ Hno)))); [discriminate|now exists rest|intros Hn; contradiction|].
    intros q r E Hq. destruct (Nat.le_gt_cases (length q) (length (b :: xs))) as [|Hgt];
      [assumption|exfalso].
    destruct (prefix_longer q r (b :: xs) rest (eq_sym E) Hgt) as (x & u & -> & ->).
    replace ((b :: xs) ++ x :: u) with ((b :: xs ++ [x]) ++ u) in Hq
      by (cbn; now rewrite <- app_assoc).
    apply wf_prefix_app, (wf_lead_fits _ _ _ _ Hl) in Hq. now rewrite (Hx x (u ++ r) eq_refl) in Hq.
  - injection Hs as <-. exists [b]. split; [reflexivity|].
    refine (conj _ (conj _ (conj _ (conj _ Hno)))); [discriminate|now exists bs|intros; reflexivity|].
    intros [|b' q] r E Hq; cbn; [lia|]. injection E as <- _.
    destruct (wf_head b q Hq) as [[Hb _]|(_ & p & rs & Hl')]; [lia|congruence].
Qed.

(** Whether bytes start an encoding is decidable. *)
Lemma wf_prefix_dec p : wf_prefix p \/ ~ wf_prefix p.
Proof.
  destruct p as [|b t].
  - left. exists 0, [0]. split; reflexivity.
  - destruct (Z.leb_spec 0 b), (Z.ltb_spec b 128).
    + destruct t as [|x t].
      * left. exists b, []. split; [apply is_scalar_intro; lia|].
        unfold utf8_encode. destruct (Z.ltb_spec b 0x80); [reflexivity|lia].
      * right. intros Hw. apply wf_head in Hw as [[_ E]|[Hb _]]; [discriminate|lia].
    + destruct (lead_info b) as [[p0 rs]|] eqn:Hl.
      * destruct (fits rs t) eqn:Hf; [left; eapply wf_lead_intro; eassumption|].
        right. intros Hw. rewrite (wf_lead_fits _ _ _ _ Hl Hw) in Hf. discriminate.
      * right. intros Hw. apply wf_head in Hw as [[Hb _]|(_ & p & rs & Hl')]; [lia|congruence].
    + right. intros Hw. apply wf_head in Hw as [[Hb _]|[Hb _]]; lia.
    + lia.
Qed.

(** The maximal subpart at the start of bytes is unique. *)
Lemma maximal_subpart_unique p p' bs :
  maximal_subpart p bs -> maximal_subpart p' bs -> p = p'.
Proof.
  intros (Hne & [r E] & Hn & Hmax & _) (Hne' & [r' E'] & Hn' & Hmax' & _).
  apply (prefix_same_length p p' r r'); [congruence|].
  assert (Hl : (1 <= length p)%nat) by (destruct p; [contradiction|cbn; lia]).
  assert (Hl' : (1 <= length p')%nat) by (destruct p'; [contradiction|cbn; lia]).
  destruct (wf_prefix_dec p) as [Hw|Hnw]; destruct (wf_prefix_dec p') as [Hw'|Hnw'].
  - apply Nat.le_antisymm; [apply (Hmax' p r E Hw)|apply (Hmax p' r' E' Hw')].
  - specialize (Hn' Hnw'). specialize (Hmax' p r E Hw). lia.
  - specialize (Hn Hnw). specialize (Hmax p' r' E' Hw'). lia.
  - rewrite (Hn Hnw), (Hn' Hnw'). reflexivity.
Qed.

(** The decoding loop without its fuel. *)
Lemma utf8_decode_ignore_eq bs :
  utf8_decode_ignore bs =
  match utf8_step bs with
  | None => []
  | Some (Some c, r) => c :: utf8_decode_ignore r
  | Some (None, r) => utf8_decode_ignore r
  end.
Proof.
  unfold utf8_decode_ignore at 1. destruct bs as [|b bs']; [reflexivity|].
  cbn [length utf8_decode_fuel].
  destruct (utf8_step (b :: bs')) as [[[c|] r]|] eqn:E; [| |reflexivity];
    pose proof (utf8_step_length _ _ _ E) as Hl; cbn [length] in Hl;
    [f_equal|]; apply utf8_decode_fuel_stable; lia.
Qed.

Lemma bytes_suffix bs o r :
  Forall (fun b => is_byte b = true) bs -> utf8_step bs = Some (o, r) ->
  Forall (fun b => is_byte b = true) r.
Proof.
  intros Hbs E. destruct (utf8_step_suffix _ _ _ E) as [pre ->].
  apply Forall_app in Hbs. tauto.
Qed.

Lemma bytes_head b bs : Forall (fun b => is_byte b = true) (b :: bs) -> 0 <= b.
Proof. intros H. inversion H as [|? ? Hb _]. unfold is_byte in Hb. zify_bool. lia. Qed.

(** Whatever the standard's decoding gives, the decoder gives. *)
Lemma ref_decode_decoder bs out :
  Forall (fun b => is_byte b = true) bs -> ref_decode bs out -> utf8_decode_ignore bs = out.
Proof.
  intros Hbs Hr. revert Hbs. induction Hr as [|c rest out Hc Hr IH|p rest out Hm Hr IH]; intros Hbs.
  + reflexivity.
  + rewrite utf8_decode_ignore_eq, utf8_step_encode by exact Hc. f_equal.
    apply IH. apply Forall_app in Hbs. tauto.
  + assert (Hrest : Forall (fun b => is_byte b = true) rest) by (apply Forall_app in Hbs; tauto).
    rewrite utf8_decode_ignore_eq.
    destruct p as [|b p']; [destruct Hm; contradiction|].
    pose proof (bytes_head _ _ Hbs) as Hb0. cbn [app] in *.
    destruct (utf8_step (b :: p' ++ rest)) as [[[c|] r]|] eqn:E.
    * exfalso. destruct Hm as (_ & _ & _ & _ & Hno).
      apply (Hno c r); [exact (utf8_step_scalar _ _ _ Hbs E)|].
      now apply utf8_step_decode.
    * destruct (utf8_step_skip b _ r Hb0 E) as (p2 & E2 & Hm2).
      rewrite <- (maximal_subpart_unique _ _ _ Hm Hm2) in E2. cbn [app] in E2.
      injection E2 as E2. apply app_inv_head in E2. subst r. exact (IH Hrest).
    * discriminate (utf8_step_none _ E).
Qed.

(** What the decoder gives is the standard's decoding. *)
Lemma decoder_ref_decode bs :
  Forall (fun b => is_byte b = true) bs -> ref_decode bs (utf8_decode_ignore bs).
Proof.
  intros Hbs. revert Hbs.
  induction bs as [bs IH] using (well_founded_induction (well_founded_ltof _ (@length Z))).
  intros Hbs. rewrite utf8_decode_ignore_eq.
  destruct (utf8_step bs) as [[[c|] r]|] eqn:E.
  + destruct bs as [|b bs']; [discriminate|].
    pose proof (utf8_step_decode b bs' c r (bytes_head _ _ Hbs) E) as Ebs.
    pose proof (utf8_step_length _ _ _ E) as Hl.
    rewrite Ebs. apply ref_char; [exact (utf8_step_scalar _ _ _ Hbs E)|].
    apply IH; [exact Hl|exact (bytes_suffix _ _ _ Hbs E)].
  + destruct bs as [|b bs']; [discriminate|].
    destruct (utf8_step_skip b bs' r (bytes_head _ _ Hbs) E) as (p & Ebs & Hm).
    pose proof (utf8_step_length _ _ _ E) as Hl.
    rewrite Ebs in *. apply ref_skip; [exact Hm|].
    apply IH; [exact Hl|exact (bytes_suffix _ _ _ Hbs E)].
  + rewrite (utf8_step_none _ E). constructor.
Qed.

(** ** Theorems *)

(** C31: the decoder of line 36 is the standard's: on any bytes, the
    text [bytes.decode(errors="ignore")] returns is the one the Unicode
    standard prescribes (3.9, maximal subparts) with the replaced parts
    left out: every encoded character is decoded, and exactly the
    maximal subparts are dropped. *)
Theorem utf8_decode_reference bs out :
  Forall (fun b => is_byte b = true) bs -> ref_decode bs out <-> utf8_decode_ignore bs = out.
Proof.
  intros Hbs. split; [now apply ref_decode_decoder|intros <-; now apply decoder_ref_decode].
Qed.

Lemma utf8_decode_reference_witness :
  Forall (fun b => is_byte b = true) [0xE2; 0x82; 0x41; 0xC3; 0xA9] /\
  ref_decode [0xE2; 0x82; 0x41; 0xC3; 0xA9] [0x41; 0xE9].
Proof.
  assert (H : Forall (fun b => is_byte b = true) [0xE2; 0x82; 0x41; 0xC3; 0xA9])
    by (repeat constructor).
  split; [exact H|].
  apply (utf8_decode_reference [0xE2; 0x82; 0x41; 0xC3; 0xA9] [0x41; 0xE9] H).
  vm_compute. reflexivity.
Defined.

End Utf8Spec.
