(* ===== verification/Decoder.v ===== *)
(** * The line decoder: lines 36-51 of python_code.py

    [decode_line] takes the bytes one [ser.readline()] returned and
    follows the loop body up to the conversion of the fields:
    [.decode(errors="ignore")] and [.strip()] (line 36), the empty-line
    [continue] (lines 37-38), [.split(",")] and the field-count
    [continue] (lines 41-43), and the four [int()] conversions whose
    [ValueError] is a [continue] (lines 45-51).  Its result is the frame
    [(dx, dy, L, R)] or the reason the loop skips the line.

    The theorems: a line printed by the device ("dx,dy,L,R\r\n") decodes
    to its four numbers; the line is accepted exactly when it splits
    into four fields that all convert; the empty-line and field-count
    skips, decided by the guard of line 42 alone; and a line cut in two
    by a read timeout inside its first field leaves a second fragment
    that is accepted as a frame with a wrong [dx]. *)

From Stdlib Require Import ZArith List Bool Lia.
From S2P Require Import Prelude PyText PyInt Utf8.
Import ListNotations.
Import PyText PyInt Utf8.
Local Open Scope Z_scope.
Local Open Scope mb_scope.

Module Decoder.

(** The four integers of a line (lines 46-49). *)
Record frame : Type := mk_frame {
  dx : Z;
  dy : Z;
  fL : Z;
  fR : Z
}.

(** Why the loop [continue]s. *)
Inductive skip_reason : Type :=
| EmptyLine
| FieldCount (n : nat)
| NotAnInt (field : nat) (e : int_error).

(** Line 36. *)
Definition read_text (raw : list Z) : text := py_strip (utf8_decode_ignore raw).

(** [int(parts[i])] inside the [try] of lines 45-51. *)
Definition int_field (i : nat) (p : text) : result Z skip_reason :=
  match py_int p with
  | Ok v => Ok v
  | Err e => Err (NotAnInt i e)
  end.

(** Lines 46-49: [int(parts[0])] to [int(parts[3])], in this order;
    pieces after the fourth are not looked at.  On fewer than four
    pieces Python raises [IndexError], which the model does not
    represent ([nth] reads an empty text there): the guard of line 42
    makes that case unreachable. *)
Definition convert_fields (parts : list text) : result frame skip_reason :=
  dx <- int_field 0 (nth 0 parts []) ;;
  dy <- int_field 1 (nth 1 parts []) ;;
  L <- int_field 2 (nth 2 parts []) ;;
  R <- int_field 3 (nth 3 parts []) ;;
  Ok (mk_frame dx dy L R).

(** Lines 36-51. *)
Definition decode_line (raw : list Z) : result frame skip_reason :=
  let line := read_text raw in
  match line with
  | [] => Err EmptyLine
  | _ =>
      let parts := py_split COMMA line in
      if negb (Nat.eqb (length parts) 4) then Err (FieldCount (length parts))
      else convert_fields parts
  end.

(** ** What the device prints *)

Definition CR : Z := 13.
Definition LF : Z := 10.

(** [Serial.println] of "dx,dy,L,R": ASCII text and "\r\n". *)
Definition render_frame (f : frame) : list Z :=
  py_join COMMA [str_of_Z (dx f); str_of_Z (dy f); str_of_Z (fL f); str_of_Z (fR f)]
  ++ [CR; LF].

Definition frame_in_limit (f : frame) : Prop :=
  Z.abs (dx f) < 10 ^ max_str_digits /\ Z.abs (dy f) < 10 ^ max_str_digits /\
  Z.abs (fL f) < 10 ^ max_str_digits /\ Z.abs (fR f) < 10 ^ max_str_digits.

(** ** Lemmas *)

Lemma str_of_Z_char z c : In c (str_of_Z z) -> c = 45 \/ 48 <= c <= 57.
Proof.
  assert (Hd : forall n, 0 <= n -> In c (str_of_nonneg n) -> 48 <= c <= 57).
  { intros n Hn Hin. destruct (str_of_nonneg_shape n Hn) as (Hds & _ & _).
    apply c_isdigit_range. rewrite forallb_forall in Hds. now apply Hds. }
  unfold str_of_Z. destruct (Z.ltb_spec z 0).
  - intros [<-|Hin]; [now left|right; apply (Hd (- z)); [lia|exact Hin]].
  - intros Hin. right. now apply (Hd z).
Qed.

Lemma str_of_Z_shape z :
  str_of_Z z <> [] /\ 48 <= last (str_of_Z z) 0 <= 57.
Proof.
  assert (Hn : forall n, 0 <= n ->
             str_of_nonneg n <> [] /\ 48 <= last (str_of_nonneg n) 0 <= 57).
  { intros n Hn. destruct (str_of_nonneg_shape n Hn) as (Hds & _ & Hne).
    split; [exact Hne|]. apply c_isdigit_range. rewrite forallb_forall in Hds.
    apply Hds. now apply last_in. }
  unfold str_of_Z. destruct (Z.ltb_spec z 0).
  - destruct (Hn (- z) ltac:(lia)) as [Hne Hl]. split; [discriminate|].
    destruct (str_of_nonneg (- z)); [contradiction|exact Hl].
  - apply Hn. lia.
Qed.

Lemma py_join_in sep ps c :
  In c (py_join sep ps) -> c = sep \/ exists p, In p ps /\ In c p.
Proof.
  induction ps as [|p ps IH]; simpl; [tauto|].
  destruct ps as [|q qs].
  - intros Hin. right. exists p. auto.
  - intros Hin. apply in_app_or in Hin as [Hin|[<-|Hin]]; [right; exists p; auto|now left|].
    destruct (IH Hin) as [->|(p' & Hp' & Hc)]; [now left|right; exists p'; auto].
Qed.

Lemma not_space_char c : c = 44 \/ c = 45 \/ 48 <= c <= 57 -> py_isspace c = false.
Proof.
  intros Hc. apply not_true_iff_false. unfold py_isspace. intros H.
  repeat (apply orb_true_iff in H as [H|H]); zify_bool; lia.
Qed.

Lemma int_field_ok i p v : int_field i p = Ok v <-> py_int p = Ok v.
Proof.
  unfold int_field. destruct (py_int p); split; congruence.
Qed.

Lemma convert_fields_ok p0 p1 p2 p3 f :
  convert_fields [p0; p1; p2; p3] = Ok f <->
  py_int p0 = Ok (dx f) /\ py_int p1 = Ok (dy f) /\
  py_int p2 = Ok (fL f) /\ py_int p3 = Ok (fR f).
Proof.
  unfold convert_fields, int_field. cbn [nth].
  destruct (py_int p0), (py_int p1), (py_int p2), (py_int p3);
    destruct f; simpl; split; intros H;
    repeat match goal with H : _ /\ _ |- _ => destruct H end;
    try discriminate; try congruence.
  injection H as <- <- <- <-. auto.
Qed.

(** A text of commas, minus signs and digits, followed by nothing or by
    "\r\n", is read back as itself by line 36. *)
Lemma read_text_line t ws :
  t <> [] -> (forall c, In c t -> c = 44 \/ c = 45 \/ 48 <= c <= 57) ->
  ws = [] \/ ws = [CR; LF] -> read_text (t ++ ws) = t.
Proof.
  intros Hne Ht Hws. unfold read_text. rewrite utf8_decode_ascii.
  2: { apply Forall_forall. intros c Hin. apply in_app_or in Hin as [Hin|Hin];
         [apply Ht in Hin; lia|].
       destruct Hws as [ -> | -> ]; cbn in Hin; unfold CR, LF in Hin; lia. }
  rewrite <- (app_nil_l (t ++ ws)). apply py_strip_padding.
  - reflexivity.
  - destruct Hws as [ -> | -> ]; reflexivity.
  - destruct t as [|c t]; [contradiction|]. apply not_space_char, Ht. now left.
  - apply not_space_char, Ht. now apply last_in.
Qed.

(** A line of four nonempty fields of minus signs and digits, as the
    device prints them, reaches [convert_fields] as those four fields. *)
Lemma decode_fields_line p0 p1 p2 p3 :
  Forall (fun p => p <> [] /\ forall c, In c p -> c = 45 \/ 48 <= c <= 57) [p0; p1; p2; p3] ->
  decode_line (py_join COMMA [p0; p1; p2; p3] ++ [CR; LF]) = convert_fields [p0; p1; p2; p3].
Proof.
  intros Hps. rewrite Forall_forall in Hps.
  assert (Hne : py_join COMMA [p0; p1; p2; p3] <> []).
  { destruct (Hps p0 ltac:(now left)) as [H0 _]. cbn [py_join].
    destruct p0; [contradiction|discriminate]. }
  unfold decode_line. rewrite read_text_line; [| exact Hne | | now right].
  2: { intros c Hin. destruct (py_join_in _ _ _ Hin) as [->|(p & Hp & Hc)]; [now left|].
       right. exact (proj2 (Hps p Hp) c Hc). }
  destruct (py_join COMMA [p0; p1; p2; p3]) as [|c l] eqn:E; [contradiction|].
  rewrite <- E, py_split_join_inverse; [reflexivity|discriminate|].
  apply Forall_forall. intros p Hp Hin. apply (proj2 (Hps p Hp)) in Hin. unfold COMMA in Hin. lia.
Qed.

(** A nonempty text of minus signs and digits without "\r\n" is one field. *)
Lemma decode_one_field t :
  t <> [] -> (forall c, In c t -> c = 45 \/ 48 <= c <= 57) -> decode_line t = Err (FieldCount 1).
Proof.
  intros Hne Ht.
  assert (Hr : read_text t = t).
  { rewrite <- (app_nil_r t) at 1.
    apply read_text_line; [exact Hne | intros c Hc; right; exact (Ht c Hc) | now left]. }
  unfold decode_line. rewrite Hr.
  destruct t as [|c l]; [contradiction|]. rewrite py_split_no_sep; [reflexivity|].
  intros Hin. apply Ht in Hin. unfold COMMA in Hin. lia.
Qed.

Lemma str_of_Z_field z : str_of_Z z <> [] /\ forall c, In c (str_of_Z z) -> c = 45 \/ 48 <= c <= 57.
Proof. split; [apply str_of_Z_shape|apply str_of_Z_char]. Qed.

(** Where a read timeout cuts the first field of a line the device
    prints: the two fragments the two reads return. *)
Lemma render_frame_cut f k :
  (k <= length (str_of_Z (dx f)))%nat ->
  firstn k (render_frame f) = firstn k (str_of_Z (dx f)) /\
  skipn k (render_frame f) =
    py_join COMMA [skipn k (str_of_Z (dx f)); str_of_Z (dy f); str_of_Z (fL f); str_of_Z (fR f)]
    ++ [CR; LF].
Proof.
  intros Hk. unfold render_frame. cbn [py_join]. rewrite <- app_assoc.
  rewrite firstn_app, skipn_app. replace (k - length (str_of_Z (dx f)))%nat with 0%nat by lia.
  rewrite firstn_O, skipn_O, app_nil_r. split; [reflexivity|].
  now rewrite <- app_assoc.
Qed.

(** ** Theorems *)

(** C1: every line the device prints, "dx,dy,L,R" followed by "\r\n",
    decodes to exactly its four integers when each has at most 4300
    digits (spec, testable property 1). *)
Theorem decode_render f :
  frame_in_limit f -> decode_line (render_frame f) = Ok f.
Proof.
  intros (H0 & H1 & H2 & H3). unfold render_frame.
  rewrite decode_fields_line by (repeat (constructor; [apply str_of_Z_field|]); constructor).
  apply convert_fields_ok. rewrite !py_int_reads_str_of_Z.
  repeat split; match goal with |- context [if ?b then _ else _] =>
    replace b with true by (symmetry; apply Z.ltb_lt; assumption) end; reflexivity.
Qed.

Lemma decode_render_witness :
  frame_in_limit (mk_frame (-12) 340 1 0) /\
  decode_line (render_frame (mk_frame (-12) 340 1 0)) = Ok (mk_frame (-12) 340 1 0).
Proof.
  assert (H : frame_in_limit (mk_frame (-12) 340 1 0)).
  { repeat split; apply lt_max_str_digits; simpl; lia. }
  split; [exact H|]. apply decode_render. exact H.
Defined.

(** C7: the decoder accepts a line exactly when its stripped text splits
    at commas into four fields that all convert with [int()], and the
    frame is the four converted values (spec 4.1). *)
Theorem decode_line_ok_iff raw f :
  decode_line raw = Ok f <->
  exists p0 p1 p2 p3,
    py_split COMMA (read_text raw) = [p0; p1; p2; p3] /\
    py_int p0 = Ok (dx f) /\ py_int p1 = Ok (dy f) /\
    py_int p2 = Ok (fL f) /\ py_int p3 = Ok (fR f).
Proof.
  unfold decode_line. destruct (read_text raw) as [|c l].
  - split; [discriminate|]. intros (p0 & p1 & p2 & p3 & Hs & _). discriminate.
  - destruct (py_split COMMA (c :: l)) as [|p0 [|p1 [|p2 [|p3 [|p4 ps]]]]];
      cbn [length Nat.eqb negb];
      try (split; [discriminate|intros (q0 & q1 & q2 & q3 & Hs & _); discriminate]).
    rewrite convert_fields_ok. split.
    + intros H. exists p0, p1, p2, p3. auto.
    + intros (q0 & q1 & q2 & q3 & [= <- <- <- <-] & H). exact H.
Qed.

(** C12: a nonempty line whose stripped text does not have exactly three
    commas is skipped with its field count (spec 4.1, property 2). *)
Theorem decode_line_field_count raw :
  read_text raw <> [] -> count_occ Z.eq_dec (read_text raw) COMMA <> 3%nat ->
  decode_line raw = Err (FieldCount (S (count_occ Z.eq_dec (read_text raw) COMMA))).
Proof.
  intros Hne Hc. unfold decode_line.
  rewrite <- py_split_count.
  destruct (read_text raw) as [|c l]; [contradiction|].
  rewrite py_split_count in *.
  destruct (Nat.eqb_spec (S (count_occ Z.eq_dec (c :: l) COMMA)) 4); [lia|].
  reflexivity.
Qed.

Lemma decode_line_field_count_witness :
  read_text [98; 97; 100; 44; 108; 105; 110; 101] <> [] /\
  count_occ Z.eq_dec (read_text [98; 97; 100; 44; 108; 105; 110; 101]) COMMA <> 3%nat /\
  decode_line [98; 97; 100; 44; 108; 105; 110; 101] = Err (FieldCount 2).
Proof.
  split; [vm_compute; discriminate|]. split; [vm_compute; discriminate|].
  apply (decode_line_field_count [98; 97; 100; 44; 108; 105; 110; 101]);
    vm_compute; discriminate.
Defined.

(** C13: the spec (4.1) says a line split across two reads fails as two
    bad fragments.  When a read timeout cuts a line the device prints
    inside its first field, after the field's first character, the first
    fragment is skipped as a one-field line, but the second one is
    accepted: a frame with the same [dy], [L] and [R] and a [dx] that is
    not the one the device sent ("12,3,0,0" read as "1" and "2,3,0,0"
    moves the pointer by 2). *)
Theorem split_line_fragment_accepted f k :
  frame_in_limit f -> (0 < k < length (str_of_Z (dx f)))%nat ->
  decode_line (firstn k (render_frame f)) = Err (FieldCount 1) /\
  exists v, decode_line (skipn k (render_frame f)) = Ok (mk_frame v (dy f) (fL f) (fR f)) /\
            v <> dx f.
Proof.
  intros (H0 & H1 & H2 & H3) Hk.
  destruct (render_frame_cut f k ltac:(lia)) as [E1 E2]. rewrite E1, E2.
  destruct (str_of_Z_suffix (dx f) k Hk) as (Hne & Hd & Hl & Hv).
  assert (Hqc : forall c, In c (skipn k (str_of_Z (dx f))) -> c = 45 \/ 48 <= c <= 57)
    by (intros c Hc; right; apply c_isdigit_range; rewrite forallb_forall in Hd; now apply Hd).
  split.
  - apply decode_one_field.
    + intros E. apply (f_equal (@length Z)) in E. rewrite length_firstn in E. cbn in E. lia.
    + intros c Hc. apply in_firstn in Hc. now apply str_of_Z_char in Hc.
  - exists (horner 0 (skipn k (str_of_Z (dx f)))). split; [|exact Hv].
    rewrite decode_fields_line
      by (constructor; [split; assumption|]; repeat (constructor; [apply str_of_Z_field|]); constructor).
    apply convert_fields_ok. cbn [dx dy fL fR]. split.
    + rewrite py_int_unsigned_digits, long_from_string_base_digits by assumption.
      pose proof (str_of_nonneg_limit (Z.abs (dx f)) ltac:(lia)) as L.
      replace (Z.abs (dx f) <? 10 ^ max_str_digits) with true in L
        by (symmetry; apply Z.ltb_lt; exact H0).
      cbn [negb] in L. apply Z.ltb_ge in L.
      replace (max_str_digits <? Z.of_nat (length (skipn k (str_of_Z (dx f))))) with false
        by (symmetry; apply Z.ltb_ge; lia).
      cbn [bind_result]. now rewrite Z.mul_1_l.
    + rewrite !py_int_reads_str_of_Z.
      repeat split; match goal with |- context [if ?b then _ else _] =>
        replace b with true by (symmetry; apply Z.ltb_lt; assumption) end; reflexivity.
Qed.

Lemma split_line_fragment_accepted_witness :
  frame_in_limit (mk_frame 12 3 0 0) /\ (0 < 1 < length (str_of_Z (dx (mk_frame 12 3 0 0))))%nat /\
  decode_line (firstn 1 (render_frame (mk_frame 12 3 0 0))) = Err (FieldCount 1) /\
  exists v, decode_line (skipn 1 (render_frame (mk_frame 12 3 0 0))) = Ok (mk_frame v 3 0 0) /\
            v <> 12.
Proof.
  assert (H : frame_in_limit (mk_frame 12 3 0 0))
    by (repeat split; apply lt_max_str_digits; simpl; lia).
  assert (Hk : (0 < 1 < length (str_of_Z (dx (mk_frame 12 3 0 0))))%nat) by (vm_compute; lia).
  split; [exact H|]. split; [exact Hk|].
  exact (split_line_fragment_accepted (mk_frame 12 3 0 0) 1 H Hk).
Defined.

End Decoder.
