(* ===== verification/Transport.v ===== *)
(** * The serial transport: [ser.readline()] on a byte stream

    Line 36 calls [ser.readline()] on a pyserial port opened with
    [timeout=1] (line 30).  pyserial is not part of the repository; this
    file models the transport as the spec describes it (section 6:
    [readLine() -> text | timeout]) with the semantics of [readline] on
    a port with a read timeout: it returns the bytes received up to and
    including the first newline, or the bytes received before a read
    waited a whole timeout for the next byte (possibly none: a timeout),
    or raises [KeyboardInterrupt] when the user interrupts the blocking
    read.

    The input is a finite sequence of [arrival]s: a byte ([Data]), a
    silence of at least one timeout ([Silence]), or the interrupt
    ([Interrupt]).  [readline] is one call; [read_lines] is the sequence
    of calls the loop makes, defined by well-founded recursion on the
    input with Equations, since each call consumes a part of the input
    that is not a syntactic subterm.  [device_stream] is what the
    device sends for a sequence of frames.

    Every call consumes at least one arrival ([readline_rest]), which is
    the measure of [read_lines].  The theorems: the lines are the bytes
    of the stream in order, with only the unfinished last line missing;
    the device's stream is read back as the device's lines; and a
    silence inside a line splits it into two fragments. *)

From Stdlib Require Import ZArith List Bool Lia Wf_nat.
From Equations Require Import Equations.
From S2P Require Import Prelude PyText PyInt Decoder.
Import ListNotations.
Import PyText PyInt Decoder.
Local Open Scope Z_scope.
Local Open Scope mb_scope.

Module Transport.

(** What reaches the port, in order. *)
Inductive arrival : Type :=
| Data (b : Z)
| Silence
| Interrupt.

(** The outcome of one [ser.readline()]: a line and the rest of the
    input, the [KeyboardInterrupt] raised in the read, or the end of the
    observed input. *)
Inductive read_result : Type :=
| Got (line : list Z) (rest : list arrival)
| Interrupted
| Exhausted.

(** One [readline]: bytes up to and including [b"\n"], or up to a
    read that times out. *)
Fixpoint readline (s : list arrival) : read_result :=
  match s with
  | [] => Exhausted
  | Silence :: s' => Got [] s'
  | Interrupt :: _ => Interrupted
  | Data b :: s' =>
      if b =? LF then Got [b] s'
      else match readline s' with
           | Got l r => Got (b :: l) r
           | o => o
           end
  end.

(** Why the sequence of reads stops. *)
Inductive stop : Type :=
| ByInterrupt
| EndOfInput.

Lemma readline_rest s l r : readline s = Got l r -> (length r < length s)%nat.
Proof.
  revert l; induction s as [|[b| |] s IH]; intros l; cbn [readline]; try discriminate.
  - destruct (b =? LF); [intros [= _ <-]; cbn; lia|].
    destruct (readline s) as [l' r'| |] eqn:E; try discriminate.
    intros [= _ <-]. specialize (IH l' eq_refl). cbn. lia.
  - intros [= _ <-]. cbn. lia.
Qed.

(** The successive [readline] calls on the input. *)
Equations read_lines (s : list arrival) : list (list Z) * stop
  by wf (length s) lt :=
  read_lines s with inspect (readline s) := {
    | exist _ (Got l r) E => let p := read_lines r in (l :: fst p, snd p);
    | exist _ Interrupted _ => ([], ByInterrupt);
    | exist _ Exhausted _ => ([], EndOfInput) }.
Next Obligation. eapply readline_rest; eassumption. Qed.

(** The bytes of the input, without its silences and interrupts. *)
Definition data_of (s : list arrival) : list Z :=
  flat_map (fun a => match a with Data b => [b] | _ => [] end) s.

(** What the device sends for a sequence of frames. *)
Definition device_stream (fs : list frame) : list arrival :=
  flat_map (fun f => map Data (render_frame f)) fs.


(** The input up to the first interrupt: what the loop can read. *)
Fixpoint upto_interrupt (s : list arrival) : list arrival :=
  match s with
  | [] => []
  | Interrupt :: _ => []
  | a :: s' => a :: upto_interrupt s'
  end.

(** ** Lemmas *)

(** The defining equation of [read_lines], without the [inspect]. *)
Lemma read_lines_eq s :
  read_lines s = match readline s with
                 | Got l r => (l :: fst (read_lines r), snd (read_lines r))
                 | Interrupted => ([], ByInterrupt)
                 | Exhausted => ([], EndOfInput)
                 end.
Proof.
  rewrite read_lines_equation_1.
  destruct (inspect (readline s)) as [x Ex]. cbn. destruct x; rewrite Ex; reflexivity.
Qed.

Lemma read_lines_got s l r :
  readline s = Got l r -> read_lines s = (l :: fst (read_lines r), snd (read_lines r)).
Proof. intros E. now rewrite read_lines_eq, E. Qed.

(** A stretch of bytes without a newline is part of the line being read. *)
Lemma readline_app_nolf p s :
  ~ In LF p ->
  readline (map Data p ++ s) =
  match readline s with Got l r => Got (p ++ l) r | o => o end.
Proof.
  induction p as [|b p IH]; intros Hp; cbn [map app readline].
  - now destruct (readline s).
  - replace (b =? LF) with false
      by (symmetry; apply Z.eqb_neq; intros ->; apply Hp; now left).
    rewrite IH by (intros H; apply Hp; now right).
    now destruct (readline s).
Qed.

Lemma readline_line p s :
  ~ In LF p -> readline (map Data (p ++ [LF]) ++ s) = Got (p ++ [LF]) s.
Proof.
  intros Hp. rewrite map_app, <- app_assoc, readline_app_nolf by exact Hp.
  reflexivity.
Qed.

(** What the device prints is one line: no newline before the last byte. *)
Lemma render_frame_line f :
  exists p, render_frame f = p ++ [LF] /\ ~ In LF p.
Proof.
  exists (py_join COMMA [str_of_Z (dx f); str_of_Z (dy f); str_of_Z (fL f); str_of_Z (fR f)]
          ++ [CR]).
  split; [unfold render_frame; now rewrite <- app_assoc|].
  intros Hin. apply in_app_or in Hin as [Hin|[Hc|[]]]; [|discriminate].
  destruct (py_join_in _ _ _ Hin) as [Hc|(p & Hp & Hc)]; [discriminate|].
  simpl in Hp. unfold LF in Hc.
  destruct Hp as [<-|[<-|[<-|[<-|[]]]]]; apply str_of_Z_char in Hc; lia.
Qed.

Lemma readline_render f s :
  readline (map Data (render_frame f) ++ s) = Got (render_frame f) s.
Proof.
  destruct (render_frame_line f) as (p & -> & Hp). now apply readline_line.
Qed.

Lemma read_lines_render f s :
  read_lines (map Data (render_frame f) ++ s) =
  (render_frame f :: fst (read_lines s), snd (read_lines s)).
Proof. apply read_lines_got, readline_render. Qed.

(** One [readline] on a prefix of the input without interrupt. *)
Lemma readline_data s l r :
  readline s = Got l r ->
  exists pre, s = pre ++ r /\ data_of (upto_interrupt s) = l ++ data_of (upto_interrupt r) /\
              (~ In LF l \/ exists l', l = l' ++ [LF] /\ ~ In LF l').
Proof.
  revert l; induction s as [|[b| |] s IH]; intros l; cbn [readline]; try discriminate.
  - destruct (Z.eqb_spec b LF) as [->|Hb].
    + intros [= <- <-]. exists [Data LF]. split; [reflexivity|]. split; [reflexivity|].
      right. exists []. split; [reflexivity|intros []].
    + destruct (readline s) as [l' r'| |] eqn:E; try discriminate. intros [= <- <-].
      destruct (IH l' eq_refl) as (pre & -> & Hd & Hl).
      exists (Data b :: pre). split; [reflexivity|].
      split; [cbn [upto_interrupt data_of flat_map app]; fold (data_of (upto_interrupt (pre ++ r')));
              rewrite Hd; reflexivity|].
      destruct Hl as [Hl|(l'' & -> & Hl)].
      * left. intros [Hc|Hc]; [congruence|contradiction].
      * right. exists (b :: l''). split; [reflexivity|]. intros [Hc|Hc]; [congruence|contradiction].
  - intros [= <- <-]. exists [Silence]. split; [reflexivity|]. split; [reflexivity|].
    left. intros [].
Qed.


(** Induction along the successive reads. *)
Lemma reads_ind (P : list arrival -> Prop) :
  (forall s, (forall l r, readline s = Got l r -> P r) -> P s) -> forall s, P s.
Proof.
  intros H s. induction s as [s IH] using
    (well_founded_induction (well_founded_ltof _ (@length _))).
  apply H. intros l r E. apply IH. unfold ltof. eapply readline_rest; exact E.
Qed.

(** A read that does not return a line has seen no newline. *)
Lemma readline_no_line s :
  match readline s with Got _ _ => True | _ => ~ In LF (data_of (upto_interrupt s)) end.
Proof.
  induction s as [|[b| |] s IH]; cbn [readline upto_interrupt data_of flat_map app];
    [intros []| |exact I|intros []].
  destruct (Z.eqb_spec b LF) as [->|Hb]; [exact I|].
  destruct (readline s); [exact I| |]; intros [Hc|Hc]; auto.
Qed.

(** ** Theorems *)

(** C23: no byte is lost, duplicated or reordered by the reads: the
    lines returned, put end to end, are the bytes received before the
    interrupt, except for an unfinished last line (no newline in it). *)
Theorem read_lines_data s :
  exists t, data_of (upto_interrupt s) = List.concat (fst (read_lines s)) ++ t /\ ~ In LF t.
Proof.
  induction s as [s IH] using reads_ind. rewrite read_lines_eq.
  pose proof (readline_no_line s) as Hno.
  destruct (readline s) as [l r| |] eqn:E; cbn [fst List.concat app];
    [|exists (data_of (upto_interrupt s)); auto..].
  destruct (IH l r eq_refl) as (t & Ht & Hlf).
  destruct (readline_data s l r E) as (pre & _ & Hd & _).
  exists t. rewrite Hd, Ht, app_assoc. auto.
Qed.

(** C24: the device's stream, read back: without silences or
    interrupts, the reads return exactly the lines the device printed,
    one per frame, in order, and the input after them is read as if
    alone. *)
Theorem read_lines_device fs s :
  read_lines (device_stream fs ++ s) =
  (map render_frame fs ++ fst (read_lines s), snd (read_lines s)).
Proof.
  induction fs as [|f fs IH];
    [cbn [device_stream flat_map map app]; now destruct (read_lines s)|].
  cbn [device_stream flat_map map]. fold (device_stream fs).
  rewrite <- app_assoc, read_lines_render, IH. reflexivity.
Qed.

(** C25: a silence of one timeout inside a line (the device stalls, or
    the cable is touched) makes [readline] return the line in two
    fragments, which the loop then decodes separately (spec 4.1 assumes
    both fragments fail to decode; see [Decoder]). *)
Theorem read_lines_split f k s :
  (k < length (render_frame f))%nat ->
  read_lines (map Data (firstn k (render_frame f)) ++ Silence ::
              map Data (skipn k (render_frame f)) ++ s) =
  (firstn k (render_frame f) :: skipn k (render_frame f) :: fst (read_lines s),
   snd (read_lines s)).
Proof.
  intros Hk. destruct (render_frame_line f) as (p & Ep & Hp). rewrite Ep in *.
  rewrite length_app in Hk. cbn [length] in Hk.
  rewrite firstn_app, skipn_app.
  replace (k - length p)%nat with 0%nat by lia. rewrite firstn_O, skipn_O, app_nil_r.
  assert (Hf : ~ In LF (firstn k p)) by (intros H; apply Hp; eapply in_firstn; exact H).
  assert (Hs : ~ In LF (skipn k p)) by (intros H; apply Hp; eapply in_skipn; exact H).
  rewrite (read_lines_got _ (firstn k p) (map Data (skipn k p ++ [LF]) ++ s)).
  2: { rewrite readline_app_nolf by exact Hf. cbn [readline]. now rewrite app_nil_r. }
  rewrite read_lines_got with (l := skipn k p ++ [LF]) (r := s) by (now apply readline_line).
  reflexivity.
Qed.


Lemma read_lines_split_witness :
  (1 < length (render_frame (mk_frame 12 3 0 0)))%nat /\
  read_lines (map Data (firstn 1 (render_frame (mk_frame 12 3 0 0))) ++ Silence ::
              map Data (skipn 1 (render_frame (mk_frame 12 3 0 0))) ++ [Interrupt]) =
  (firstn 1 (render_frame (mk_frame 12 3 0 0)) :: skipn 1 (render_frame (mk_frame 12 3 0 0)) ::
     fst (read_lines [Interrupt]), snd (read_lines [Interrupt])).
Proof.
  assert (H : (1 < length (render_frame (mk_frame 12 3 0 0)))%nat) by (apply Nat.ltb_lt; vm_compute; reflexivity).
  split; [exact H|]. exact (read_lines_split (mk_frame 12 3 0 0) 1 [Interrupt] H).
Defined.

End Transport.
