(* ===== verification/PyFloat.v ===== *)
(** * Python floats: what [int(dx * SCALE)] computes

    Line 55 of src/MouseTracking/python_code.py computes
    [int(dx * SCALE)] with the Python int [dx] and the float
    [SCALE = 1.0] (line 18).  CPython evaluates [dx * SCALE] by
    [float.__rmul__]: it converts [dx] to a double with
    [PyLong_AsDouble] (correctly rounded, to nearest, ties to even;
    [OverflowError] when the rounded value does not fit), multiplies the
    two doubles in IEEE binary64, and [int()] of the product truncates
    toward zero ([float.__trunc__]; [OverflowError] on an infinity,
    [ValueError] on a NaN).

    Doubles are the Standard Library's [SpecFloat.spec_float] at
    precision 53 and maximal exponent 1024, whose [binary_normalize] and
    [SFmul] round to nearest, ties to even.  The lemmas describe the
    rounding shift [iter_pos shr_1] on integers and what
    [binary_normalize] does with an integer: exact below [2^53]
    ([binary_round_small]), rounded to nearest, ties to even, below
    [2^1024 - 2^970] ([binary_round_mid]), infinite from there on
    ([binary_round_top], [binary_round_big]); the theorems of [Motion]
    use them. *)

From Stdlib Require Import ZArith List Bool Lia.
From Stdlib Require Import Floats.SpecFloat.
From S2P Require Import Prelude.
Import ListNotations.
Local Open Scope Z_scope.
Local Open Scope mb_scope.

Module PyFloat.

Definition prec : Z := 53.
Definition emax : Z := 1024.

(** The Python exceptions of this part of the loop. *)
Inductive py_error : Type :=
| OverflowError
| ValueError.

(** [PyLong_AsDouble]. *)
Definition float_of_int (n : Z) : result spec_float py_error :=
  match binary_normalize prec emax n 0 false with
  | S754_infinity _ => Err OverflowError
  | f => Ok f
  end.

(** [float * float]. *)
Definition float_mul (a b : spec_float) : spec_float := SFmul prec emax a b.

(** [int * float] ([float.__rmul__]). *)
Definition int_mul_float (n : Z) (b : spec_float) : result spec_float py_error :=
  a <- float_of_int n ;; Ok (float_mul a b).

(** Truncation of [m * 2^e] toward zero. *)
Definition trunc_finite (s : bool) (m : positive) (e : Z) : Z :=
  let v := if 0 <=? e then Z.pos m * 2 ^ e else Z.pos m / 2 ^ (- e) in
  if s then - v else v.

(** [int(float)]. *)
Definition int_of_float (f : spec_float) : result Z py_error :=
  match f with
  | S754_zero _ => Ok 0
  | S754_infinity _ => Err OverflowError
  | S754_nan => Err ValueError
  | S754_finite s m e => Ok (trunc_finite s m e)
  end.

(** [SCALE = 1.0] (line 18). *)
Definition SCALE : spec_float := SFone prec emax.

(** The double [2.0 ** k] for [-1022 <= k <= 1023]: a scale the
    configuration may set instead of [SCALE] (spec 6: "scale factor
    (float, default 1.0)"); [pow2_scale 0] is [SCALE]. *)
Definition pow2_scale (k : Z) : spec_float := S754_finite false 4503599627370496 (k - 52).

(** ** The rounding shift on nonnegative mantissas *)

Lemma iter_pos_iter {A} (f : A -> A) p x : iter_pos f p x = Pos.iter f x p.
Proof.
  revert x; induction p as [p IH|p IH|]; intros x; simpl; [| |reflexivity].
  - rewrite !IH, !Pos.iter_swap. reflexivity.
  - now rewrite !IH.
Qed.

Lemma shr_1_m r : 0 <= shr_m r -> shr_m (shr_1 r) = shr_m r / 2.
Proof.
  destruct r as [[|[p|p|]|p] rb sb]; simpl; intros H; try lia; try reflexivity.
  - rewrite Pos2Z.inj_xI. rewrite Z.add_comm, Z.mul_comm, Z.div_add by lia. reflexivity.
  - rewrite Pos2Z.inj_xO. rewrite Z.mul_comm, Z.div_mul by lia. reflexivity.
Qed.

Lemma shr_1_m_nonneg r : 0 <= shr_m r -> 0 <= shr_m (shr_1 r).
Proof. intros H. rewrite shr_1_m by exact H. apply Z.div_pos; lia. Qed.

(** [p] shifts divide the mantissa by [2^p]. *)
Lemma iter_shr_m p r :
  0 <= shr_m r -> shr_m (iter_pos shr_1 p r) = shr_m r / 2 ^ Z.pos p.
Proof.
  rewrite iter_pos_iter. intros H.
  induction p as [|p IH] using Pos.peano_ind.
  - simpl. now rewrite shr_1_m.
  - rewrite Pos.iter_succ, shr_1_m.
    + rewrite IH, Pos2Z.inj_succ, Z.pow_succ_r, Z.div_div by lia. f_equal. lia.
    + clear IH. induction p as [|p IHp] using Pos.peano_ind; simpl;
        [now apply shr_1_m_nonneg|rewrite Pos.iter_succ; now apply shr_1_m_nonneg].
Qed.

(** Shifting out only zero bits is exact. *)
Lemma iter_shr_exact p m :
  0 <= m ->
  iter_pos shr_1 p (Build_shr_record (m * 2 ^ Z.pos p) false false) =
  Build_shr_record m false false.
Proof.
  rewrite iter_pos_iter. intros Hm.
  induction p as [|p IH] using Pos.peano_ind.
  - simpl. destruct m as [|q|q]; [reflexivity| |lia].
    simpl. rewrite Pos.mul_comm. reflexivity.
  - rewrite Pos2Z.inj_succ, Z.pow_succ_r by lia.
    rewrite Pos.iter_succ_r.
    replace (shr_1 (Build_shr_record (m * (2 * 2 ^ Z.pos p)) false false))
      with (Build_shr_record (m * 2 ^ Z.pos p) false false).
    + exact IH.
    + assert (Hp : 0 < m * 2 ^ Z.pos p \/ m = 0) by (destruct (Z.eq_dec m 0); [right|left; apply Z.mul_pos_pos]; lia).
      destruct Hp as [Hp | ->]; [|reflexivity].
      replace (m * (2 * 2 ^ Z.pos p)) with (2 * (m * 2 ^ Z.pos p)) by ring.
      destruct (m * 2 ^ Z.pos p) as [|q|q]; [lia|reflexivity|lia].
Qed.

(** ** The number of bits of a mantissa *)

Lemma digits2_spec p :
  2 ^ (Z.pos (digits2_pos p) - 1) <= Z.pos p < 2 ^ Z.pos (digits2_pos p).
Proof.
  induction p as [p IH|p IH|]; [| |simpl; lia]; cbn [digits2_pos]; rewrite Pos2Z.inj_succ;
    [rewrite (Pos2Z.inj_xI p) | rewrite (Pos2Z.inj_xO p)];
    pose proof (Pos2Z.is_pos (digits2_pos p));
    assert (E1 : 2 ^ Z.pos (digits2_pos p) = 2 * 2 ^ (Z.pos (digits2_pos p) - 1))
      by (rewrite <- Z.pow_succ_r by lia; f_equal; lia);
    rewrite Z.pow_succ_r by lia;
    replace (Z.succ (Z.pos (digits2_pos p)) - 1) with (Z.pos (digits2_pos p)) by lia;
    lia.
Qed.

Lemma digits2_unique p k :
  2 ^ (k - 1) <= Z.pos p < 2 ^ k -> Z.pos (digits2_pos p) = k.
Proof.
  intros [Hlo Hhi]. pose proof (digits2_spec p) as [Dlo Dhi].
  assert (1 <= k).
  { destruct (Z.le_gt_cases 1 k); [assumption|].
    assert (2 ^ k <= 2 ^ 0) by (apply Z.pow_le_mono_r; lia). simpl in *. lia. }
  destruct (Z.lt_total (Z.pos (digits2_pos p)) k) as [Hlt|[Heq|Hgt]]; [|exact Heq|].
  - assert (2 ^ Z.pos (digits2_pos p) <= 2 ^ (k - 1)) by (apply Z.pow_le_mono_r; lia). lia.
  - assert (2 ^ k <= 2 ^ (Z.pos (digits2_pos p) - 1)) by (apply Z.pow_le_mono_r; lia). lia.
Qed.

Lemma pos_iter_xO m k : Z.pos (Pos.iter xO m k) = Z.pos m * 2 ^ Z.pos k.
Proof.
  induction k as [|k IH] using Pos.peano_ind; [simpl; lia|].
  rewrite Pos.iter_succ, Pos2Z.inj_xO, IH, Pos2Z.inj_succ, Z.pow_succ_r by lia. lia.
Qed.

(** ** Rounding without a shift *)

Definition emin : Z := -1074.

Lemma fexp_normal e : emin + prec <= e -> SpecFloat.fexp prec emax e = e - prec.
Proof. unfold SpecFloat.fexp, SpecFloat.emin, prec, emax, emin. lia. Qed.

Lemma shr_fexp_53 M E l :
  Z.pos (digits2_pos M) = prec -> emin <= E ->
  shr_fexp prec emax (Z.pos M) E l = (shr_record_of_loc (Z.pos M) l, E).
Proof.
  intros HM HE. unfold shr_fexp. cbn [Zdigits2].
  rewrite HM, fexp_normal by (unfold emin, prec in *; lia).
  now replace (prec + E - prec - E) with 0 by lia.
Qed.

(** A 53-bit mantissa at a representable exponent is kept as it is. *)
Lemma round_aux_exact s M E :
  Z.pos (digits2_pos M) = prec -> emin <= E <= emax - prec ->
  binary_round_aux prec emax s (Z.pos M) E loc_Exact = S754_finite s M E.
Proof.
  intros HM HE. unfold binary_round_aux.
  rewrite shr_fexp_53 by (auto; lia). cbn [shr_m shr_record_of_loc loc_of_shr_record
    round_nearest_even].
  rewrite shr_fexp_53 by (auto; lia). cbn [shr_m shr_record_of_loc].
  replace (E <=? emax - prec) with true by (symmetry; apply Z.leb_le; lia). reflexivity.
Qed.

Lemma SCALE_eq : SCALE = S754_finite false 4503599627370496 (-52).
Proof. reflexivity. Qed.

Lemma shr_fexp_mul52 M E :
  Z.pos (digits2_pos M) = prec -> emin <= E ->
  shr_fexp prec emax (Z.pos (M * 4503599627370496)) (E + -52) loc_Exact =
  (Build_shr_record (Z.pos M) false false, E).
Proof.
  intros HM HE. pose proof (digits2_spec M) as HMb. rewrite HM in HMb. unfold prec in *.
  assert (HD : Z.pos (digits2_pos (M * 4503599627370496)) = 105).
  { apply digits2_unique. rewrite Pos2Z.inj_mul.
    change (Z.pos 4503599627370496) with (2 ^ 52).
    replace (105 - 1) with ((53 - 1) + 52) by lia. rewrite !Z.pow_add_r by lia. lia. }
  unfold shr_fexp. cbn [Zdigits2]. rewrite HD.
  rewrite fexp_normal by (unfold emin, prec in *; lia).
  unfold prec. replace (105 + (E + -52) - 53 - (E + -52)) with 52 by lia.
  cbn [shr shr_record_of_loc]. rewrite Pos2Z.inj_mul.
  change (Z.pos 4503599627370496) with (2 ^ Z.pos 52).
  rewrite iter_shr_exact by lia. f_equal. lia.
Qed.

(** Multiplying a normal double by [2^k] adds [k] to its exponent, and
    overflows to an infinity of its sign past the largest exponent. *)
Lemma mul_pow2 s M E k :
  Z.pos (digits2_pos M) = prec -> emin <= E + k ->
  float_mul (S754_finite s M E) (pow2_scale k) =
  if E + k <=? emax - prec then S754_finite s M (E + k) else S754_infinity s.
Proof.
  intros HM HE. unfold pow2_scale, float_mul, SFmul. rewrite xorb_false_r.
  replace (E + (k - 52)) with ((E + k) + -52) by lia.
  unfold binary_round_aux. rewrite shr_fexp_mul52 by (auto; lia).
  cbn [shr_m loc_of_shr_record round_nearest_even].
  rewrite shr_fexp_53 by (auto; lia). cbn [shr_m shr_record_of_loc].
  destruct (E + k <=? emax - prec); reflexivity.
Qed.

(** [pow2_scale k] is the double [1 * 2^k], as [2.0 ** k] computes it. *)
Lemma pow2_scale_double k :
  -1022 <= k <= 1023 -> binary_normalize prec emax 1 k false = pow2_scale k.
Proof.
  intros Hk. cbn [binary_normalize]. unfold binary_round. cbn [digits2_pos].
  rewrite fexp_normal by (unfold emin, prec; lia). unfold shl_align.
  replace (1 + k - prec - k) with (-52) by (unfold prec; lia).
  change (Pos.iter xO 1%positive 52%positive) with 4503599627370496%positive.
  rewrite round_aux_exact by (try reflexivity; unfold emin, emax, prec; lia).
  unfold pow2_scale. f_equal. unfold prec. lia.
Qed.

Lemma SCALE_pow2 : SCALE = pow2_scale 0.
Proof. reflexivity. Qed.

(** Multiplying by [SCALE = 1.0] changes no normal double. *)
Lemma mul_SCALE s M E :
  Z.pos (digits2_pos M) = prec -> emin <= E <= emax - prec ->
  float_mul (S754_finite s M E) SCALE = S754_finite s M E.
Proof.
  intros HM HE. rewrite SCALE_pow2, mul_pow2 by (auto; lia). rewrite Z.add_0_r.
  replace (E <=? emax - prec) with true by (symmetry; apply Z.leb_le; lia).
  reflexivity.
Qed.

(** ** Converting an integer below [2^53] is exact *)

Lemma binary_round_small s m :
  Z.pos m < 2 ^ prec ->
  exists M E, binary_round prec emax s m 0 = S754_finite s M E /\
    Z.pos (digits2_pos M) = prec /\ 1 - prec <= E <= 0 /\ trunc_finite s M E = cond_Zopp s (Z.pos m) /\
    Z.pos M = Z.pos m * 2 ^ (- E).
Proof.
  intros Hm. pose proof (digits2_spec m) as [Dlo Dhi].
  pose proof (Pos2Z.is_pos (digits2_pos m)) as Dpos.
  remember (Z.pos (digits2_pos m)) as d eqn:Hd.
  assert (Hd53 : d <= prec).
  { destruct (Z.le_gt_cases d prec) as [|Hgt]; [assumption|].
    assert (2 ^ prec <= 2 ^ (d - 1)) by (apply Z.pow_le_mono_r; lia). lia. }
  unfold binary_round. rewrite <- Hd, Z.add_0_r.
  rewrite fexp_normal by (unfold emin, prec in *; lia).
  unfold shl_align. replace (d - prec - 0) with (d - prec) by lia.
  unfold trunc_finite, cond_Zopp.
  destruct (d - prec) as [|k|k] eqn:Ek; [| lia |].
  - exists m, 0. rewrite round_aux_exact by (unfold emin, prec, emax in *; lia).
    repeat split; [lia|unfold prec; lia|lia| |lia]. simpl. destruct s; lia.
  - exists (Pos.iter xO m k), (Z.neg k).
    assert (HM : Z.pos (Pos.iter xO m k) = Z.pos m * 2 ^ (prec - d))
      by (rewrite pos_iter_xO; f_equal; f_equal; lia).
    assert (HD : Z.pos (digits2_pos (Pos.iter xO m k)) = prec).
    { apply digits2_unique. rewrite HM.
      assert (HP : 0 < 2 ^ (prec - d)) by (apply Z.pow_pos_nonneg; lia).
      assert (E1 : 2 ^ (prec - 1) = 2 ^ (d - 1) * 2 ^ (prec - d))
        by (rewrite <- Z.pow_add_r by lia; f_equal; lia).
      assert (E2 : 2 ^ prec = 2 ^ d * 2 ^ (prec - d))
        by (rewrite <- Z.pow_add_r by lia; f_equal; lia).
      rewrite E1, E2.
      split; [apply Z.mul_le_mono_nonneg_r | apply Z.mul_lt_mono_pos_r]; lia. }
    rewrite round_aux_exact by (auto; unfold emin, prec, emax in *; lia).
    repeat split; [exact HD|unfold emin, prec in *; lia|lia| |now replace (- Z.neg k) with (prec - d) by lia].
    replace (0 <=? Z.neg k) with false by reflexivity.
    replace (- Z.neg k) with (prec - d) by lia. rewrite HM, Z.div_mul.
    + destruct s; reflexivity.
    + apply Z.pow_nonzero; lia.
Qed.

(** ** Converting an integer of [2^1024] or more overflows *)

Lemma rne_bounds mx l : mx <= round_nearest_even mx l <= mx + 1.
Proof.
  destruct l as [|[| |]]; simpl; try lia. destruct (Z.even mx); lia.
Qed.

Lemma shr_exp r e n : snd (shr r e n) = e + Z.max 0 n.
Proof. destruct n; simpl; lia. Qed.

Lemma shr_mant r e n :
  0 <= shr_m r -> shr_m (fst (shr r e n)) = shr_m r / 2 ^ Z.max 0 n.
Proof.
  intros H. destruct n as [|p|p]; simpl; try (now rewrite Z.div_1_r).
  now apply iter_shr_m.
Qed.

Lemma digits2_le p k : 0 <= k -> Z.pos p < 2 ^ k -> Z.pos (digits2_pos p) <= k.
Proof.
  intros Hk Hp. pose proof (digits2_spec p) as [Dlo _].
  destruct (Z.le_gt_cases (Z.pos (digits2_pos p)) k) as [|Hgt]; [assumption|].
  assert (2 ^ k <= 2 ^ (Z.pos (digits2_pos p) - 1)) by (apply Z.pow_le_mono_r; lia). lia.
Qed.

Lemma binary_round_big s m :
  2 ^ emax <= Z.pos m -> binary_round prec emax s m 0 = S754_infinity s.
Proof.
  intros Hm. pose proof (digits2_spec m) as [Dlo Dhi].
  remember (Z.pos (digits2_pos m)) as d eqn:Hd.
  assert (Hd1025 : emax < d).
  { destruct (Z.lt_ge_cases emax d) as [|Hle]; [assumption|].
    assert (2 ^ d <= 2 ^ emax) by (apply Z.pow_le_mono_r; lia). lia. }
  unfold emax, prec in *.
  unfold binary_round. rewrite <- Hd, Z.add_0_r.
  rewrite fexp_normal by (unfold emin, prec; lia). unfold prec.
  unfold shl_align. destruct (d - 53 - 0) as [|k|k] eqn:Ek; try lia.
  unfold binary_round_aux, shr_fexp. cbn [Zdigits2]. rewrite <- Hd, Z.add_0_r.
  rewrite fexp_normal by (unfold emin, prec; lia). unfold prec.
  replace (d - 53 - 0) with (Z.pos k) by lia.
  (* the first shift *)
  remember (shr (shr_record_of_loc (Z.pos m) loc_Exact) 0 (Z.pos k)) as r1 eqn:Hr1.
  destruct r1 as [mrs1 e1].
  assert (He1 : e1 = d - 53)
    by (pose proof (shr_exp (shr_record_of_loc (Z.pos m) loc_Exact) 0 (Z.pos k)) as H;
        rewrite <- Hr1 in H; cbn [fst snd shr_m shr_record_of_loc] in H; lia).
  assert (Hm1 : 2 ^ 52 <= shr_m mrs1 < 2 ^ 53).
  { pose proof (shr_mant (shr_record_of_loc (Z.pos m) loc_Exact) 0 (Z.pos k)) as H.
    rewrite <- Hr1 in H. cbn [fst snd shr_m shr_record_of_loc] in H. rewrite H by lia.
    replace (Z.max 0 (Z.pos k)) with (d - 53) by lia.
    assert (HP : 0 < 2 ^ (d - 53)) by (apply Z.pow_pos_nonneg; lia).
    split.
    - apply Z.div_le_lower_bound; [lia|].
      rewrite <- Z.pow_add_r by lia. replace (d - 53 + 52) with (d - 1) by lia. lia.
    - apply Z.div_lt_upper_bound; [lia|].
      rewrite <- Z.pow_add_r by lia. replace (d - 53 + 53) with d by lia. lia. }
  (* rounding *)
  pose proof (rne_bounds (shr_m mrs1) (loc_of_shr_record mrs1)) as Hm2.
  destruct (round_nearest_even (shr_m mrs1) (loc_of_shr_record mrs1)) as [|q|q] eqn:Eq;
    [lia| |lia].
  (* the second shift *)
  cbn [Zdigits2].
  assert (HD2 : Z.pos (digits2_pos q) <= 54)
    by (apply digits2_le; [lia|]; replace (2 ^ 54) with (2 * 2 ^ 53) by reflexivity; lia).
  assert (HD2' : 53 <= Z.pos (digits2_pos q)).
  { destruct (Z.le_gt_cases 53 (Z.pos (digits2_pos q))) as [|Hlt]; [assumption|].
    pose proof (digits2_spec q) as [_ Hq].
    assert (2 ^ Z.pos (digits2_pos q) <= 2 ^ 52) by (apply Z.pow_le_mono_r; lia). lia. }
  rewrite fexp_normal by (unfold emin, prec; lia). unfold prec.
  remember (shr (shr_record_of_loc (Z.pos q) loc_Exact) e1
            (Z.pos (digits2_pos q) + e1 - 53 - e1)) as r2 eqn:Hr2.
  destruct r2 as [mrs2 e2].
  assert (He2 : d - 53 <= e2)
    by (pose proof (shr_exp (shr_record_of_loc (Z.pos q) loc_Exact) e1
          (Z.pos (digits2_pos q) + e1 - 53 - e1)) as H; rewrite <- Hr2 in H; cbn [fst snd shr_m shr_record_of_loc] in H; lia).
  assert (Hm3 : 0 < shr_m mrs2).
  { pose proof (shr_mant (shr_record_of_loc (Z.pos q) loc_Exact) e1
          (Z.pos (digits2_pos q) + e1 - 53 - e1)) as H.
    rewrite <- Hr2 in H. cbn [fst snd shr_m shr_record_of_loc] in H. rewrite H by lia.
    apply Z.div_str_pos. split; [apply Z.pow_pos_nonneg; lia|].
    replace (Z.max 0 (Z.pos (digits2_pos q) + e1 - 53 - e1))
      with (Z.pos (digits2_pos q) - 53) by lia.
    apply Z.le_trans with (2 ^ 1); [apply Z.pow_le_mono_r; lia|].
    change (2 ^ 1) with 2. assert (2 <= 2 ^ 52) by (apply (Z.pow_le_mono_r 2 1 52); lia). lia. }
  destruct (shr_m mrs2) as [|M|M]; [lia| |lia].
  replace (e2 <=? 1024 - 53) with false by (symmetry; apply Z.leb_gt; lia).
  reflexivity.
Qed.

(** ** Rounding between [2^53] and [2^1024]

    A record of [shr_1] shifts is read as the quotient by [2^k] with a
    round bit (the remainder is at least half of [2^k]) and a sticky bit
    (the remainder is neither [0] nor half of [2^k]) ([shr_inv]); from
    it, [round_nearest_even] is within half of [2^k], ties to even. *)

Lemma shr_1_spec m r s :
  0 <= m -> shr_1 (Build_shr_record m r s) = Build_shr_record (Z.div2 m) (Z.odd m) (r || s).
Proof. intros Hm. destruct m as [|[p|p|]|p]; try reflexivity; lia. Qed.

(** What a record built by [k] right shifts of [m] says: the quotient,
    the round bit (the remainder is at least half of [2^k]) and the
    sticky bit (the remainder is not [0] or half of [2^k]). *)
Definition shr_inv (m P : Z) (r : shr_record) : Prop :=
  shr_m r = m / P /\ (shr_r r = true <-> P <= 2 * (m mod P)) /\
  (shr_s r = true <-> (2 * (m mod P)) mod P <> 0).

Lemma shr_inv_init m : shr_inv m 1 (Build_shr_record m false false).
Proof.
  unfold shr_inv; cbn [shr_m shr_r shr_s]. rewrite Z.div_1_r, Z.mod_1_r, Z.mod_1_r.
  split; [reflexivity|]. split; split; intros H; try discriminate; lia.
Qed.

Lemma shr_inv_step m P r :
  0 <= m -> 0 < P -> shr_inv m P r -> shr_inv m (2 * P) (shr_1 r).
Proof.
  intros Hm HP (Hq & Hr & Hs). destruct r as [mr rb sb]; cbn [shr_m shr_r shr_s] in *.
  assert (Hmr : 0 <= mr) by (rewrite Hq; apply Z.div_pos; lia).
  rewrite shr_1_spec by exact Hmr. unfold shr_inv; cbn [shr_m shr_r shr_s].
  rewrite (Z.mul_comm 2 P), Z.rem_mul_r by lia.
  pose proof (Z.mod_pos_bound m P HP) as Ha.
  pose proof (Z.mod_pos_bound (m / P) 2 ltac:(lia)) as Hb.
  pose proof (Zmod_odd (m / P)) as Hodd.
  set (a := m mod P) in *. set (b := (m / P) mod 2) in *.
  assert (E2 : (2 * (a + P * b)) mod (P * 2) = 2 * a).
  { replace (2 * (a + P * b)) with (2 * a + b * (P * 2)) by ring.
    rewrite Z.mod_add by lia. apply Z.mod_small. lia. }
  rewrite E2. split; [rewrite Z.div2_div, Hq, Z.div_div by lia; reflexivity|].
  split.
  - rewrite <- Hq in Hodd. destruct (Z.odd mr); rewrite Hodd;
      split; intros H; try discriminate; try reflexivity; lia.
  - rewrite orb_true_iff, Hr, Hs.
    destruct (Z.le_gt_cases P (2 * a)) as [Hle|Hgt].
    + split; [intros _; lia|intros _; now left].
    + rewrite (Z.mod_small (2 * a) P) by lia. split; [intros [H|H]; lia|intros H; right; lia].
Qed.

Lemma shr_inv_iter m k :
  0 <= m -> shr_inv m (2 ^ Z.pos k) (iter_pos shr_1 k (Build_shr_record m false false)).
Proof.
  intros Hm. rewrite iter_pos_iter.
  induction k as [|k IH] using Pos.peano_ind.
  - change (2 ^ Z.pos 1) with (2 * 1). apply shr_inv_step; [exact Hm|lia|apply shr_inv_init].
  - rewrite Pos.iter_succ, Pos2Z.inj_succ, Z.pow_succ_r by lia.
    apply shr_inv_step; [exact Hm|apply Z.pow_pos_nonneg; lia|exact IH].
Qed.

(** Rounding to nearest after the shift is off by at most half of [P]. *)
Lemma round_shr_error m P r :
  0 <= m -> 0 < P -> shr_inv m P r ->
  let q := round_nearest_even (shr_m r) (loc_of_shr_record r) in
  2 * Z.abs (q * P - m) <= P /\ m / P <= q <= m / P + 1 /\
  (2 * Z.abs (q * P - m) = P -> Z.even q = true).
Proof.
  intros Hm HP (Hq & Hr & Hs). cbv zeta.
  pose proof (Z.div_mod m P ltac:(lia)) as Hdm.
  pose proof (Z.mod_pos_bound m P HP) as Ha.
  set (a := m mod P) in *. set (d := m / P) in *.
  destruct r as [mr rb sb]; cbn [shr_m shr_r shr_s] in *. subst mr.
  assert (E2 : 2 * a < P -> (2 * a) mod P = 2 * a) by (intros; apply Z.mod_small; lia).
  destruct rb, sb; cbn [loc_of_shr_record round_nearest_even];
    destruct Hr as [Hr1 Hr2]; destruct Hs as [Hs1 Hs2].
  - specialize (Hr1 eq_refl). specialize (Hs1 eq_refl).
    assert (2 * a <> P) by (intros E; apply Hs1; rewrite E, Z.mod_same; lia).
    destruct (Z.abs_spec ((d + 1) * P - m)) as [[? ->]|[? ->]]; repeat split; nia.
  - specialize (Hr1 eq_refl).
    assert (HaP : 2 * a = P).
    { destruct (Z.eq_dec (2 * a) P) as [|Hne]; [assumption|].
      exfalso. assert (Hs' : (2 * a) mod P <> 0).
      { rewrite (Z.mod_eq (2 * a) P) by lia.
        assert (Hq1 : (2 * a) / P = 1) by (symmetry; apply Z.div_unique_pos with (2 * a - P); lia).
        rewrite Hq1. lia. }
      specialize (Hs2 Hs'). discriminate. }
    destruct (Z.even d) eqn:Ev.
    + destruct (Z.abs_spec (d * P - m)) as [[? ->]|[? ->]]; repeat split; try nia; intros _; exact Ev.
    + destruct (Z.abs_spec ((d + 1) * P - m)) as [[? ->]|[? ->]]; repeat split; try nia;
        intros _; rewrite Z.even_add, Ev; reflexivity.
  - specialize (Hs1 eq_refl).
    assert (Hlt : 2 * a < P) by (destruct (Z.lt_ge_cases (2 * a) P); [assumption|]; specialize (Hr2 ltac:(lia)); discriminate).
    destruct (Z.abs_spec (d * P - m)) as [[? ->]|[? ->]]; repeat split; nia.
  - assert (Hlt : 2 * a < P) by (destruct (Z.lt_ge_cases (2 * a) P); [assumption|]; specialize (Hr2 ltac:(lia)); discriminate).
    assert (Ha0 : a = 0).
    { destruct (Z.eq_dec a 0) as [|Hne]; [assumption|].
      assert (Hs' : (2 * a) mod P <> 0) by (rewrite E2 by exact Hlt; lia).
      specialize (Hs2 Hs'). discriminate. }
    destruct (Z.abs_spec (d * P - m)) as [[? ->]|[? ->]]; repeat split; nia.
Qed.

Lemma log2_digits2 p : Z.log2 (Z.pos p) = Z.pos (digits2_pos p) - 1.
Proof.
  pose proof (digits2_spec p) as [Hlo Hhi]. apply Z.log2_unique; [lia|].
  replace (Z.succ (Z.pos (digits2_pos p) - 1)) with (Z.pos (digits2_pos p)) by lia. lia.
Qed.

(** Converting an integer of [2^53] or more and below [2^1024]: the
    shift [k], the rounded 53 or 54-bit mantissa [q] (round to nearest,
    ties to even), and the double built from it, with the carry into
    the next binade and the overflow of the exponent. *)
Lemma binary_round_shape s m :
  2 ^ prec <= Z.pos m < 2 ^ emax ->
  exists k q : positive,
    Z.log2 (Z.pos m) = Z.pos k + 52 /\ 2 ^ 52 <= Z.pos q <= 2 ^ 53 /\
    2 * Z.abs (Z.pos q * 2 ^ Z.pos k - Z.pos m) <= 2 ^ Z.pos k /\
    (2 * Z.abs (Z.pos q * 2 ^ Z.pos k - Z.pos m) = 2 ^ Z.pos k -> Z.even (Z.pos q) = true) /\
    binary_round prec emax s m 0 =
      if Z.pos q <? 2 ^ 53 then S754_finite s q (Z.pos k)
      else if Z.pos k <=? 970 then S754_finite s 4503599627370496 (Z.pos k + 1)
      else S754_infinity s.
Proof.
  intros Hm. rewrite log2_digits2. pose proof (digits2_spec m) as [Dlo Dhi].
  remember (Z.pos (digits2_pos m)) as d eqn:Hd.
  unfold prec, emax in *.
  assert (Hd54 : 54 <= d).
  { destruct (Z.le_gt_cases 54 d) as [|Hlt]; [assumption|].
    assert (2 ^ d <= 2 ^ 53) by (apply Z.pow_le_mono_r; lia). lia. }
  assert (Hd1024 : d <= 1024).
  { destruct (Z.le_gt_cases d 1024) as [|Hgt]; [assumption|].
    assert (2 ^ 1024 <= 2 ^ (d - 1)) by (apply Z.pow_le_mono_r; lia). lia. }
  destruct (d - 53) as [|k|k] eqn:Ek; [lia| |lia].
  unfold binary_round. rewrite <- Hd, Z.add_0_r.
  rewrite fexp_normal by (unfold emin, prec; lia). unfold prec.
  unfold shl_align. rewrite Z.sub_0_r, Ek.
  unfold binary_round_aux, shr_fexp. cbn [Zdigits2 shr_record_of_loc]. rewrite <- Hd, Z.add_0_r.
  rewrite fexp_normal by (unfold emin, prec; lia). unfold prec.
  rewrite Z.sub_0_r, Ek. cbn [shr].
  assert (Hkpos : 0 < 2 ^ Z.pos k) by (apply Z.pow_pos_nonneg; lia).
  pose proof (round_shr_error (Z.pos m) (2 ^ Z.pos k) _ ltac:(lia) Hkpos
                (shr_inv_iter (Z.pos m) k ltac:(lia))) as (Herr & Hrng & Htie).
  cbv zeta in Herr, Hrng, Htie.
  set (q := round_nearest_even _ _) in *.
  assert (HP : 2 ^ d = 2 ^ 53 * 2 ^ Z.pos k) by (rewrite <- Z.pow_add_r by lia; f_equal; lia).
  assert (HP1 : 2 ^ (d - 1) = 2 ^ 52 * 2 ^ Z.pos k) by (rewrite <- Z.pow_add_r by lia; f_equal; lia).
  assert (Hq0 : 2 ^ 52 <= Z.pos m / 2 ^ Z.pos k < 2 ^ 53).
  { split; [apply Z.div_le_lower_bound|apply Z.div_lt_upper_bound]; lia. }
  clearbody q. destruct q as [|qp|qp]; [lia| |lia].
  exists k, qp. split; [lia|]. split; [lia|]. split; [exact Herr|]. split; [exact Htie|].
  destruct (Z.ltb_spec (Z.pos qp) (2 ^ 53)) as [Hq53|Hq53].
  - (* no carry: the rounded mantissa has 53 bits *)
    assert (HD : Z.pos (digits2_pos qp) = 53) by (apply digits2_unique; lia).
    cbn [Zdigits2]. rewrite HD, fexp_normal by (unfold emin, prec; lia). unfold prec.
    replace (53 + (0 + Z.pos k) - 53 - (0 + Z.pos k)) with 0 by lia. cbn [shr shr_m].
    rewrite Z.add_0_l.
    replace (Z.pos k <=? 1024 - 53) with true by (symmetry; apply Z.leb_le; lia). reflexivity.
  - (* carry: the mantissa is 2^53, renormalized to 2^52 with one more exponent *)
    assert (Eqp : qp = 9007199254740992%positive) by (apply Pos2Z.inj; cbn; lia).
    subst qp. cbn [Zdigits2].
    replace (Z.pos (digits2_pos 9007199254740992)) with 54 by reflexivity.
    rewrite fexp_normal by (unfold emin, prec; lia). unfold prec.
    replace (54 + (0 + Z.pos k) - 53 - (0 + Z.pos k)) with 1 by lia. cbn [shr iter_pos shr_1 shr_m].
    rewrite Z.add_0_l.
    destruct (Z.leb_spec (Z.pos k) 970);
      [replace (Z.pos k + 1 <=? 1024 - 53) with true by (symmetry; apply Z.leb_le; lia)
      |replace (Z.pos k + 1 <=? 1024 - 53) with false by (symmetry; apply Z.leb_gt; lia)];
      reflexivity.
Qed.

(** Below the overflow threshold [2^1024 - 2^970] the conversion is
    finite, within half a unit of the last place, ties to even. *)
Lemma binary_round_mid s m :
  2 ^ prec <= Z.pos m < 2 ^ emax - 2 ^ 970 ->
  exists M E, binary_round prec emax s m 0 = S754_finite s M E /\
    Z.pos (digits2_pos M) = prec /\ 0 < E <= emax - prec /\
    2 * Z.abs (Z.pos M * 2 ^ E - Z.pos m) <= 2 ^ (Z.log2 (Z.pos m) - 52) /\
    (Z.pos M * 2 ^ E) mod 2 ^ (Z.log2 (Z.pos m) - 52) = 0 /\
    (2 * Z.abs (Z.pos M * 2 ^ E - Z.pos m) = 2 ^ (Z.log2 (Z.pos m) - 52) ->
     (Z.pos M * 2 ^ E) mod 2 ^ (Z.log2 (Z.pos m) - 51) = 0).
Proof.
  intros Hm.
  assert (H970 : 0 < 2 ^ 970) by (apply Z.pow_pos_nonneg; lia).
  destruct (binary_round_shape s m ltac:(unfold prec, emax in *; lia))
    as (k & q & Hlog & Hq & Herr & Htie & ->).
  rewrite Hlog. replace (Z.pos k + 52 - 52) with (Z.pos k) by lia.
  replace (Z.pos k + 52 - 51) with (Z.pos k + 1) by lia.
  assert (Hkpos : 0 < 2 ^ Z.pos k) by (apply Z.pow_pos_nonneg; lia).
  assert (Hev : forall x, Z.even x = true -> (x * 2 ^ Z.pos k) mod 2 ^ (Z.pos k + 1) = 0).
  { intros x Hx. apply Z.even_spec in Hx as [y ->].
    rewrite Z.pow_add_r by lia. replace (2 * y * 2 ^ Z.pos k) with (y * (2 ^ Z.pos k * 2 ^ 1)) by ring.
    apply Z.mod_mul. change (2 ^ 1) with 2. lia. }
  destruct (Z.ltb_spec (Z.pos q) (2 ^ 53)) as [Hq53|Hq53].
  - exists q, (Z.pos k). split; [reflexivity|].
    split; [apply digits2_unique; unfold prec; lia|]. split; [unfold emax, prec; split; [lia|]|].
    + assert (Hlog' : Z.log2 (Z.pos m) < 1024)
        by (apply Z.log2_lt_pow2; [lia|]; unfold emax in Hm; lia).
      lia.
    + split; [exact Herr|]. split; [apply Z.mod_mul; lia|]. intros Ht. exact (Hev _ (Htie Ht)).
  - assert (Hq2 : Z.pos q = 2 ^ 53) by lia.
    assert (Hk : Z.pos k <= 970).
    { destruct (Z.le_gt_cases (Z.pos k) 970) as [|Hgt]; [assumption|exfalso].
      assert (Hlog' : Z.log2 (Z.pos m) < 1024)
        by (apply Z.log2_lt_pow2; [lia|]; unfold emax in Hm; lia).
      assert (Ek971 : Z.pos k = 971) by lia. rewrite Ek971, Hq2 in Herr.
      destruct (Z.abs_spec (2 ^ 53 * 2 ^ 971 - Z.pos m)) as [[_ Ha]|[_ Ha]]; rewrite Ha in Herr;
        unfold emax in Hm; lia. }
    replace (Z.pos k <=? 970) with true by (symmetry; apply Z.leb_le; lia).
    exists 4503599627370496%positive, (Z.pos k + 1). split; [reflexivity|].
    split; [reflexivity|]. split; [unfold emax, prec; lia|].
    assert (EM : Z.pos 4503599627370496 * 2 ^ (Z.pos k + 1) = Z.pos q * 2 ^ Z.pos k).
    { rewrite Hq2, Z.pow_add_r by lia. change (Z.pos 4503599627370496) with (2 ^ 52).
      change (2 ^ 53) with (2 ^ 52 * 2 ^ 1). ring. }
    rewrite EM. split; [exact Herr|]. split; [apply Z.mod_mul; lia|].
    intros _. apply Hev. rewrite Hq2. reflexivity.
Qed.

(** From [2^1024 - 2^970] on, the conversion overflows. *)
Lemma binary_round_top s m :
  2 ^ emax - 2 ^ 970 <= Z.pos m < 2 ^ emax -> binary_round prec emax s m 0 = S754_infinity s.
Proof.
  intros Hm.
  destruct (binary_round_shape s m ltac:(unfold prec, emax in *; lia))
    as (k & q & Hlog & Hq & Herr & Htie & ->).
  assert (Hlog' : Z.log2 (Z.pos m) = 1023).
  { apply Z.log2_unique; [lia|]. unfold emax in Hm. lia. }
  assert (Ek : Z.pos k = 971) by lia. rewrite Ek in *.
  assert (Hq2 : Z.pos q = 2 ^ 53).
  { destruct (Z.le_gt_cases (2 ^ 53) (Z.pos q)) as [|Hlt]; [lia|exfalso].
    destruct (Z.abs_spec (Z.pos q * 2 ^ 971 - Z.pos m)) as [[_ Ha]|[_ Ha]]; rewrite Ha in *;
      unfold emax in Hm; [lia|].
    assert (Hqm : Z.pos q = 2 ^ 53 - 1) by lia.
    rewrite Hqm in Htie. specialize (Htie ltac:(lia)). discriminate. }
  rewrite Hq2. reflexivity.
Qed.

End PyFloat.
