(* ===== verification/Motion.v ===== *)
(** * Motion dispatch: lines 53-55 of python_code.py

    [if dx != 0 or dy != 0: mouse.move(int(dx * SCALE), int(dy * SCALE))]:
    [scaled] is [int(d * scale)] with the float semantics of [PyFloat],
    [motion] the whole statement, returning the [mouse.move] call it
    makes (none when both deltas are zero) or the exception it raises;
    the statement is outside the [try] of lines 45-51, so an exception
    here ends [main].  The scale is a parameter, [SCALE] (1.0) in the
    program.

    The theorems: with [SCALE] every delta below [2^53] in magnitude
    reaches the pointer unchanged; above, it is rounded to nearest,
    ties to even, to 53 significant bits; [OverflowError] is raised
    exactly from [2^1024 - 2^970] on (from [2^1024] on for any scale);
    with a power-of-two scale [pow2_scale k] a delta below [2^53] moves
    by [d * 2^k] truncated toward zero, overflowing exactly from
    [2^1024] on; and since line 54 tests the unscaled deltas, a scale
    below one turns every small nonzero frame into [mouse.move(0, 0)]. *)

From Stdlib Require Import ZArith List Bool Lia.
From Stdlib Require Import Floats.SpecFloat.
From S2P Require Import Prelude Pointer PyFloat.
Import ListNotations.
Import PyFloat.
Local Open Scope Z_scope.
Local Open Scope mb_scope.

Module Motion.

(** [int(d * scale)]. *)
Definition scaled (scale : spec_float) (d : Z) : result Z py_error :=
  f <- int_mul_float d scale ;; int_of_float f.

(** Lines 54-55: the left argument is evaluated first. *)
Definition motion (scale : spec_float) (dx dy : Z) : result (list call) py_error :=
  if negb (dx =? 0) || negb (dy =? 0) then
    x <- scaled scale dx ;;
    y <- scaled scale dy ;;
    Ok [Move x y]
  else Ok [].

(** ** Lemmas *)

Lemma scaled_SCALE_small d : Z.abs d < 2 ^ prec -> scaled SCALE d = Ok d.
Proof.
  intros Hd. unfold scaled, int_mul_float, float_of_int.
  destruct d as [|m|m]; [reflexivity| |]; simpl Z.abs in Hd;
    cbn [binary_normalize];
    [destruct (binary_round_small false m Hd) as (M & E & -> & HM & HE & Ht & _)
    |destruct (binary_round_small true m Hd) as (M & E & -> & HM & HE & Ht & _)];
    cbn [bind_result];
    rewrite mul_SCALE by (auto; unfold emin, emax, prec in *; lia);
    cbn [int_of_float]; now rewrite Ht.
Qed.

Lemma scaled_overflow scale d : 2 ^ emax <= Z.abs d -> scaled scale d = Err OverflowError.
Proof.
  intros Hd. unfold scaled, int_mul_float, float_of_int.
  destruct d as [|m|m]; simpl Z.abs in Hd;
    [assert (0 < 2 ^ emax) by (apply Z.pow_pos_nonneg; unfold emax; lia); lia| |];
    cbn [binary_normalize]; now rewrite binary_round_big.
Qed.

(** Every integer below [2^1024 - 2^970] in magnitude converts. *)
Lemma scaled_SCALE_ok d :
  Z.abs d < 2 ^ emax - 2 ^ 970 -> exists v, scaled SCALE d = Ok v.
Proof.
  intros Hd. destruct (Z.lt_ge_cases (Z.abs d) (2 ^ prec)) as [Hs|Hb].
  - exists d. now apply scaled_SCALE_small.
  - unfold scaled, int_mul_float, float_of_int.
    destruct d as [|m|m]; simpl Z.abs in *; [unfold prec in Hb; lia| |];
      cbn [binary_normalize];
      [destruct (binary_round_mid false m (conj Hb Hd)) as (M & E & -> & HM & HE & _)
      |destruct (binary_round_mid true m (conj Hb Hd)) as (M & E & -> & HM & HE & _)];
      cbn [bind_result]; rewrite mul_SCALE by (auto; unfold emin, emax, prec in *; lia);
      eexists; reflexivity.
Qed.

(** Truncating [M * 2^(E + k)] where [M = m * 2^(-E)]: [m * 2^k], or
    [m / 2^(-k)] rounded toward zero when [k] is negative. *)
Lemma trunc_pow2 s M m E k :
  E <= 0 -> Z.pos M = Z.pos m * 2 ^ (- E) ->
  trunc_finite s M (E + k) = cond_Zopp s (if 0 <=? k then Z.pos m * 2 ^ k else Z.pos m / 2 ^ (- k)).
Proof.
  intros HE HM. unfold trunc_finite, cond_Zopp. rewrite HM.
  destruct (Z.leb_spec 0 (E + k)), (Z.leb_spec 0 k); [| lia | |].
  - rewrite <- Z.mul_assoc, <- Z.pow_add_r by lia. now replace (- E + (E + k)) with k by lia.
  - replace (- E) with (k + - (E + k)) by lia. rewrite Z.pow_add_r, Z.mul_assoc, Z.div_mul by
      (try apply Z.pow_nonzero; lia). reflexivity.
  - replace (- (E + k)) with (- E + - k) by lia.
    rewrite Z.pow_add_r, <- Z.div_div, Z.div_mul by
      (try apply Z.pow_nonzero; try apply Z.pow_pos_nonneg; lia). reflexivity.
Qed.

(** A 53-bit [M = m * 2^(-E)] times [2^k] keeps a representable
    exponent exactly when [m * 2^k] is below [2^1024]. *)
Lemma pow2_overflow M m E k :
  Z.pos (digits2_pos M) = prec -> E <= 0 -> 0 <= k -> Z.pos M = Z.pos m * 2 ^ (- E) ->
  (E + k <=? emax - prec) = (Z.pos m * 2 ^ k <? 2 ^ emax).
Proof.
  intros HD HE Hk HM. pose proof (digits2_spec M) as HMb. rewrite HD in HMb. unfold prec, emax in *.
  assert (P : 0 < 2 ^ (- E)) by (apply Z.pow_pos_nonneg; lia).
  assert (Hk2 : 0 < 2 ^ k) by (apply Z.pow_pos_nonneg; lia).
  assert (Hv : (Z.pos m * 2 ^ k) * 2 ^ (- E) = Z.pos M * 2 ^ k) by (rewrite HM; ring).
  destruct (Z.leb_spec (E + k) (1024 - 53)), (Z.ltb_spec (Z.pos m * 2 ^ k) (2 ^ 1024));
    [reflexivity|exfalso|exfalso|reflexivity].
  - assert (Hp : 2 ^ 1024 * 2 ^ (- E) = 2 ^ 53 * 2 ^ k * 2 ^ (1024 - 53 - (E + k)))
      by (rewrite <- !Z.pow_add_r by lia; f_equal; lia).
    assert (0 < 2 ^ (1024 - 53 - (E + k))) by (apply Z.pow_pos_nonneg; lia).
    assert (Z.pos M * 2 ^ k < 2 ^ 53 * 2 ^ k) by nia. nia.
  - assert (Hp : 2 ^ (53 - 1) * 2 ^ k = 2 ^ 1024 * 2 ^ (- E) * 2 ^ (E + k - 972))
      by (rewrite <- !Z.pow_add_r by lia; f_equal; lia).
    assert (0 < 2 ^ (E + k - 972)) by (apply Z.pow_pos_nonneg; lia).
    assert (2 ^ (53 - 1) * 2 ^ k <= Z.pos M * 2 ^ k) by nia. nia.
Qed.

(** [int(d * 2^k)] for a delta [d] of either sign below [2^53]. *)
Lemma scaled_pow2_signed s m k :
  -1022 <= k -> Z.pos m < 2 ^ prec ->
  scaled (pow2_scale k) (cond_Zopp s (Z.pos m)) =
    if 0 <=? k then (if Z.pos m * 2 ^ k <? 2 ^ emax then Ok (cond_Zopp s (Z.pos m * 2 ^ k))
                     else Err OverflowError)
    else Ok (cond_Zopp s (Z.pos m / 2 ^ (- k))).
Proof.
  intros Hk Hd. unfold scaled, int_mul_float, float_of_int.
  replace (binary_normalize prec emax (cond_Zopp s (Z.pos m)) 0 false)
    with (binary_round prec emax s m 0) by (destruct s; reflexivity).
  destruct (binary_round_small s m Hd) as (M & E & -> & HM & HE & _ & HME).
  cbn [bind_result]. rewrite mul_pow2 by (auto; unfold emin, prec in *; lia).
  destruct (Z.leb_spec 0 k).
  - rewrite (pow2_overflow M m E k) by (auto; lia).
    destruct (Z.pos m * 2 ^ k <? 2 ^ emax); [|reflexivity].
    cbn [int_of_float]. rewrite (trunc_pow2 _ M m E k) by (auto; lia).
    now replace (0 <=? k) with true by (symmetry; apply Z.leb_le; lia).
  - replace (E + k <=? emax - prec) with true by (symmetry; apply Z.leb_le; unfold emax, prec; lia).
    cbn [int_of_float]. rewrite (trunc_pow2 _ M m E k) by (auto; lia).
    now replace (0 <=? k) with false by (symmetry; apply Z.leb_gt; lia).
Qed.

(** A delta below [2^(-k)] in magnitude, with a scale [2^k] below one,
    moves by nothing. *)
Lemma scaled_pow2_small k d :
  -53 <= k < 0 -> Z.abs d < 2 ^ (- k) -> scaled (pow2_scale k) d = Ok 0.
Proof.
  intros Hk Hd. assert (Hp : 2 ^ (- k) <= 2 ^ prec) by (apply Z.pow_le_mono_r; unfold prec; lia).
  destruct d as [|m|m]; [reflexivity| |]; simpl Z.abs in Hd;
    [change (Z.pos m) with (cond_Zopp false (Z.pos m))
    |change (Z.neg m) with (cond_Zopp true (Z.pos m))];
    rewrite scaled_pow2_signed by lia;
    replace (0 <=? k) with false by (symmetry; apply Z.leb_gt; lia);
    rewrite Z.div_small by lia; reflexivity.
Qed.

(** ** Theorems *)

(** C10: with [SCALE = 1.0], a frame whose deltas are below [2^53] in
    magnitude moves the pointer by exactly [(dx, dy)], and makes no
    [move] call when both are zero (spec 4.2). *)
Theorem motion_exact dx dy :
  Z.abs dx < 2 ^ prec -> Z.abs dy < 2 ^ prec ->
  motion SCALE dx dy = Ok (if (dx =? 0) && (dy =? 0) then [] else [Move dx dy]).
Proof.
  intros Hx Hy. unfold motion.
  destruct (Z.eqb_spec dx 0), (Z.eqb_spec dy 0); cbn [negb orb andb]; try reflexivity;
    rewrite scaled_SCALE_small by assumption; cbn [bind_result];
    rewrite scaled_SCALE_small by assumption; reflexivity.
Qed.

Lemma motion_exact_witness :
  Z.abs 3 < 2 ^ prec /\ Z.abs (-2) < 2 ^ prec /\
  motion SCALE 3 (-2) = Ok [Move 3 (-2)].
Proof.
  split; [reflexivity|]. split; [reflexivity|].
  apply (motion_exact 3 (-2)); reflexivity.
Defined.

(** C11: a delta of [2^1024] or more (a 309-digit field, which [int()]
    accepts) makes [dx * SCALE] raise [OverflowError]; line 55 is outside
    the [try], so the exception leaves [main] and ends the program. *)
Theorem motion_overflow scale dx dy :
  2 ^ emax <= Z.abs dx -> motion scale dx dy = Err OverflowError.
Proof.
  intros Hx. unfold motion.
  assert (Hdx : dx <> 0)
    by (intros ->; assert (0 < 2 ^ emax) by (apply Z.pow_pos_nonneg; unfold emax; lia);
        simpl in Hx; lia).
  replace (negb (dx =? 0)) with true by (symmetry; apply negb_true_iff, Z.eqb_neq; exact Hdx).
  cbn [orb]. now rewrite scaled_overflow.
Qed.

Lemma motion_overflow_witness :
  2 ^ emax <= Z.abs (2 ^ 1024) /\ motion SCALE (2 ^ 1024) 0 = Err OverflowError.
Proof.
  split; [unfold emax; rewrite Z.abs_eq; [lia|apply Z.pow_nonneg; lia]|].
  apply motion_overflow. unfold emax. rewrite Z.abs_eq; [lia|apply Z.pow_nonneg; lia].
Defined.

(** C29: between [2^53] and the overflow threshold, [int(d * SCALE)]
    is [d] rounded to a double: a multiple of the unit of the last
    place [2^(log2 |d| - 52)], within half a unit of [d], with an even
    mantissa on a tie (round to nearest, ties to even), and of the sign
    of [d]; so the pointer can move by up to [2^(log2 |d| - 53)] more or
    less than the device reported. *)
Theorem scaled_SCALE_rounding d :
  2 ^ prec <= Z.abs d < 2 ^ emax - 2 ^ 970 ->
  exists v, scaled SCALE d = Ok v /\
    2 * Z.abs (v - d) <= 2 ^ (Z.log2 (Z.abs d) - 52) /\
    v mod 2 ^ (Z.log2 (Z.abs d) - 52) = 0 /\
    (2 * Z.abs (v - d) = 2 ^ (Z.log2 (Z.abs d) - 52) -> v mod 2 ^ (Z.log2 (Z.abs d) - 51) = 0) /\
    Z.sgn v = Z.sgn d.
Proof.
  intros Hd. unfold scaled, int_mul_float, float_of_int.
  destruct d as [|m|m]; simpl Z.abs in *; [unfold prec in Hd; lia| |];
    cbn [binary_normalize];
    [destruct (binary_round_mid false m Hd) as (M & E & -> & HM & HE & Herr & Hmod & Htie)
    |destruct (binary_round_mid true m Hd) as (M & E & -> & HM & HE & Herr & Hmod & Htie)];
    cbn [bind_result]; rewrite mul_SCALE by (auto; unfold emin, emax, prec in *; lia);
    cbn [int_of_float trunc_finite];
    replace (0 <=? E) with true by (symmetry; apply Z.leb_le; lia);
    assert (HME : 0 < Z.pos M * 2 ^ E) by (apply Z.mul_pos_pos; [lia|apply Z.pow_pos_nonneg; lia]).
  - eexists. split; [reflexivity|]. repeat split; auto. now rewrite !Z.sgn_pos by lia.
  - eexists. split; [reflexivity|].
    replace (- (Z.pos M * 2 ^ E) - Z.neg m) with (- (Z.pos M * 2 ^ E - Z.pos m)) by lia.
    rewrite Z.abs_opp. split; [exact Herr|].
    assert (Hl : 53 <= Z.log2 (Z.pos m)) by (apply Z.log2_le_pow2; [lia|]; unfold prec in Hd; lia).
    split; [apply Z.mod_opp_l_z; [apply Z.pow_nonzero; lia|exact Hmod]|].
    split; [intros Ht; apply Z.mod_opp_l_z; [apply Z.pow_nonzero; lia|exact (Htie Ht)]|].
    now rewrite Z.sgn_neg, Z.sgn_neg by lia.
Qed.

Lemma scaled_SCALE_rounding_witness :
  2 ^ prec <= Z.abs (2 ^ 53 + 1) < 2 ^ emax - 2 ^ 970 /\
  exists v, scaled SCALE (2 ^ 53 + 1) = Ok v /\
    2 * Z.abs (v - (2 ^ 53 + 1)) <= 2 ^ (Z.log2 (Z.abs (2 ^ 53 + 1)) - 52) /\
    v mod 2 ^ (Z.log2 (Z.abs (2 ^ 53 + 1)) - 52) = 0 /\
    (2 * Z.abs (v - (2 ^ 53 + 1)) = 2 ^ (Z.log2 (Z.abs (2 ^ 53 + 1)) - 52) ->
     v mod 2 ^ (Z.log2 (Z.abs (2 ^ 53 + 1)) - 51) = 0) /\
    Z.sgn v = Z.sgn (2 ^ 53 + 1).
Proof.
  assert (H : 2 ^ prec <= Z.abs (2 ^ 53 + 1) < 2 ^ emax - 2 ^ 970)
    by (unfold prec, emax; split; apply Z.leb_le || apply Z.ltb_lt; vm_compute; reflexivity).
  split; [exact H|]. exact (scaled_SCALE_rounding (2 ^ 53 + 1) H).
Defined.

(** C30: with [SCALE], [int(d * SCALE)] raises [OverflowError] exactly
    when [|d|] is at least [2^1024 - 2^970]: the integers of 1024 bits
    that round up to [2^1024], and everything above. *)
Theorem scaled_SCALE_overflow_iff d :
  scaled SCALE d = Err OverflowError <-> 2 ^ emax - 2 ^ 970 <= Z.abs d.
Proof.
  split.
  - intros Hs. destruct (Z.lt_ge_cases (Z.abs d) (2 ^ emax - 2 ^ 970)) as [Hlt|]; [|assumption].
    destruct (scaled_SCALE_ok d Hlt) as [v Hv]. congruence.
  - intros Hd. destruct (Z.lt_ge_cases (Z.abs d) (2 ^ emax)) as [Hlt|Hge];
      [|now apply scaled_overflow].
    unfold scaled, int_mul_float, float_of_int.
    destruct d as [|m|m]; simpl Z.abs in *; [unfold emax in Hd; lia| |];
      cbn [binary_normalize]; rewrite binary_round_top by lia; reflexivity.
Qed.

(** C20: with the scale set to a power of two [2^k] (a double such as
    2.0 or 0.5, spec 6), every delta below [2^53] in magnitude reaches
    the pointer exactly as [d * 2^k] truncated toward zero: multiplied
    by [2^k] when [k >= 0], raising [OverflowError] exactly when that
    product reaches [2^1024]; divided by [2^(-k)] and rounded toward
    zero, as Python's [int()] does, when [k < 0]. *)
Theorem scaled_pow2_exact k d :
  -1022 <= k <= 1023 -> Z.abs d < 2 ^ prec ->
  scaled (pow2_scale k) d =
    if 0 <=? k then (if Z.abs d * 2 ^ k <? 2 ^ emax then Ok (d * 2 ^ k) else Err OverflowError)
    else Ok (Z.quot d (2 ^ (- k))).
Proof.
  intros Hk Hd. assert (Hk2 : 0 < 2 ^ emax) by (apply Z.pow_pos_nonneg; unfold emax; lia).
  assert (Hq : forall m : positive, k < 0 -> Z.quot (Z.pos m) (2 ^ (- k)) = Z.pos m / 2 ^ (- k))
    by (intros; apply Z.quot_div_nonneg; [lia|apply Z.pow_pos_nonneg; lia]).
  destruct d as [|m|m]; simpl Z.abs in Hd |- *.
  - destruct (0 <=? k); [rewrite Z.mul_0_l; now replace (0 <? 2 ^ emax) with true
      by (symmetry; apply Z.ltb_lt; lia)|]. reflexivity.
  - change (Z.pos m) with (cond_Zopp false (Z.pos m)) at 1.
    rewrite (scaled_pow2_signed false m k) by lia. cbn [cond_Zopp].
    destruct (Z.leb_spec 0 k); [reflexivity|]. now rewrite Hq.
  - change (Z.neg m) with (cond_Zopp true (Z.pos m)).
    rewrite (scaled_pow2_signed true m k) by lia. cbn [cond_Zopp].
    destruct (Z.leb_spec 0 k); [now rewrite Z.mul_opp_l|].
    rewrite Z.quot_opp_l, Hq by (try apply Z.pow_nonzero; lia). reflexivity.
Qed.

Lemma scaled_pow2_exact_witness :
  binary_normalize prec emax 1 (-1) false = pow2_scale (-1) /\
  scaled (pow2_scale (-1)) (-3) = Ok (-1).
Proof.
  split; [vm_compute; reflexivity|].
  rewrite (scaled_pow2_exact (-1) (-3)) by (unfold prec; lia). reflexivity.
Defined.

(** C21: the zero test of line 54 is on the deltas before scaling: with
    a scale [2^k] below one (0.5, 0.25, ...), every frame whose deltas
    are not both zero but are both below [2^(-k)] in magnitude makes the
    call [mouse.move(0, 0)], which the spec (4.2) says is never made
    ("no motion call when both scaled deltas are zero"). *)
Theorem motion_zero_move k dx dy :
  -53 <= k < 0 -> (dx <> 0 \/ dy <> 0) -> Z.abs dx < 2 ^ (- k) -> Z.abs dy < 2 ^ (- k) ->
  motion (pow2_scale k) dx dy = Ok [Move 0 0].
Proof.
  intros Hk Hnz Hx Hy. unfold motion.
  replace (negb (dx =? 0) || negb (dy =? 0)) with true
    by (symmetry; apply orb_true_iff; destruct Hnz; [left|right]; apply negb_true_iff, Z.eqb_neq; lia).
  rewrite (scaled_pow2_small k dx), (scaled_pow2_small k dy) by lia. reflexivity.
Qed.

Lemma motion_zero_move_witness :
  binary_normalize prec emax 1 (-1) false = pow2_scale (-1) /\
  (-53 <= -1 < 0 /\ (1 <> 0 \/ 1 <> 0) /\ Z.abs 1 < 2 ^ (- -1) /\ Z.abs 1 < 2 ^ (- -1)) /\
  motion (pow2_scale (-1)) 1 1 = Ok [Move 0 0].
Proof.
  split; [vm_compute; reflexivity|].
  assert (H : -53 <= -1 < 0 /\ (1 <> 0 \/ 1 <> 0) /\ Z.abs 1 < 2 ^ (- -1) /\ Z.abs 1 < 2 ^ (- -1))
    by (repeat split; try left; lia).
  split; [exact H|]. destruct H as (Hk & Hnz & Hx & Hy).
  exact (motion_zero_move (-1) 1 1 Hk Hnz Hx Hy).
Defined.

End Motion.
