(* ===== verification/MainLoop.v ===== *)
(** * The read-decode-act loop: [main] of python_code.py

    [loop_body] is one iteration of the [while True] loop of lines 35-71
    on the bytes one [ser.readline()] returned (lines 36-51 by
    [Decoder.decode_line], 53-55 by [Motion.motion], 57-71 by
    [Buttons.click_handling] and [Buttons.next_levels]): the loop goes
    on with new levels and the calls made on the pointer, or [main] ends
    with the exception raised at line 55.  [run] iterates it over the
    sequence of [readline] results (a finite prefix of the serial input;
    a read timeout returns the empty byte string), from [prevL = prevR =
    0] (lines 27-28) in [main_run].  [reach] is the step relation of the
    loop paired with a pointer service of [Pointer], for invariants by
    rule induction.

    The theorems: the stored levels are those of the last accepted frame
    (spec 3); timeouts change nothing; under press/hold the pointer's
    held buttons always mirror the stored levels and under edge click no
    button is ever held; a run of 0/1 frames with small deltas refines
    the abstract machine of the spec (its witness is the spec's
    end-to-end scenario, testable property 7); and a huge delta ends the
    program. *)

From Stdlib Require Import ZArith List Bool Lia.
From Stdlib Require Import Floats.SpecFloat String Ascii.
From S2P Require Import Prelude Pointer Buttons PyText PyInt Utf8 Decoder PyFloat Motion.
Import ListNotations.
Import Buttons Decoder PyFloat Motion.
Local Open Scope Z_scope.
Local Open Scope list_scope.
Local Open Scope mb_scope.

Module MainLoop.

(** What one iteration does. *)
Inductive step_result : Type :=
| Continue (st : levels) (calls : list call)
| Crash (e : py_error).

Section Loop.
Variable edge : bool.
Variable scale : spec_float.

(** Lines 36-71. *)
Definition loop_body (st : levels) (raw : list Z) : step_result :=
  match decode_line raw with
  | Err _ => Continue st []
  | Ok f =>
      match motion scale (dx f) (dy f) with
      | Err e => Crash e
      | Ok mv => Continue (next_levels (fL f) (fR f))
                          (mv ++ click_handling edge st (fL f) (fR f))
      end
  end.

(** The loop over the [readline] results: the calls of each iteration,
    and the final levels or the exception that ended [main]. *)
Fixpoint run (st : levels) (lines : list (list Z))
  : list (list call) * (levels + py_error) :=
  match lines with
  | [] => ([], inl st)
  | raw :: rest =>
      match loop_body st raw with
      | Crash e => ([], inr e)
      | Continue st' cs =>
          let '(css, o) := run st' rest in (cs :: css, o)
      end
  end.

(** [main]'s loop seen as a transition system, with the pointer. *)
Context {W : Type} `{PointerService W}.

Inductive reach (w0 : W) : levels -> W -> Prop :=
| reach_init : reach w0 initial_levels w0
| reach_step st w raw st' cs :
    reach w0 st w -> loop_body st raw = Continue st' cs ->
    reach w0 st' (perform_all cs w).
End Loop.

(** Lines 26-71 with the program's settings. *)
Definition main_run (lines : list (list Z)) : list (list call) * (levels + py_error) :=
  run EDGE_CLICK SCALE initial_levels lines.

(** The bytes of an ASCII string, for the scenarios. *)
Definition bytes_of (s : String.string) : list Z :=
  map (fun a => Z.of_N (Ascii.N_of_ascii a)) (String.list_ascii_of_string s).

(** ** The abstract machine of the spec (sections 4.2 and 4.3) *)

(** An accepted frame as the spec sees it: two deltas and two levels. *)
Definition abs_frame : Type := (Z * Z * level * level)%type.

Definition abstract (f : frame) : option abs_frame :=
  match level_of (fL f), level_of (fR f) with
  | Some cl, Some cr => Some (dx f, dy f, cl, cr)
  | _, _ => None
  end.

(** Motion dispatch of the spec: a move by the deltas unless both are 0. *)
Definition spec_motion (x y : Z) : list call :=
  if (x =? 0) && (y =? 0) then [] else [Move x y].

Inductive spec_run (p : policy) : level * level -> list abs_frame -> list call ->
                                   level * level -> Prop :=
| spec_run_nil s : spec_run p s [] [] s
| spec_run_cons pl pr x y cl cr fs cs s' :
    spec_run p (cl, cr) fs cs s' ->
    spec_run p (pl, pr) ((x, y, cl, cr) :: fs)
             (spec_motion x y ++ spec_frame p pl pr cl cr ++ cs) s'.

Definition accepted_frames (lines : list (list Z)) : list frame :=
  flat_map (fun raw => match decode_line raw with Ok f => [f] | Err _ => [] end) lines.

(** The levels of the last accepted frame of a sequence of lines. *)
Definition last_levels (st : levels) (lines : list (list Z)) : levels :=
  match rev (accepted_frames lines) with
  | f :: _ => mk_levels (fL f) (fR f)
  | [] => st
  end.

Definition frame_ok (f : frame) : Prop :=
  abstract f <> None /\ Z.abs (dx f) < 2 ^ prec /\ Z.abs (dy f) < 2 ^ prec.

(** ** Lemmas *)

Lemma loop_body_skip edge scale st raw r :
  decode_line raw = Err r -> loop_body edge scale st raw = Continue st [].
Proof. unfold loop_body. now intros ->. Qed.

Lemma run_skip edge scale st raw rest r :
  decode_line raw = Err r ->
  run edge scale st (raw :: rest) =
  let '(css, o) := run edge scale st rest in ([] :: css, o).
Proof. intros Hd. simpl. now rewrite (loop_body_skip _ _ _ _ _ Hd). Qed.

Lemma motion_calls_untouched scale x y mv b :
  motion scale x y = Ok mv -> forallb (fun c => negb (touches b c)) mv = true.
Proof.
  unfold motion. destruct (negb (x =? 0) || negb (y =? 0)); [|intros [= <-]; reflexivity].
  destruct (scaled scale x); [|discriminate]. cbn [bind_result].
  destruct (scaled scale y); [|discriminate]. cbn [bind_result].
  intros [= <-]. reflexivity.
Qed.

Lemma motion_SCALE_spec x y :
  Z.abs x < 2 ^ prec -> Z.abs y < 2 ^ prec -> motion SCALE x y = Ok (spec_motion x y).
Proof.
  intros Hx Hy. unfold motion, spec_motion.
  destruct (Z.eqb_spec x 0), (Z.eqb_spec y 0); cbn [negb orb andb]; try reflexivity;
    rewrite !scaled_SCALE_small by assumption; reflexivity.
Qed.

Lemma loop_body_cases edge scale st raw st' cs :
  loop_body edge scale st raw = Continue st' cs ->
  (st' = st /\ cs = [] /\ exists r, decode_line raw = Err r) \/
  exists f mv, decode_line raw = Ok f /\ motion scale (dx f) (dy f) = Ok mv /\
    st' = next_levels (fL f) (fR f) /\ cs = mv ++ click_handling edge st (fL f) (fR f).
Proof.
  unfold loop_body. destruct (decode_line raw) as [f|r]; [|intros [= <- <-]; left; eauto].
  destruct (motion scale (dx f) (dy f)) as [mv|e] eqn:Hm; [|discriminate].
  intros [= <- <-]. right. exists f, mv. auto.
Qed.

(** One iteration under press/hold keeps the held buttons in step with
    the stored levels. *)
Lemma loop_body_held_matches {W} `{PointerLaws W} scale st raw st' cs (w : W) :
  held_matches st w -> loop_body false scale st raw = Continue st' cs ->
  held_matches st' (perform_all cs w).
Proof.
  intros Hw Hb.
  destruct (loop_body_cases _ _ _ _ _ _ Hb)
    as [(-> & -> & _) | (f & mv & Hd & Hm & -> & ->)]; [exact Hw|].
  rewrite perform_all_app. apply press_hold_tracks_levels.
  destruct Hw as [HL HR].
  split; rewrite held_perform_all_untouched
           by (eapply motion_calls_untouched; exact Hm); assumption.
Qed.

Lemma last_levels_accept st raw rest f :
  decode_line raw = Ok f ->
  last_levels st (raw :: rest) = last_levels (next_levels (fL f) (fR f)) rest.
Proof.
  intros Hd. unfold last_levels. cbn [accepted_frames flat_map]. rewrite Hd.
  fold (accepted_frames rest). cbn [app rev].
  destruct (rev (accepted_frames rest)) as [|g gs]; reflexivity.
Qed.

Lemma last_levels_skip st raw rest r :
  decode_line raw = Err r -> last_levels st (raw :: rest) = last_levels st rest.
Proof.
  intros Hd. unfold last_levels. cbn [accepted_frames flat_map]. rewrite Hd. reflexivity.
Qed.

(** ** Theorems *)

(** C4: the levels [main] stores after a run are those of the last
    frame it accepted (the initial ones when it accepted none), whatever
    lines were skipped in between (spec 3: malformed lines never change
    the button state). *)
Theorem run_final_levels edge scale st lines css st' :
  run edge scale st lines = (css, inl st') -> st' = last_levels st lines.
Proof.
  revert st css; induction lines as [|raw rest IH]; intros st css; [now intros [= _ <-]|].
  cbn [run]. unfold loop_body. destruct (decode_line raw) as [f|r] eqn:Hd.
  - rewrite (last_levels_accept _ _ _ _ Hd).
    destruct (motion scale (dx f) (dy f)); [|discriminate].
    destruct (run edge scale _ rest) as [css' o] eqn:E. intros [= _ ->].
    exact (IH _ _ E).
  - rewrite (last_levels_skip _ _ _ _ Hd).
    destruct (run edge scale st rest) as [css' o] eqn:E. intros [= _ ->].
    exact (IH _ _ E).
Qed.

Lemma run_final_levels_witness :
  main_run (map bytes_of ["0,0,1,0"; "junk"; ""]%string) = ([[Click Left 1]; []; []], inl (mk_levels 1 0)) /\
  mk_levels 1 0 = last_levels initial_levels (map bytes_of ["0,0,1,0"; "junk"; ""]%string).
Proof.
  split; [vm_compute; reflexivity|].
  apply (run_final_levels EDGE_CLICK SCALE initial_levels _ [[Click Left 1]; []; []]).
  vm_compute. reflexivity.
Defined.

(** C5: under the press/hold policy, in every state the loop can reach
    from a pointer with no button held, the pointer holds exactly the
    buttons whose stored level is nonzero: press and release calls keep
    the operating system's buttons in step with the device, whatever
    lines arrive (rule induction on [reach]). *)
Theorem reach_press_hold {W} `{PointerLaws W} scale (w0 w : W) st :
  ps_held Left w0 = false -> ps_held Right w0 = false ->
  reach false scale w0 st w -> held_matches st w.
Proof.
  intros H0L H0R Hr. induction Hr as [|st w raw st' cs Hr IH Hb].
  - split; assumption.
  - exact (loop_body_held_matches _ _ _ _ _ _ IH Hb).
Qed.

Lemma reach_press_hold_witness :
  ps_held Left (mk_screen 0 0 false false) = false /\
  ps_held Right (mk_screen 0 0 false false) = false /\
  reach false SCALE (mk_screen 0 0 false false) (mk_levels 1 0)
    (perform_all [Press Left] (mk_screen 0 0 false false)) /\
  held_matches (mk_levels 1 0) (perform_all [Press Left] (mk_screen 0 0 false false)).
Proof.
  assert (Hr : reach false SCALE (mk_screen 0 0 false false) (mk_levels 1 0)
                 (perform_all [Press Left] (mk_screen 0 0 false false))).
  { apply (reach_step false SCALE (mk_screen 0 0 false false) initial_levels
             (mk_screen 0 0 false false) (bytes_of "0,0,1,0") (mk_levels 1 0) [Press Left]);
      [constructor | vm_compute; reflexivity]. }
  split; [reflexivity|]. split; [reflexivity|]. split; [exact Hr|].
  exact (reach_press_hold SCALE (mk_screen 0 0 false false) _ _ eq_refl eq_refl Hr).
Defined.

(** C6: under the edge-click policy no button is ever left held, in any
    state the loop can reach from a pointer with no button held: clicks
    are atomic, so the device cannot drag (rule induction on [reach]). *)
Theorem reach_edge_click_no_hold {W} `{PointerLaws W} scale (w0 w : W) st :
  (forall b, ps_held b w0 = false) ->
  reach true scale w0 st w -> forall b, ps_held b w = false.
Proof.
  intros Hw0 Hr. induction Hr as [|st w raw st' cs Hr IH Hb]; intros b; [apply Hw0|].
  destruct (loop_body_cases _ _ _ _ _ _ Hb)
    as [(-> & -> & _) | (f & mv & Hd & Hm & -> & ->)]; [apply IH|].
  rewrite perform_all_app. apply edge_click_never_holds.
  rewrite held_perform_all_untouched by (eapply motion_calls_untouched; exact Hm).
  apply IH.
Qed.

Lemma reach_edge_click_no_hold_witness :
  (forall b, ps_held b (mk_screen 0 0 false false) = false) /\
  reach true SCALE (mk_screen 0 0 false false) (mk_levels 1 0)
    (perform_all [Click Left 1] (mk_screen 0 0 false false)) /\
  ps_held Left (perform_all [Click Left 1] (mk_screen 0 0 false false)) = false.
Proof.
  assert (H0 : forall b, ps_held b (mk_screen 0 0 false false) = false)
    by (intros []; reflexivity).
  assert (Hr : reach true SCALE (mk_screen 0 0 false false) (mk_levels 1 0)
                 (perform_all [Click Left 1] (mk_screen 0 0 false false))).
  { apply (reach_step true SCALE (mk_screen 0 0 false false) initial_levels
             (mk_screen 0 0 false false) (bytes_of "0,0,1,0") (mk_levels 1 0)
             [Click Left 1]); [constructor | vm_compute; reflexivity]. }
  split; [exact H0|]. split; [exact Hr|].
  exact (reach_edge_click_no_hold SCALE (mk_screen 0 0 false false) _ _ H0 Hr Left).
Defined.

(** C2: refinement.  On lines whose accepted frames carry levels 0 or
    1 and deltas below [2^53], the loop never stops, and the calls it
    makes, line after line, are those of the spec's abstract machine
    run on the accepted frames: a move by the deltas unless both are 0,
    then the trigger policy's calls for the left and the right button;
    the stored levels follow the machine's state. *)
Theorem run_refines edge st lines pl pr :
  level_of (prevL st) = Some pl -> level_of (prevR st) = Some pr ->
  Forall frame_ok (accepted_frames lines) ->
  exists css st' afs ql qr,
    run edge SCALE st lines = (css, inl st') /\
    map abstract (accepted_frames lines) = map Some afs /\
    spec_run (policy_of edge) (pl, pr) afs (List.concat css) (ql, qr) /\
    level_of (prevL st') = Some ql /\ level_of (prevR st') = Some qr.
Proof.
  revert st pl pr; induction lines as [|raw rest IH]; intros st pl pr HL HR Hok.
  { exists [], st, [], pl, pr. repeat split; auto. constructor. }
  cbn [accepted_frames flat_map] in Hok. fold (accepted_frames rest) in Hok.
  destruct (decode_line raw) as [f|r] eqn:Hd.
  - inversion Hok as [|? ? (Habs & Hx & Hy) Hrest]; subst.
    unfold abstract in Habs.
    destruct (level_of (fL f)) as [cl|] eqn:EL; [|congruence].
    destruct (level_of (fR f)) as [cr|] eqn:ER; [|congruence].
    destruct (IH (next_levels (fL f) (fR f)) cl cr EL ER Hrest)
      as (css & st' & afs & ql & qr & Hrun & Hmap & Hspec & HqL & HqR).
    exists ((spec_motion (dx f) (dy f) ++ click_handling edge st (fL f) (fR f)) :: css),
      st', ((dx f, dy f, cl, cr) :: afs), ql, qr.
    repeat split; [| | |exact HqL|exact HqR].
    + cbn [run]. unfold loop_body. rewrite Hd, motion_SCALE_spec by assumption.
      now rewrite Hrun.
    + cbn [accepted_frames flat_map map]. rewrite Hd. cbn [app map].
      unfold abstract at 1. rewrite EL, ER. f_equal. exact Hmap.
    + cbn [List.concat]. rewrite click_handling_split.
      rewrite (code_button_refines _ _ _ _ _ _ HL EL), (code_button_refines _ _ _ _ _ _ HR ER).
      fold (spec_frame (policy_of edge) pl pr cl cr).
      rewrite <- app_assoc. constructor. exact Hspec.
  - destruct (IH st pl pr HL HR Hok)
      as (css & st' & afs & ql & qr & Hrun & Hmap & Hspec & HqL & HqR).
    exists ([] :: css), st', afs, ql, qr.
    repeat split; [| |exact Hspec|exact HqL|exact HqR].
    + rewrite (run_skip _ _ _ _ _ _ Hd). now rewrite Hrun.
    + cbn [accepted_frames flat_map]. rewrite Hd. exact Hmap.
Qed.

(** The lines of the spec's end-to-end scenario (testable property 7). *)
Definition scenario_lines : list (list Z) :=
  map bytes_of ["5,0,0,0"; "bad,line"; "0,0,1,0"; "0,0,1,0"; "0,0,0,0"]%string.

Lemma run_refines_witness :
  level_of (prevL initial_levels) = Some Released /\
  level_of (prevR initial_levels) = Some Released /\
  Forall frame_ok (accepted_frames scenario_lines) /\
  exists css st' afs ql qr,
    run EDGE_CLICK SCALE initial_levels scenario_lines = (css, inl st') /\
    map abstract (accepted_frames scenario_lines) = map Some afs /\
    spec_run (policy_of EDGE_CLICK) (Released, Released) afs (List.concat css) (ql, qr) /\
    level_of (prevL st') = Some ql /\ level_of (prevR st') = Some qr.
Proof.
  assert (Hok : Forall frame_ok (accepted_frames scenario_lines)).
  { assert (E : accepted_frames scenario_lines =
                [mk_frame 5 0 0 0; mk_frame 0 0 1 0; mk_frame 0 0 1 0; mk_frame 0 0 0 0])
      by (vm_compute; reflexivity).
    rewrite E. repeat constructor; unfold frame_ok, abstract; cbn; try discriminate. }
  split; [reflexivity|]. split; [reflexivity|]. split; [exact Hok|].
  exact (run_refines EDGE_CLICK initial_levels scenario_lines Released Released
           eq_refl eq_refl Hok).
Defined.

(** C9: lines the decoder rejects (empty reads after a timeout, wrong
    field counts, bad integers) make no call and change nothing: the
    loop on any input makes the same calls, in the same order, and ends
    in the same state or exception as the loop on the accepted lines
    alone (spec 5 and 7). *)
Theorem run_skips_rejected edge scale st lines :
  let accepted := filter (fun raw => is_ok (decode_line raw)) lines in
  List.concat (fst (run edge scale st lines)) = List.concat (fst (run edge scale st accepted)) /\
  snd (run edge scale st lines) = snd (run edge scale st accepted).
Proof.
  cbv zeta. revert st; induction lines as [|raw rest IH]; intros st; [split; reflexivity|].
  cbn [filter]. destruct (decode_line raw) as [f|r] eqn:Hd; cbn [is_ok].
  - cbn [run]. destruct (loop_body edge scale st raw) as [st' cs|e]; [|split; reflexivity].
    destruct (IH st') as [IHc IHo].
    destruct (run edge scale st' rest) as [css1 o1].
    destruct (run edge scale st' (filter _ rest)) as [css2 o2].
    cbn [fst snd List.concat] in *. split; [now rewrite IHc | exact IHo].
  - rewrite (run_skip _ _ _ _ _ _ Hd). destruct (IH st) as [IHc IHo].
    destruct (run edge scale st rest) as [css1 o1].
    cbn [fst snd List.concat] in *. split; [exact IHc | exact IHo].
Qed.

(** C8: a line whose [dx] has [2^1024] or more in magnitude (309
    digits, which [int()] accepts) ends [main] with [OverflowError] at
    line 55, outside the [try]; nothing after it is read and the
    program stops (the spec promises recovery from bad frames only). *)
Theorem run_crash edge scale st raw rest f :
  decode_line raw = Ok f -> 2 ^ emax <= Z.abs (dx f) ->
  run edge scale st (raw :: rest) = ([], inr OverflowError).
Proof.
  intros Hd Hx. cbn [run]. unfold loop_body. rewrite Hd. unfold motion.
  assert (Hdx : dx f <> 0)
    by (intros E; rewrite E in Hx;
        assert (0 < 2 ^ emax) by (apply Z.pow_pos_nonneg; unfold emax; lia); simpl in Hx; lia).
  replace (negb (dx f =? 0)) with true
    by (symmetry; apply negb_true_iff, Z.eqb_neq; exact Hdx).
  cbn [orb]. now rewrite scaled_overflow.
Qed.

Lemma run_crash_witness :
  decode_line (render_frame (mk_frame (2 ^ 1024) 0 0 0)) = Ok (mk_frame (2 ^ 1024) 0 0 0) /\
  2 ^ emax <= Z.abs (dx (mk_frame (2 ^ 1024) 0 0 0)) /\
  main_run (render_frame (mk_frame (2 ^ 1024) 0 0 0) :: scenario_lines) = ([], inr OverflowError).
Proof.
  assert (Hd : decode_line (render_frame (mk_frame (2 ^ 1024) 0 0 0)) =
               Ok (mk_frame (2 ^ 1024) 0 0 0)) by (vm_compute; reflexivity).
  assert (Hx : 2 ^ emax <= Z.abs (dx (mk_frame (2 ^ 1024) 0 0 0)))
    by (cbn [dx]; unfold emax; rewrite Z.abs_eq; [lia|apply Z.pow_nonneg; lia]).
  split; [exact Hd|]. split; [exact Hx|].
  exact (run_crash EDGE_CLICK SCALE initial_levels _ scenario_lines _ Hd Hx).
Defined.

End MainLoop.
