(* ===== verification/Program.v ===== *)
(** * The program: [main] on the serial input, and the [__main__] guard

    Lines 26-33 and 73-77 of python_code.py around the loop of
    [MainLoop]: [main] opens the port (line 30; pyserial raises
    [SerialException] when it cannot), sleeps two seconds (line 32),
    prints "Listening... (Ctrl+C to quit)" (line 33) and runs the loop,
    which reads a line with [ser.readline()] (line 36, [Transport]) and
    processes it ([MainLoop.loop_body]) until an exception leaves it:
    [KeyboardInterrupt], caught at line 76, which prints "\nStopped."
    (line 77) and ends the program normally, or the [OverflowError] of
    line 55, which is not caught.

    [serve] is the loop as the code runs it, one read then one
    iteration, defined by well-founded recursion on the input with
    Equations; [main_program] is [main] with the [__main__] guard, on
    the port's fate and the input, returning what is printed, the calls
    made on the pointer, line by line, and how the program ends.

    The theorems: [serve] is the composition of the reads and of
    [MainLoop.run] (the loop may read lazily, the outcome is the same);
    the program on the device's stream ended by Ctrl+C prints the two
    messages and makes the calls of [MainLoop.run] on the device's
    lines; under press/hold, Ctrl+C leaves the buttons held that the
    device last reported pressed (nothing releases them); and from any
    state the line "0,0,0,0" releases both buttons. *)

From Stdlib Require Import ZArith List Bool Lia String.
From Stdlib Require Import Floats.SpecFloat.
From Equations Require Import Equations.
From S2P Require Import Prelude Pointer Buttons Decoder PyFloat Motion Transport MainLoop.
Import ListNotations.
Import Buttons Decoder PyFloat Motion Transport MainLoop.
Local Open Scope Z_scope.
Local Open Scope mb_scope.

Module Program.

(** The exceptions that can leave [main]. *)
Inductive exn : Type :=
| SerialException
| PyException (e : py_error).

(** How the loop of lines 35-71 ends, with the levels it holds then. *)
Inductive loop_end : Type :=
| LoopInterrupted (st : levels)
| LoopCrash (e : py_error)
| LoopEndOfInput (st : levels).

Section Serve.
Variable edge : bool.
Variable scale : spec_float.

(** Lines 35-71: read a line, process it, loop. *)
Equations serve (st : levels) (s : list arrival) : list (list call) * loop_end
  by wf (List.length s) lt :=
  serve st s with inspect (readline s) := {
    | exist _ (Got raw r) E with loop_body edge scale st raw := {
        | Crash e => ([], LoopCrash e);
        | Continue st' cs => let p := serve st' r in (cs :: fst p, snd p) };
    | exist _ Interrupted _ => ([], LoopInterrupted st);
    | exist _ Exhausted _ => ([], LoopEndOfInput st) }.
Next Obligation. eapply readline_rest; eassumption. Qed.
End Serve.

(** How the program ends: normally after [KeyboardInterrupt] (lines
    76-77), with an exception that is not caught (a traceback and exit
    status 1), or still running when the observed input ends. *)
Inductive exit_status : Type :=
| Stopped
| Uncaught (e : exn)
| StillRunning.

Record outcome : Type := mk_outcome {
  console : list (list Z);
  calls_made : list (list call);
  status : exit_status
}.

(** Line 33 and line 77 ([print] adds the newline, which is left out). *)
Definition LISTENING : list Z := bytes_of "Listening... (Ctrl+C to quit)".
Definition STOPPED : list Z := LF :: bytes_of "Stopped.".

(** Lines 6-9 and 30: the settings [serial.Serial] is called with. *)
Record serial_config : Type := mk_config {
  port : string;
  baud : Z;
  timeout : Z
}.

Definition PORT : string := "/dev/cu.usbmodem14101".
Definition BAUD : Z := 9600.
Definition SETTINGS : serial_config := mk_config PORT BAUD 1.

(** Lines 26-33 and 73-77: [opens] says whether [serial.Serial] opens
    the port with given settings (the operating system decides). *)
Definition main_program (edge : bool) (scale : spec_float) (opens : serial_config -> bool)
    (s : list arrival) : outcome :=
  if negb (opens SETTINGS) then mk_outcome [] [] (Uncaught SerialException)
  else
    let p := serve edge scale initial_levels s in
    match snd p with
    | LoopInterrupted _ => mk_outcome [LISTENING; STOPPED] (fst p) Stopped
    | LoopCrash e => mk_outcome [LISTENING] (fst p) (Uncaught (PyException e))
    | LoopEndOfInput _ => mk_outcome [LISTENING] (fst p) StillRunning
    end.

(** The program with its settings (lines 18 and 21). *)
Definition program (opens : serial_config -> bool) (s : list arrival) : outcome :=
  main_program EDGE_CLICK SCALE opens s.


(** How the loop ends, given how [run] ends on the lines read and why
    the reads stopped. *)
Definition compose_end (o : levels + py_error) (k : stop) : loop_end :=
  match o with
  | inr e => LoopCrash e
  | inl st => match k with
              | ByInterrupt => LoopInterrupted st
              | EndOfInput => LoopEndOfInput st
              end
  end.

(** ** Lemmas *)

(** The defining equation of [serve], without the [inspect]. *)
Lemma serve_eq edge scale st s :
  serve edge scale st s =
  match readline s with
  | Got raw r =>
      match loop_body edge scale st raw with
      | Crash e => ([], LoopCrash e)
      | Continue st' cs =>
          (cs :: fst (serve edge scale st' r), snd (serve edge scale st' r))
      end
  | Interrupted => ([], LoopInterrupted st)
  | Exhausted => ([], LoopEndOfInput st)
  end.
Proof.
  rewrite serve_equation_1. destruct (inspect (readline s)) as [x Ex]. cbn.
  destruct x as [raw r| |]; [|rewrite Ex; reflexivity..].
  destruct (loop_body edge scale st raw) eqn:Eb; cbn; rewrite Ex, Eb; reflexivity.
Qed.

(** [serve] on the device's stream ended by an interrupt. *)
Lemma serve_device edge scale st fs :
  serve edge scale st (device_stream fs ++ [Interrupt]) =
  (fst (run edge scale st (map render_frame fs)),
   compose_end (snd (run edge scale st (map render_frame fs))) ByInterrupt).
Proof.
  revert st; induction fs as [|f fs IH]; intros st; [reflexivity|].
  cbn [device_stream flat_map map run]. fold (device_stream fs).
  rewrite serve_eq, <- app_assoc, readline_render.
  destruct (loop_body edge scale st (render_frame f)) as [st' cs|e]; [|reflexivity].
  rewrite IH. destruct (run edge scale st' (map render_frame fs)). reflexivity.
Qed.

(** The line "0,0,0,0" that the device prints for a frame at rest. *)
Lemma decode_rest_frame : decode_line (render_frame (mk_frame 0 0 0 0)) = Ok (mk_frame 0 0 0 0).
Proof. vm_compute. reflexivity. Qed.

(** The loop as the code runs it (read one line,
    process it, read the next) with the composition of the reads
    ([Transport.read_lines]) and of [MainLoop.run] on the lines read:
    same calls, same end; an uncaught exception wins over the reason the
    reads stopped. *)
Theorem serve_read_lines edge scale st s :
  serve edge scale st s =
  (fst (run edge scale st (fst (read_lines s))),
   compose_end (snd (run edge scale st (fst (read_lines s)))) (snd (read_lines s))).
Proof.
  revert st. induction s as [s IH] using reads_ind. intros st.
  rewrite serve_eq, read_lines_eq.
  destruct (readline s) as [raw r| |] eqn:E; [|reflexivity..].
  cbn [fst snd run]. destruct (loop_body edge scale st raw) as [st' cs|e]; [|reflexivity].
  rewrite (IH raw r eq_refl st'). destruct (run edge scale st' (fst (read_lines r))). reflexivity.
Qed.

(** Under press/hold a run that does not crash keeps the pointer's held
    buttons mirroring the stored levels, and ends with the levels of the
    last accepted line. *)
Lemma run_held_last {W} `{PointerLaws W} scale st lines css st' (w : W) :
  held_matches st w -> run false scale st lines = (css, inl st') ->
  st' = last_levels st lines /\ held_matches st' (perform_all (List.concat css) w).
Proof.
  revert st css w. induction lines as [|raw rest IH]; intros st css w Hw Hr.
  - cbn in Hr. injection Hr as <- <-. split; [reflexivity|exact Hw].
  - cbn [run] in Hr. destruct (loop_body false scale st raw) as [st1 cs|e] eqn:Eb; [|discriminate].
    destruct (run false scale st1 rest) as [css1 o] eqn:Er. injection Hr as <- ->.
    destruct (IH st1 css1 (perform_all cs w) (loop_body_held_matches _ _ _ _ _ _ Hw Eb) Er)
      as [-> Hh].
    split; [|cbn [List.concat]; now rewrite perform_all_app].
    unfold loop_body in Eb. destruct (decode_line raw) as [f|r] eqn:Hd.
    + destruct (motion scale (dx f) (dy f)); [|discriminate]. injection Eb as <- _.
      now rewrite (last_levels_accept _ _ _ _ Hd).
    + injection Eb as <- _. now rewrite (last_levels_skip _ _ _ _ Hd).
Qed.

(** ** Theorems *)

(** C26: the program on what the device sends, ended by Ctrl+C: it
    prints "Listening... (Ctrl+C to quit)" then "\nStopped." and exits
    normally, having made the calls of [MainLoop.run] on the device's
    lines, line by line; unless a frame raises, in which case it stops
    there with the uncaught exception and without the second message. *)
Theorem program_device_stream edge scale opens fs :
  opens SETTINGS = true ->
  main_program edge scale opens (device_stream fs ++ [Interrupt]) =
  match run edge scale initial_levels (map render_frame fs) with
  | (css, inl _) => mk_outcome [LISTENING; STOPPED] css Stopped
  | (css, inr e) => mk_outcome [LISTENING] css (Uncaught (PyException e))
  end.
Proof.
  intros Ho. unfold main_program. rewrite Ho. cbn [negb]. rewrite serve_device.
  destruct (run edge scale initial_levels (map render_frame fs)) as [css [st|e]]; reflexivity.
Qed.

Lemma program_device_stream_witness :
  (fun _ : serial_config => true) SETTINGS = true /\
  program (fun _ => true) (device_stream [mk_frame 5 0 0 0; mk_frame 0 0 1 0] ++ [Interrupt]) =
    mk_outcome [LISTENING; STOPPED] [[Move 5 0]; [Click Left 1]] Stopped.
Proof.
  split; [reflexivity|]. unfold program.
  rewrite (program_device_stream EDGE_CLICK SCALE (fun _ => true)
             [mk_frame 5 0 0 0; mk_frame 0 0 1 0] eq_refl).
  vm_compute. reflexivity.
Defined.

(** C27: Ctrl+C under press/hold leaves pressed every button the device
    last reported pressed.  When the program ends normally by
    [KeyboardInterrupt] (lines 74-77), on a pointer that started with no
    button held, each button is held at exit exactly when its level in
    the last accepted line is nonzero: the handler only prints, and
    nothing releases a button held for a drag, although the spec (5)
    says the program exits cleanly with no state to flush. *)
Theorem interrupt_keeps_held {W} `{PointerLaws W} scale opens s (w0 : W) :
  (forall b, ps_held b w0 = false) ->
  status (main_program false scale opens s) = Stopped ->
  held_matches (last_levels initial_levels (fst (read_lines s)))
    (perform_all (List.concat (calls_made (main_program false scale opens s))) w0).
Proof.
  intros Hw0 Hs. unfold main_program in *. destruct (negb (opens SETTINGS)); [discriminate|].
  rewrite serve_read_lines in *. destruct (read_lines s) as [lines k]. cbn [fst snd] in *.
  destruct (run false scale initial_levels lines) as [css o] eqn:Er. cbn [fst snd] in *.
  destruct o as [st'|e]; [|discriminate]. destruct k; [|discriminate]. cbn in Hs |- *.
  assert (Hw : held_matches initial_levels w0) by (split; rewrite Hw0; reflexivity).
  destruct (run_held_last scale initial_levels lines css st' w0 Hw Er) as [<- Hh]. exact Hh.
Qed.

Lemma interrupt_keeps_held_witness :
  (forall b, ps_held b (mk_screen 0 0 false false) = false) /\
  status (main_program false SCALE (fun _ => true)
            (device_stream [mk_frame 0 0 1 0] ++ [Interrupt])) = Stopped /\
  held_matches (last_levels initial_levels
                  (fst (read_lines (device_stream [mk_frame 0 0 1 0] ++ [Interrupt]))))
    (perform_all (List.concat (calls_made (main_program false SCALE (fun _ => true)
                  (device_stream [mk_frame 0 0 1 0] ++ [Interrupt])))) (mk_screen 0 0 false false)) /\
  last_levels initial_levels
    (fst (read_lines (device_stream [mk_frame 0 0 1 0] ++ [Interrupt]))) = mk_levels 1 0.
Proof.
  assert (H0 : forall b, ps_held b (mk_screen 0 0 false false) = false) by (intros []; reflexivity).
  assert (Hs : status (main_program false SCALE (fun _ => true)
                 (device_stream [mk_frame 0 0 1 0] ++ [Interrupt])) = Stopped)
    by (vm_compute; reflexivity).
  split; [exact H0|]. split; [exact Hs|]. split; [|vm_compute; reflexivity].
  exact (interrupt_keeps_held SCALE (fun _ => true) _ _ H0 Hs).
Defined.

(** C28: the device can always bring the pointer back to rest: from any
    state where the held buttons mirror the stored levels (every state
    the loop reaches from a released pointer, by [MainLoop]), the line
    "0,0,0,0" is read, accepted, returns the loop to its initial levels
    and leaves no button held, whatever the scale and whatever follows. *)
Theorem rest_line_releases {W} `{PointerLaws W} scale st s (w : W) :
  held_matches st w ->
  exists cs,
    serve false scale st (map Data (render_frame (mk_frame 0 0 0 0)) ++ s) =
      (cs :: fst (serve false scale initial_levels s), snd (serve false scale initial_levels s)) /\
    forall b, ps_held b (perform_all cs w) = false.
Proof.
  intros Hw.
  assert (Hb : loop_body false scale st (render_frame (mk_frame 0 0 0 0)) =
               Continue (next_levels 0 0) ([] ++ click_handling false st 0 0))
    by (unfold loop_body; rewrite decode_rest_frame; reflexivity).
  exists ([] ++ click_handling false st 0 0).
  split; [rewrite serve_eq, readline_render, Hb; reflexivity|].
  destruct (loop_body_held_matches _ _ _ _ _ _ Hw Hb) as [HL HR].
  intros []; [exact HL|exact HR].
Qed.

Lemma rest_line_releases_witness :
  held_matches (mk_levels 1 (-3)) (mk_screen 0 0 true true) /\
  exists cs,
    serve false SCALE (mk_levels 1 (-3)) (map Data (render_frame (mk_frame 0 0 0 0)) ++ [Interrupt]) =
      (cs :: fst (serve false SCALE initial_levels [Interrupt]),
       snd (serve false SCALE initial_levels [Interrupt])) /\
    forall b, ps_held b (perform_all cs (mk_screen 0 0 true true)) = false.
Proof.
  assert (Hw : held_matches (mk_levels 1 (-3)) (mk_screen 0 0 true true)) by (split; reflexivity).
  split; [exact Hw|]. exact (rest_line_releases SCALE _ [Interrupt] _ Hw).
Defined.

End Program.
