(* ===== verification/Interrupt.v ===== *)
(** * Ctrl+C at any point of the program

    [KeyboardInterrupt] is raised in the main thread at the first
    bytecode boundary after the user presses Ctrl+C, wherever [main]
    is: in [time.sleep(2.0)] (line 32), in [ser.readline()] (line 36,
    modelled by [Transport]), or between two statements of the loop
    body, for instance between [mouse.move] (line 55) and
    [mouse.click] (line 61), or between [mouse.press] of the left
    button (line 67) and the update of line 71.  Lines 76-77 catch it
    wherever it comes from.

    Between two effects of the program, every point where the
    interrupt can land leads to the same observable outcome, so the
    interrupt is placed by [ctrl_c]: during the sleep (before the first
    message), or once the program has made [n] pointer calls (it is
    raised before the next call, before line 71 of the iteration, and
    before the next read).  [serve_cc] is the loop of [Program.serve]
    with that interrupt, [main_program_cc] the program.

    This file holds the model only: a pointer call is atomic here
    (pynput's [click] is a press then a release in Python), so what an
    interrupt between two calls can leave held is not a property of the
    program that the model decides; the theorem about Ctrl+C is
    [Program.interrupt_keeps_held], on the interrupt of a read. *)

From Stdlib Require Import ZArith List Bool Lia String.
From Stdlib Require Import Floats.SpecFloat.
From Equations Require Import Equations.
From S2P Require Import Prelude Pointer Buttons Decoder PyFloat Motion Transport MainLoop Program.
Import ListNotations.
Import Buttons Decoder PyFloat Motion Transport MainLoop Program.
Local Open Scope Z_scope.
Local Open Scope mb_scope.

Module Interrupt.

(** Where the user's Ctrl+C lands. *)
Inductive ctrl_c : Type :=
| DuringSleep
| AfterCalls (n : nat).

Section Serve.
Variable edge : bool.
Variable scale : spec_float.

(** Lines 35-71 with the interrupt raised once [n] more calls are made. *)
Equations serve_cc (st : levels) (s : list arrival) (n : nat) : list (list call) * loop_end
  by wf (List.length s) lt :=
  serve_cc st s O := ([], LoopInterrupted st);
  serve_cc st s (S n) with inspect (readline s) := {
    | exist _ (Got raw r) E with loop_body edge scale st raw := {
        | Crash e => ([], LoopCrash e);
        | Continue st' cs =>
            if Nat.ltb (List.length cs) (S n)
            then let p := serve_cc st' r (S n - List.length cs) in (cs :: fst p, snd p)
            else ([firstn (S n) cs], LoopInterrupted st) };
    | exist _ Interrupted _ => ([], LoopInterrupted st);
    | exist _ Exhausted _ => ([], LoopEndOfInput st) }.
Next Obligation. eapply readline_rest; eassumption. Qed.
End Serve.

(** Lines 26-33 and 73-77 with the interrupt placed by [c]. *)
Definition main_program_cc (edge : bool) (scale : spec_float) (opens : serial_config -> bool)
    (s : list arrival) (c : ctrl_c) : outcome :=
  if negb (opens SETTINGS) then mk_outcome [] [] (Uncaught SerialException)
  else
    match c with
    | DuringSleep => mk_outcome [STOPPED] [] Stopped
    | AfterCalls n =>
        let p := serve_cc edge scale initial_levels s n in
        match snd p with
        | LoopInterrupted _ => mk_outcome [LISTENING; STOPPED] (fst p) Stopped
        | LoopCrash e => mk_outcome [LISTENING] (fst p) (Uncaught (PyException e))
        | LoopEndOfInput _ => mk_outcome [LISTENING] (fst p) StillRunning
        end
    end.


(** ** Lemmas *)

(** The defining equation of [serve_cc] once a call is still to come. *)
Lemma serve_cc_eq edge scale st s n :
  serve_cc edge scale st s (S n) =
  match readline s with
  | Got raw r =>
      match loop_body edge scale st raw with
      | Crash e => ([], LoopCrash e)
      | Continue st' cs =>
          if Nat.ltb (List.length cs) (S n)
          then (cs :: fst (serve_cc edge scale st' r (S n - List.length cs)),
                snd (serve_cc edge scale st' r (S n - List.length cs)))
          else ([firstn (S n) cs], LoopInterrupted st)
      end
  | Interrupted => ([], LoopInterrupted st)
  | Exhausted => ([], LoopEndOfInput st)
  end.
Proof.
  rewrite serve_cc_equation_2. destruct (inspect (readline s)) as [x Ex]. cbn.
  destruct x as [raw r| |]; [|rewrite Ex; reflexivity..].
  destruct (loop_body edge scale st raw) eqn:Eb; cbn; rewrite Ex, Eb; reflexivity.
Qed.

End Interrupt.
