(* ===== verification/Runtime.v ===== *)
(** * The loop body as it runs: effects on the controller [mouse]

    Line 24 of src/MouseTracking/python_code.py creates the global
    [mouse = Controller()], a handle on the system's pointer, and the
    loop body calls its methods where the code stands: [mouse.move]
    at line 55, [mouse.click] at lines 61 and 63, [mouse.press] and
    [mouse.release] at lines 67 and 69.  Each call acts on the pointer
    at once, and an exception raised later (the [OverflowError] of
    line 55) does not undo what was done before it.

    The other files record the calls of an iteration as data ([call]
    lists, [MainLoop.loop_body], [MainLoop.run]) and perform them
    afterwards ([Pointer.perform_all]).  This file translates the same
    lines in direct style: [io] is a state and exception monad whose
    state is the pointer [mouse] acts on, [mouse_move] ... [mouse_release]
    are the four methods, and [loop_body_io] and [run_io] are lines
    53-71 and the loop over the lines read, written statement by
    statement.

    The lemma [run_io_trace] relates the two readings: the direct-style
    loop leaves the pointer as performing the recorded calls in order
    does, and ends with the levels or the exception [MainLoop.run]
    gives.  It is a check of the translation, not a property of the
    program: both readings translate the same lines. *)

From Stdlib Require Import ZArith List Bool Lia.
From Stdlib Require Import Floats.SpecFloat.
From S2P Require Import Prelude Pointer Buttons PyText PyInt Utf8 Decoder PyFloat Motion MainLoop.
Import ListNotations.
Import Buttons Decoder PyFloat Motion MainLoop.
Local Open Scope Z_scope.
Local Open Scope mb_scope.

Module Runtime.

Declare Scope io_scope.
Delimit Scope io_scope with io.

Section Io.
Context {W : Type} `{PointerService W}.

(** A statement of the loop body run on the pointer [mouse] (line 24):
    its value or the Python exception it raised, and the pointer after
    it, effects made before an exception included. *)
Definition io (A : Type) : Type := W -> result A py_error * W.

Definition io_ret {A} (a : A) : io A := fun w => (Ok a, w).

Definition io_bind {A B} (m : io A) (k : A -> io B) : io B :=
  fun w => match m w with
           | (Ok a, w') => k a w'
           | (Err e, w') => (Err e, w')
           end.

Definition io_raise {A} (e : py_error) : io A := fun w => (Err e, w).

(** An expression that may raise, evaluated without touching the pointer. *)
Definition io_of_result {A} (r : result A py_error) : io A :=
  match r with
  | Ok a => io_ret a
  | Err e => io_raise e
  end.

End Io.

Notation "x <- m ;; k" := (io_bind m (fun x => k))
  (at level 61, m at next level, right associativity) : io_scope.
Notation "m ;; k" := (io_bind m (fun _ => k))
  (at level 61, right associativity) : io_scope.
Local Open Scope io_scope.

Section Body.
Context {W : Type} `{PointerService W}.

(** The methods of [Controller] the loop calls. *)
Definition mouse_move (x y : Z) : io (W := W) unit := fun w => (Ok tt, ps_move x y w).
Definition mouse_click (b : button) (n : Z) : io (W := W) unit := fun w => (Ok tt, ps_click b n w).
Definition mouse_press (b : button) : io (W := W) unit := fun w => (Ok tt, ps_press b w).
Definition mouse_release (b : button) : io (W := W) unit := fun w => (Ok tt, ps_release b w).

Definition pass : io (W := W) unit := io_ret tt.

(** Lines 54-55: both arguments are evaluated before [mouse.move]. *)
Definition motion_io (scale : spec_float) (dx dy : Z) : io unit :=
  if negb (dx =? 0) || negb (dy =? 0) then
    x <- io_of_result (scaled scale dx) ;;
    y <- io_of_result (scaled scale dy) ;;
    mouse_move x y
  else pass.

(** Lines 60-63 for one button. *)
Definition edge_click_io (b : button) (cur prev : Z) : io unit :=
  if (cur =? 1) && (prev =? 0) then mouse_click b 1 else pass.

(** Lines 66-69 for one button. *)
Definition press_hold_io (b : button) (cur prev : Z) : io unit :=
  if negb (cur =? prev) then
    (if negb (cur =? 0) then mouse_press b else mouse_release b)
  else pass.

(** Lines 58-69. *)
Definition click_handling_io (edge : bool) (st : levels) (L R : Z) : io unit :=
  if edge then edge_click_io Left L (prevL st) ;; edge_click_io Right R (prevR st)
  else press_hold_io Left L (prevL st) ;; press_hold_io Right R (prevR st).

(** Lines 36-71: the levels the next iteration starts from. *)
Definition loop_body_io (edge : bool) (scale : spec_float) (st : levels) (raw : list Z)
  : io levels :=
  match decode_line raw with
  | Err _ => io_ret st
  | Ok f =>
      motion_io scale (dx f) (dy f) ;;
      click_handling_io edge st (fL f) (fR f) ;;
      io_ret (next_levels (fL f) (fR f))
  end.

(** The [while True] loop over the lines read. *)
Fixpoint run_io (edge : bool) (scale : spec_float) (st : levels) (lines : list (list Z))
  : io levels :=
  match lines with
  | [] => io_ret st
  | raw :: rest => st' <- loop_body_io edge scale st raw ;; run_io edge scale st' rest
  end.

End Body.

(** ** Lemmas: each statement performs the calls it records *)

Section Trace.
Context {W : Type} `{PointerService W}.

Lemma edge_click_io_trace b cur prev (w : W) :
  edge_click_io b cur prev w = (Ok tt, perform_all (edge_click b cur prev) w).
Proof. unfold edge_click_io, edge_click. now destruct (_ && _). Qed.

Lemma press_hold_io_trace b cur prev (w : W) :
  press_hold_io b cur prev w = (Ok tt, perform_all (press_hold b cur prev) w).
Proof. unfold press_hold_io, press_hold. now destruct (negb (cur =? prev)), (negb (cur =? 0)). Qed.

Lemma click_handling_io_trace edge st L R (w : W) :
  click_handling_io edge st L R w = (Ok tt, perform_all (click_handling edge st L R) w).
Proof.
  unfold click_handling_io, click_handling, io_bind.
  destruct edge; [rewrite !edge_click_io_trace | rewrite !press_hold_io_trace];
    now rewrite perform_all_app.
Qed.

(** Line 55 raises before [mouse.move] is called, so a crash leaves the
    pointer as it was. *)
Lemma motion_io_trace scale dx dy (w : W) :
  motion_io scale dx dy w =
  match motion scale dx dy with
  | Ok cs => (Ok tt, perform_all cs w)
  | Err e => (Err e, w)
  end.
Proof.
  unfold motion_io, motion. destruct (_ || _); [|reflexivity].
  unfold io_bind. destruct (scaled scale dx), (scaled scale dy); reflexivity.
Qed.

Lemma loop_body_io_trace edge scale st raw (w : W) :
  loop_body_io edge scale st raw w =
  match loop_body edge scale st raw with
  | Continue st' cs => (Ok st', perform_all cs w)
  | Crash e => (Err e, w)
  end.
Proof.
  unfold loop_body_io, loop_body. destruct (decode_line raw) as [f|]; [|reflexivity].
  unfold io_bind at 1. rewrite motion_io_trace.
  destruct (motion scale (dx f) (dy f)) as [mv|e]; [|reflexivity].
  unfold io_bind. rewrite click_handling_io_trace, perform_all_app. reflexivity.
Qed.

End Trace.

(** The loop as the code runs it, each [mouse] call acting on the
    pointer where it stands and an exception keeping what was done
    before it, leaves the pointer as performing the calls [MainLoop.run]
    records, in order, does, and ends as [run] ends. *)
Lemma run_io_trace {W} `{PointerService W} edge scale st lines (w : W) :
  run_io edge scale st lines w =
  (match snd (run edge scale st lines) with inl st' => Ok st' | inr e => Err e end,
   perform_all (List.concat (fst (run edge scale st lines))) w).
Proof.
  revert st w. induction lines as [|raw rest IH]; intros st w; [reflexivity|].
  cbn [run_io run]. unfold io_bind at 1. rewrite loop_body_io_trace.
  destruct (loop_body edge scale st raw) as [st' cs|e]; [|reflexivity].
  rewrite IH. destruct (run edge scale st' rest) as [css o].
  cbn [fst snd List.concat]. now rewrite perform_all_app.
Qed.

End Runtime.
